(** * Notebook Navigator: content pipeline and PDF cover thumbnails

    A shallow embedding of
    - [src/services/content/pdf/pdfCoverThumbnail.ts] (shared pdf.js worker,
      idle timer, [calculateScale], [renderPdfCoverThumbnail]),
    - [PreviewContentProvider] ([shouldRegenerate], [needsProcessing],
      [processFile]),
    - the weighted render limiter of [thumbnailRuntimeUtils], whose source is
      not part of the tree and is modelled from the specification and from
      its unit tests.

    JavaScript numbers that are used as real quantities are IEEE-754 binary64
    values ([spec_float] at precision 53); counters, byte sizes and time
    stamps are integers ([Z], [nat]); strings are sequences of UTF-16 code
    units.

    Code with effects runs in a state-and-exception monad.  A call into
    pdf.js, the vault or the DOM is a value of the environment that either
    returns or raises (an awaited promise settles); the only await that may
    stay pending is [renderLimiter.acquire()].  One call of
    [renderPdfCoverThumbnail] runs from start to end over the module's
    state; the calls it makes are recorded in a trace. *)

From stdpp Require Import gmap list strings.
From Stdlib Require Import ZArith Lia SpecFloat Ascii.

Local Open Scope Z_scope.

(* ===================================================================== *)
(** * The weighted admission limiter *)
(* ===================================================================== *)

Module Limiter.

(** Modelled from the spec: [createRenderBudgetLimiter] and
    [createRenderLimiter] of [thumbnailRuntimeUtils.ts], which is missing
    from the sources (only its tests are present).  A limiter has a fixed
    budget, the weight currently admitted, the permits that were granted
    and not yet released (with their clamped weight) and the FIFO queue of
    callers that wait for admission. *)
Record t := mk {
  budget : Z;
  activeWeight : Z;
  permits : gmap nat Z;
  waiters : list (nat * Z);
  nextId : nat
}.

(** Modelled from the spec: a fresh limiter with total budget [b]. *)
Definition createRenderBudgetLimiter (b : Z) : t :=
  {| budget := b; activeWeight := 0; permits := ∅; waiters := []; nextId := 0 |}.

(** Modelled from the spec: [getActiveWeight()] reports the admitted weight. *)
Definition getActiveWeight (l : t) : Z := activeWeight l.

(** Modelled from the spec: the clamping rule, a weight above the total
    budget is clamped to the total budget. *)
Definition clamp (b w : Z) : Z := Z.min w b.

(** Modelled from the spec: waiters are admitted in arrival order, the
    head of the queue first and only while it fits in the budget; a later
    and smaller request never overtakes the head. *)
Fixpoint drain (b a : Z) (held : gmap nat Z) (q : list (nat * Z))
  : Z * gmap nat Z * list (nat * Z) :=
  match q with
  | [] => (a, held, [])
  | (i, w) :: q' =>
      if a + w <=? b then drain b (a + w) (<[i := w]> held) q'
      else (a, held, q)
  end.

(** Modelled from the spec: admits the next waiters of [l]. *)
Definition admitWaiters (l : t) : t :=
  let '(a, held, q) := drain (budget l) (activeWeight l) (permits l) (waiters l) in
  {| budget := budget l; activeWeight := a; permits := held; waiters := q;
     nextId := nextId l |}.

(** Modelled from the spec: [acquire(weight)].  The caller gets the ticket
    [nextId]; its release capability exists once the ticket is among the
    [permits].  An invalid (non-positive) weight is a programming defect:
    the call fails and the limiter is left as it was. *)
Definition acquire (w : Z) (l : t) : option (nat * t) :=
  if w <=? 0 then None
  else
    let i := nextId l in
    Some (i, admitWaiters {| budget := budget l; activeWeight := activeWeight l;
                      permits := permits l;
                      waiters := waiters l ++ [(i, clamp (budget l) w)];
                      nextId := S i |}).

(** Modelled from the spec: [release()] of the permit with ticket [i]
    frees its weight and admits the next waiters.  Releasing a permit that
    is not held (a second release, or a ticket that still waits) is a
    programming defect: the call fails and the accounting is untouched. *)
Definition release (i : nat) (l : t) : option t :=
  match permits l !! i with
  | None => None
  | Some w =>
      Some (admitWaiters {| budget := budget l; activeWeight := activeWeight l - w;
                     permits := delete i (permits l);
                     waiters := waiters l; nextId := nextId l |})
  end.

(** Modelled from the spec: [createRenderLimiter(n)] counts renders, each
    render weighs one unit of a budget of [n]. *)
Definition createRenderLimiter (n : Z) : t := createRenderBudgetLimiter n.

(** Modelled from the spec: [acquire()] of the render limiter. *)
Definition acquireOne (l : t) : option (nat * t) := acquire 1 l.

(** Modelled from the spec: [getActiveCount()] of the render limiter. *)
Definition getActiveCount (l : t) : Z := getActiveWeight l.

(** A call of the limiter's interface. *)
Inductive call :=
| Acquire (w : Z)
| Release (i : nat).

Definition step (c : call) (l : t) : option t :=
  match c with
  | Acquire w => snd <$> acquire w l
  | Release i => release i l
  end.

(** A failing call raises and changes nothing. *)
Definition exec (l : t) (c : call) : t := default l (step c l).

Definition run (b : Z) (cs : list call) : t :=
  foldl exec (createRenderBudgetLimiter b) cs.

(** Sum of the weights of the permits that are held. *)
Definition held_weight (m : gmap nat Z) : Z :=
  map_fold (fun _ w acc => w + acc) 0 m.

(** The accounting invariant. *)
Record Inv (l : t) : Prop := {
  inv_budget : 0 < budget l;
  inv_sum : activeWeight l = held_weight (permits l);
  inv_le : activeWeight l <= budget l;
  inv_permits : forall i w, permits l !! i = Some w -> 0 < w <= budget l /\ (i < nextId l)%nat;
  inv_waiters : Forall (fun p => 0 < p.2 <= budget l /\ (p.1 < nextId l)%nat
                                 /\ permits l !! p.1 = None) (waiters l);
  inv_nodup : NoDup (waiters l).*1
}.

(** No waiter at the head of the queue could be admitted. *)
Definition Drained (l : t) : Prop :=
  match waiters l with
  | [] => True
  | (_, w) :: _ => budget l < activeWeight l + w
  end.

End Limiter.

(* ===================================================================== *)
(** * JavaScript values shared by the models *)
(* ===================================================================== *)

Module JS.

(** A string is its sequence of UTF-16 code units. *)
Definition JSString := list N.

(** The literal with the given ASCII text. *)
Definition js (s : string) : JSString :=
  map N_of_ascii (String.list_ascii_of_string s).

(** [a === b] on strings. *)
Definition str_eqb (a b : JSString) : bool := bool_decide (a = b).

(** A number is an IEEE-754 binary64 value. *)
Definition number := spec_float.
Definition prec : Z := 53.
Definition emax : Z := 1024.

Definition num_zero : number := S754_zero false.
Definition num_one : number := S754_finite false 4503599627370496 (-52).

Definition num_div (a b : number) : number := SFdiv prec emax a b.
Definition num_lt (a b : number) : bool := SFltb a b.
Definition num_le (a b : number) : bool := SFleb a b.

Definition is_nan (a : number) : bool :=
  match a with S754_nan => true | _ => false end.
Definition is_neg_zero (a : number) : bool :=
  match a with S754_zero true => true | _ => false end.
Definition is_pos_zero (a : number) : bool :=
  match a with S754_zero false => true | _ => false end.

(** [Math.min(a, b)]: NaN when an argument is NaN, and -0 is below +0. *)
Definition Math_min (a b : number) : number :=
  if is_nan a || is_nan b then S754_nan
  else if num_lt b a then b
  else if num_lt a b then a
  else if is_neg_zero b then b else a.

(** [Math.max(a, b)]: NaN when an argument is NaN, and +0 is above -0. *)
Definition Math_max (a b : number) : number :=
  if is_nan a || is_nan b then S754_nan
  else if num_lt a b then b
  else if num_lt b a then a
  else if is_pos_zero b then b else a.

(** [Math.ceil(a)]: the least integer that is not below [a]; infinities,
    NaN, zeros and integers are returned as they are, and a value in
    (-1, 0) gives -0. *)
Definition Math_ceil (a : number) : number :=
  match a with
  | S754_finite s m e =>
      if 0 <=? e then a
      else
        let d := 2 ^ (- e) in
        let n := if s then - (Z.pos m / d) else (Z.pos m + d - 1) / d in
        binary_normalize prec emax n 0 s
  | _ => a
  end.

(** The integer part of a number, towards zero. *)
Definition IntegerPart (a : number) : Z :=
  match a with
  | S754_finite s m e =>
      let magnitude := if 0 <=? e then Z.pos m * 2 ^ e else Z.pos m / 2 ^ (- e) in
      if s then - magnitude else magnitude
  | _ => 0
  end.

(** The conversion of a number to [unsigned long] that Web IDL applies to
    a value assigned to such an attribute: NaN, the zeros and the
    infinities give 0, any other number its integer part modulo 2^32. *)
Definition to_unsigned_long (a : number) : Z :=
  match a with
  | S754_finite _ _ _ => IntegerPart a mod 2 ^ 32
  | _ => 0
  end.

(** How a statement or a call completes: with a value, with a thrown
    error, or not at all because it awaits a promise that stays pending. *)
Inductive outcome (A : Type) :=
| Ok (a : A)
| Throw (e : JSString)
| Pending.
Arguments Ok {A} a.
Arguments Throw {A} e.
Arguments Pending {A}.

(** Code that runs over a mutable state [S]. *)
Definition M (S A : Type) : Type := S -> outcome A * S.

Definition ret {S A} (a : A) : M S A := fun s => (Ok a, s).

Definition bind {S A B} (m : M S A) (k : A -> M S B) : M S B :=
  fun s =>
    match m s with
    | (Ok a, s') => k a s'
    | (Throw e, s') => (Throw e, s')
    | (Pending, s') => (Pending, s')
    end.

(** What a call into code that is not in the model does: it returns (an
    awaited promise is fulfilled) or it raises (the promise is rejected). *)
Inductive completion (A : Type) :=
| Returns (a : A)
| Raises (e : JSString).
Arguments Returns {A} a.
Arguments Raises {A} e.

Definition call {S A} (r : completion A) : M S A :=
  fun s =>
    match r with
    | Returns a => (Ok a, s)
    | Raises e => (Throw e, s)
    end.

(** A change of the state that cannot fail. *)
Definition modify {S} (f : S -> S) : M S unit := fun s => (Ok tt, f s).

Definition get {S} : M S S := fun s => (Ok s, s).

(** [try { m } catch (e) { h e }]. *)
Definition try_catch {S A} (m : M S A) (h : JSString -> M S A) : M S A :=
  fun s =>
    match m s with
    | (Throw e, s') => h e s'
    | r => r
    end.

(** [try { m } finally { f }]: [f] runs once [m] has completed, with a value
    or with an error, and the completion of [m] stands unless [f] throws. *)
Definition try_finally {S A} (m : M S A) (f : M S unit) : M S A :=
  fun s =>
    match m s with
    | (Pending, s') => (Pending, s')
    | (r, s') =>
        match f s' with
        | (Ok _, s'') => (r, s'')
        | (Throw e, s'') => (Throw e, s'')
        | (Pending, s'') => (Pending, s'')
        end
    end.

(** An optional method of an object, as [obj?.method?.()] finds it. *)
Inductive optional_method :=
| Absent
| Method (throws : bool).

Definition optional_call {S} (m : optional_method) : M S unit :=
  match m with
  | Absent => ret tt
  | Method false => ret tt
  | Method true => call (Raises (js "TypeError"))
  end.

(** What code does from every state: [ends R m] when [m] completes, with a
    value or an error, in a state related by [R] to the one it started in;
    [returns R m] when moreover it completes with a value. *)
Definition ends {S A} (R : S -> S -> Prop) (m : M S A) : Prop :=
  forall s, exists r s', m s = (r, s') /\ r <> Pending /\ R s s'.

Definition returns {S A} (R : S -> S -> Prop) (m : M S A) : Prop :=
  forall s, exists a s', m s = (Ok a, s') /\ R s s'.

End JS.

Notation "'let*' x ':=' m 'in' k" := (JS.bind m (fun x => k))
  (at level 10, x name, m at level 100, k at level 200).
Notation "m ';;;' k" := (JS.bind m (fun _ => k))
  (at level 100, k at level 200, right associativity).

(* ===================================================================== *)
(** * Obsidian files *)
(* ===================================================================== *)

Module Obsidian.
Import JS.

(** [TFile]: [stat_size] is [None] when [stat.size] is undefined. *)
Record TFile := {
  path : JSString;
  name : JSString;
  extension : JSString;
  stat_mtime : Z;
  stat_size : option Z
}.

End Obsidian.

(* ===================================================================== *)
(** * [calculateScale] *)
(* ===================================================================== *)

Module Scale.
Import JS.

Record params := {
  baseWidth : number;
  baseHeight : number;
  maxWidth : number;
  maxHeight : number
}.

(** Calculates the scale factor to fit dimensions within max bounds. *)
Definition calculateScale (p : params) : number :=
  if num_le (baseWidth p) num_zero || num_le (baseHeight p) num_zero
     || num_le (maxWidth p) num_zero || num_le (maxHeight p) num_zero
  then num_one
  else
    let widthScale := num_div (maxWidth p) (baseWidth p) in
    let heightScale := num_div (maxHeight p) (baseHeight p) in
    let scale := Math_min widthScale heightScale in
    Math_min num_one scale.

(** Zero, a positive number or NaN: what a quotient of positive numbers is. *)
Definition not_negative (x : number) : bool :=
  match x with
  | S754_zero false | S754_infinity false | S754_finite false _ _ | S754_nan => true
  | _ => false
  end.

(** All four dimensions are strictly positive. *)
Definition all_positive (p : params) : Prop :=
  num_lt num_zero (baseWidth p) = true /\ num_lt num_zero (baseHeight p) = true
  /\ num_lt num_zero (maxWidth p) = true /\ num_lt num_zero (maxHeight p) = true.


(** A US Letter page (612 by 792 points) for a box of 256 by 256, and for a
    box whose width is [Number.MIN_VALUE]. *)
Definition num_612 : number := S754_finite false 5383208929591296 (-43).
Definition num_792 : number := S754_finite false 6966505673588736 (-43).
Definition num_256 : number := S754_finite false 4503599627370496 (-44).
Definition Number_MIN_VALUE : number := S754_finite false 1 (-1074).

Definition letter_page_in_box : params :=
  {| baseWidth := num_612; baseHeight := num_792;
     maxWidth := num_256; maxHeight := num_256 |}.

Definition letter_page_in_thin_box : params :=
  {| baseWidth := num_612; baseHeight := num_792;
     maxWidth := Number_MIN_VALUE; maxHeight := num_256 |}.




End Scale.

(* ===================================================================== *)
(** * [pdfCoverThumbnail.ts] *)
(* ===================================================================== *)

Module Pdf.
Import JS Obsidian.

Record PdfCoverThumbnailOptions := {
  maxWidth : number;
  maxHeight : number;
  mimeType : JSString;
  quality : option number
}.

(** A pdf.js worker: a record; [worker_destroy] is [Absent] when its
    ['destroy'] property is not a function. *)
Record PdfWorker := {
  worker_id : nat;
  worker_destroy : optional_method
}.

Record PdfViewport := { width : number; height : number }.

(** A canvas element: the width and height it has, in pixels. *)
Record Canvas := { canvas_width : Z; canvas_height : Z }.

(** [canvas.width = value] and [canvas.height = value]: the attribute is an
    [unsigned long] that reflects the content attribute, so the value is
    converted, and a converted value above 2147483647 sets the attribute's
    default (300 for the width, 150 for the height). *)
Definition set_canvas_side (default : Z) (value : number) : Z :=
  let n := to_unsigned_long value in
  if n <=? 2147483647 then n else default.

Definition CANVAS_DEFAULT_WIDTH : Z := 300.
Definition CANVAS_DEFAULT_HEIGHT : Z := 150.

Record Blob := { blob_type : JSString; blob_size : N }.

(** A pdf.js page: [render] is the completion of [renderTask.promise]. *)
Record PdfPage := {
  getViewport : number -> completion PdfViewport;
  render : Canvas -> PdfViewport -> completion unit;
  cleanup : optional_method
}.

(** What [doc.getPage(1)] resolves to, as [isPdfPage] tells it apart. *)
Inductive PageValue :=
| NotAPage
| Page (p : PdfPage).

Record PdfDocument := {
  getPage : Z -> completion PageValue;
  destroy : optional_method
}.

Inductive DocumentSource :=
| FromUrl (url : JSString)
| FromData (buffer : list N).

Record DocumentParams := {
  source : DocumentSource;
  disableAutoFetch : bool;
  disableStream : bool;
  worker : option PdfWorker
}.

(** [pdfjs['PDFWorker']]: [factory_create] is [Some r] when the value is a
    record whose ['create'] is a function and [r] is what [create({})] does,
    [factory_new] is [Some r] when the value is itself a function and [r] is
    what [new PDFWorker({})] does.  A created value that is not a record is
    [None]. *)
Record WorkerFactory := {
  factory_isRecord : bool;
  factory_create : option (completion (option PdfWorker));
  factory_new : option (completion (option PdfWorker))
}.

(** The value that [loadPdfJs()] resolves to. *)
Record PdfJs := {
  pdfjs_isRecord : bool;
  PDFWorker : WorkerFactory;
  getDocument : DocumentParams -> completion PdfDocument
}.

(** The platform and the vault, as far as the renderer calls them. *)
Record Env := {
  toLowerCase : JSString -> JSString;
  loadPdfJs : completion PdfJs;
  getResourcePath : TFile -> completion JSString;
  readBinary : JSString -> completion (list N);
  getContext2d : Canvas -> bool;
  toBlob : Canvas -> JSString -> option number -> completion (option Blob)
}.

(** Calls that leave the module, in the order they were made. *)
Inductive Event :=
| EvLogOnce (key : JSString)
| EvAcquire (ticket : nat)
| EvRelease (ticket : nat)
| EvLoadPdfJs
| EvCreateWorker
| EvWorkerDestroy (id : nat)
| EvGetDocument (params : DocumentParams)
| EvReadBinary (p : JSString)
| EvGetPage (n : Z)
| EvRender
| EvPageCleanup
| EvDocumentDestroy
| EvToBlob (mime : JSString).

Definition is_release (e : Event) : bool :=
  match e with EvRelease _ => true | _ => false end.

(** A call of the heavy renderer (pdf.js). *)
Definition is_renderer_call (e : Event) : bool :=
  match e with
  | EvLoadPdfJs | EvCreateWorker | EvWorkerDestroy _ | EvGetDocument _
  | EvGetPage _ | EvRender | EvPageCleanup | EvDocumentDestroy => true
  | _ => false
  end.

Definition is_acquire (e : Event) : bool :=
  match e with EvAcquire _ => true | _ => false end.

Definition is_log (e : Event) : bool :=
  match e with EvLogOnce _ => true | _ => false end.

(** Time before the shared worker is destroyed after the last render. *)
Definition DEFAULT_WORKER_IDLE_TIMEOUT_MS : Z := 60000.
(** Maximum concurrent PDF page renders. *)
Definition MAX_PARALLEL_PDF_RENDERS : Z := 2.
(** Thumbnails of larger PDFs are skipped. *)
Definition MAX_PDF_THUMBNAIL_BYTES : Z := 25 * 1024 * 1024.

(** The module's variables, the timeouts of [window] that are pending (with
    their delay) and the calls made so far. *)
Record World := {
  sharedWorker : option PdfWorker;
  workerIdleTimerId : option nat;
  timeouts : list (nat * Z);
  nextTimeout : nat;
  renderLimiter : Limiter.t;
  trace : list Event
}.

Definition emit (e : Event) : M World unit :=
  modify (fun w =>
    {| sharedWorker := sharedWorker w; workerIdleTimerId := workerIdleTimerId w;
       timeouts := timeouts w; nextTimeout := nextTimeout w;
       renderLimiter := renderLimiter w; trace := trace w ++ [e] |}).

Definition logOnce (key : JSString) : M World unit := emit (EvLogOnce key).

(** [window.clearTimeout(id)]. *)
Definition clearTimeout (id : nat) (ts : list (nat * Z)) : list (nat * Z) :=
  filter (fun t => t.1 <> id) ts.

Definition clearWorkerIdleTimer : M World unit :=
  modify (fun w =>
    match workerIdleTimerId w with
    | None => w
    | Some id =>
        {| sharedWorker := sharedWorker w; workerIdleTimerId := None;
           timeouts := clearTimeout id (timeouts w); nextTimeout := nextTimeout w;
           renderLimiter := renderLimiter w; trace := trace w |}
    end).

(** [workerIdleTimerId = window.setTimeout(callback, delay)]. *)
Definition armWorkerIdleTimer (delay : Z) : M World unit :=
  modify (fun w =>
    {| sharedWorker := sharedWorker w; workerIdleTimerId := Some (nextTimeout w);
       timeouts := timeouts w ++ [(nextTimeout w, delay)];
       nextTimeout := S (nextTimeout w);
       renderLimiter := renderLimiter w; trace := trace w |}).

Definition set_sharedWorker (v : option PdfWorker) : M World unit :=
  modify (fun w =>
    {| sharedWorker := v; workerIdleTimerId := workerIdleTimerId w;
       timeouts := timeouts w; nextTimeout := nextTimeout w;
       renderLimiter := renderLimiter w; trace := trace w |}).

Definition set_renderLimiter (l : Limiter.t) (w : World) : World :=
  {| sharedWorker := sharedWorker w; workerIdleTimerId := workerIdleTimerId w;
     timeouts := timeouts w; nextTimeout := nextTimeout w;
     renderLimiter := l; trace := trace w |}.

Definition getActiveCount : M World Z :=
  let* w := get in ret (Limiter.getActiveCount (renderLimiter w)).

(** Resets the idle timer that destroys the shared worker after inactivity.
    The timer is armed with [idleTimerCallback], below. *)
Definition touchWorkerIdleTimer : M World unit :=
  clearWorkerIdleTimer ;;;
  let* w := get in
  match sharedWorker w with
  | None => ret tt
  | Some _ =>
      let* active := getActiveCount in
      if 0 <? active then ret tt
      else armWorkerIdleTimer DEFAULT_WORKER_IDLE_TIMEOUT_MS
  end.

(** Cleans up and destroys the shared pdf.js worker instance. *)
Definition destroySharedWorker : M World unit :=
  clearWorkerIdleTimer ;;;
  let* w := get in
  let worker := sharedWorker w in
  set_sharedWorker None ;;;
  match worker with
  | None => ret tt
  | Some wk =>
      match worker_destroy wk with
      | Absent => ret tt
      | Method throws =>
          try_catch (emit (EvWorkerDestroy (worker_id wk)) ;;;
                     optional_call (Method throws))
                    (fun _ => ret tt)
      end
  end.

(** The function that [touchWorkerIdleTimer] hands to [window.setTimeout]. *)
Definition idleTimerCallback : M World unit :=
  let* active := getActiveCount in
  if 0 <? active then touchWorkerIdleTimer
  else destroySharedWorker.

(** The timeout [id] of [window] expires: it is no longer pending and its
    callback runs.  Nothing happens for a timeout that is not pending. *)
Definition fireTimeout (id : nat) : M World unit :=
  let* w := get in
  if bool_decide (id ∈ (timeouts w).*1) then
    modify (fun w =>
      {| sharedWorker := sharedWorker w; workerIdleTimerId := workerIdleTimerId w;
         timeouts := clearTimeout id (timeouts w); nextTimeout := nextTimeout w;
         renderLimiter := renderLimiter w; trace := trace w |}) ;;;
    idleTimerCallback
  else ret tt.

(** Attempts to create a pdf.js worker using the PDFWorker API. *)
Definition tryCreateWorker (pdfjs : PdfJs) : M World (option PdfWorker) :=
  if negb (pdfjs_isRecord pdfjs) then ret None
  else
    let pdfWorker := PDFWorker pdfjs in
    match (if factory_isRecord pdfWorker then factory_create pdfWorker else None) with
    | Some create =>
        try_catch (emit EvCreateWorker ;;; call create) (fun _ => ret None)
    | None =>
        match factory_new pdfWorker with
        | Some construct =>
            try_catch (emit EvCreateWorker ;;; call construct) (fun _ => ret None)
        | None => ret None
        end
    end.

(** Returns the shared worker instance, creating it if necessary. *)
Definition getSharedWorkerInstance (pdfjs : PdfJs) : M World (option PdfWorker) :=
  let* w := get in
  match sharedWorker w with
  | Some wk => touchWorkerIdleTimer ;;; ret (Some wk)
  | None =>
      let* worker := tryCreateWorker pdfjs in
      match worker with
      | None => ret None
      | Some wk =>
          set_sharedWorker (Some wk) ;;;
          touchWorkerIdleTimer ;;;
          ret (Some wk)
      end
  end.

(** Converts a canvas to a Blob with the specified MIME type and quality. *)
Definition canvasToBlob (env : Env) (canvas : Canvas) (mime : JSString)
    (q : option number) : M World (option Blob) :=
  emit (EvToBlob mime) ;;; call (toBlob env canvas mime q).

(** [await renderLimiter.acquire()]: the ticket of the permit once it is
    granted; the caller stays suspended while the ticket waits. *)
Definition acquireRender : M World nat :=
  fun w =>
    match Limiter.acquireOne (renderLimiter w) with
    | None => (Throw (js "invalid weight"), w)
    | Some (i, l) =>
        let w' := set_renderLimiter l w in
        if bool_decide (is_Some (Limiter.permits l !! i))
        then (emit (EvAcquire i) ;;; ret i) w'
        else (Pending, w')
    end.

(** [release()] of the permit with ticket [i]. *)
Definition releaseRender (i : nat) : M World unit :=
  fun w =>
    match Limiter.release i (renderLimiter w) with
    | None => (Throw (js "permit released twice"), w)
    | Some l => emit (EvRelease i) (set_renderLimiter l w)
    end.

(** The local variables [doc] and [page] of [renderPdfCoverThumbnail],
    beside the module's state. *)
Record Frame := {
  world : World;
  doc : option PdfDocument;
  page : option PdfPage
}.

Definition inWorld {A} (m : M World A) : M Frame A :=
  fun f =>
    let '(r, w) := m (world f) in
    (r, {| world := w; doc := doc f; page := page f |}).

Definition set_doc (d : PdfDocument) : M Frame unit :=
  modify (fun f => {| world := world f; doc := Some d; page := page f |}).

Definition set_page (p : PdfPage) : M Frame unit :=
  modify (fun f => {| world := world f; doc := doc f; page := Some p |}).

(** Runs the body of a function whose locals start as [null]. *)
Definition withLocals {A} (m : M Frame A) : M World A :=
  fun w =>
    let '(r, f) := m {| world := w; doc := None; page := None |} in
    (r, world f).

(** [(await pdfjs.getDocument(params).promise)]. *)
Definition openDocument (pdfjs : PdfJs) (params : DocumentParams) : M Frame PdfDocument :=
  inWorld (emit (EvGetDocument params)) ;;; call (getDocument pdfjs params).

(** The [try] block of [renderPdfCoverThumbnail]. *)
Definition renderPage (env : Env) (pdfFile : TFile)
    (options : PdfCoverThumbnailOptions) : M Frame (option Blob) :=
  let* pdfjs := (inWorld (emit EvLoadPdfJs) ;;; call (loadPdfJs env)) in
  let* worker := inWorld (getSharedWorkerInstance pdfjs) in
  let* url := call (getResourcePath env pdfFile) in
  let documentParams src :=
    {| source := src; disableAutoFetch := true; disableStream := true;
       worker := worker |} in
  let* d :=
    try_catch
      (openDocument pdfjs (documentParams (FromUrl url)))
      (fun _ =>
         let* buffer := (inWorld (emit (EvReadBinary (path pdfFile))) ;;;
                         call (readBinary env (path pdfFile))) in
         openDocument pdfjs (documentParams (FromData buffer))) in
  set_doc d ;;;
  let* firstPage := (inWorld (emit (EvGetPage 1)) ;;; call (getPage d 1)) in
  match firstPage with
  | NotAPage => ret None
  | Page p =>
      set_page p ;;;
      let* baseViewport := call (getViewport p num_one) in
      let scale :=
        Scale.calculateScale
          {| Scale.baseWidth := width baseViewport;
             Scale.baseHeight := height baseViewport;
             Scale.maxWidth := maxWidth options;
             Scale.maxHeight := maxHeight options |} in
      let* viewport := call (getViewport p scale) in
      let canvas :=
        {| canvas_width :=
             set_canvas_side CANVAS_DEFAULT_WIDTH (Math_max num_one (Math_ceil (width viewport)));
           canvas_height :=
             set_canvas_side CANVAS_DEFAULT_HEIGHT (Math_max num_one (Math_ceil (height viewport))) |} in
      if negb (getContext2d env canvas) then ret None
      else
        (inWorld (emit EvRender) ;;; call (render p canvas viewport)) ;;;
        let* blob := inWorld (canvasToBlob env canvas (mimeType options) (quality options)) in
        match blob with
        | Some b => ret (Some b)
        | None => inWorld (canvasToBlob env canvas (js "image/png") None)
        end
  end.

(** The [catch] block of [renderPdfCoverThumbnail]. *)
Definition renderFailed (pdfFile : TFile) (error : JSString) : M Frame (option Blob) :=
  inWorld (logOnce (js "pdf-cover:" ++ path pdfFile)) ;;; ret None.

(** The [finally] block of [renderPdfCoverThumbnail]. *)
Definition renderDone (release : nat) : M Frame unit :=
  try_catch
    (let* f := get in
     match page f with
     | None => ret tt
     | Some p =>
         match cleanup p with
         | Absent => ret tt
         | m => inWorld (emit EvPageCleanup) ;;; optional_call m
         end
     end)
    (fun _ => ret tt) ;;;
  try_catch
    (let* f := get in
     match doc f with
     | None => ret tt
     | Some d =>
         match destroy d with
         | Absent => ret tt
         | m => inWorld (emit EvDocumentDestroy) ;;; optional_call m
         end
     end)
    (fun _ => ret tt) ;;;
  inWorld (releaseRender release) ;;;
  inWorld touchWorkerIdleTimer.

(** What [renderPdfCoverThumbnail] does once [acquire()] has resolved with
    the permit [release]: the [try], [catch] and [finally] blocks.  A call
    that had to wait resumes here when its permit is granted. *)
Definition renderWithPermit (env : Env) (pdfFile : TFile)
    (options : PdfCoverThumbnailOptions) (release : nat) : M World (option Blob) :=
  withLocals
    (try_finally
       (try_catch (renderPage env pdfFile options) (renderFailed pdfFile))
       (renderDone release)).

(** Renders the first page of a PDF file as a thumbnail image blob. *)
Definition renderPdfCoverThumbnail (env : Env) (pdfFile : TFile)
    (options : PdfCoverThumbnailOptions) : M World (option Blob) :=
  if negb (str_eqb (toLowerCase env (extension pdfFile)) (js "pdf")) then ret None
  else
    let fileSize := default 0 (stat_size pdfFile) in
    if MAX_PDF_THUMBNAIL_BYTES <? fileSize then
      logOnce (js "pdf-cover:skip-size:" ++ path pdfFile) ;;; ret None
    else
      clearWorkerIdleTimer ;;;
      let* release := acquireRender in
      renderWithPermit env pdfFile options release.

(** No attempt to construct a worker through [pdfjs] gives a worker. *)
Definition worker_unavailable (pdfjs : PdfJs) : Prop :=
  forall wk,
    factory_create (PDFWorker pdfjs) <> Some (Returns (Some wk))
    /\ factory_new (PDFWorker pdfjs) <> Some (Returns (Some wk)).

(** [pdfjs] opens no document, from a URL or from bytes. *)
Definition document_unopenable (pdfjs : PdfJs) : Prop :=
  forall params, exists e, getDocument pdfjs params = Raises e.

(** [pdfjs] opens documents whose first page has viewports and raises when
    it is rendered. *)
Definition render_raises (env : Env) (pdfjs : PdfJs) : Prop :=
  (forall c, getContext2d env c = true)
  /\ forall params, exists d p,
       getDocument pdfjs params = Returns d
       /\ getPage d 1 = Returns (Page p)
       /\ (forall scale, exists v, getViewport p scale = Returns v)
       /\ (forall c v, exists e, render p c v = Raises e).

(** Calls that neither acquire nor release a permit. *)
Definition no_permit_call (evs : list Event) : Prop :=
  Forall (fun e => is_release e = false /\ is_acquire e = false) evs.

(** [quiet w w']: from [w] to [w'] the limiter was left alone, and the
    calls that were added to the trace neither acquire nor release. *)
Definition quiet (w w' : World) : Prop :=
  renderLimiter w' = renderLimiter w
  /\ exists evs, trace w' = trace w ++ evs /\ no_permit_call evs.

Definition quiet_frame (f f' : Frame) : Prop := quiet (world f) (world f').

(** Sample data: a small and a very large PDF, thumbnail options, a
    renderer that works, one whose worker cannot be constructed and one
    that can open no document. *)
Definition small_pdf : TFile :=
  {| path := js "books/a.pdf"; name := js "a.pdf"; extension := js "pdf";
     stat_mtime := 1700000000000; stat_size := Some 4096 |}.

Definition huge_pdf : TFile :=
  {| path := js "books/b.pdf"; name := js "b.pdf"; extension := js "pdf";
     stat_mtime := 1700000000000; stat_size := Some (30 * 1024 * 1024) |}.

Definition thumbnail_options : PdfCoverThumbnailOptions :=
  {| maxWidth := Scale.num_256; maxHeight := Scale.num_256;
     mimeType := js "image/webp"; quality := None |}.

Definition letter_page : PdfPage :=
  {| getViewport := fun scale =>
       Returns {| width := SFmul prec emax Scale.num_612 scale;
                  height := SFmul prec emax Scale.num_792 scale |};
     render := fun _ _ => Returns tt;
     cleanup := Method false |}.

Definition one_page_document : PdfDocument :=
  {| getPage := fun _ => Returns (Page letter_page); destroy := Method false |}.

Definition a_worker : PdfWorker := {| worker_id := 7; worker_destroy := Method false |}.

Definition working_pdfjs : PdfJs :=
  {| pdfjs_isRecord := true;
     PDFWorker := {| factory_isRecord := true;
                     factory_create := Some (Returns (Some a_worker));
                     factory_new := None |};
     getDocument := fun _ => Returns one_page_document |}.

Definition pdfjs_without_worker : PdfJs :=
  {| pdfjs_isRecord := true;
     PDFWorker := {| factory_isRecord := true;
                     factory_create := Some (Raises (js "no worker"));
                     factory_new := None |};
     getDocument := fun _ => Returns one_page_document |}.

Definition pdfjs_without_documents : PdfJs :=
  {| pdfjs_isRecord := true;
     PDFWorker := {| factory_isRecord := true;
                     factory_create := Some (Returns (Some a_worker));
                     factory_new := None |};
     getDocument := fun _ => Raises (js "InvalidPDFException") |}.

Definition platform (pdfjs : PdfJs) : Env :=
  {| toLowerCase := fun s => s;
     loadPdfJs := Returns pdfjs;
     getResourcePath := fun f => Returns (js "app://local/" ++ path f);
     readBinary := fun _ => Returns [37; 80; 68; 70]%N;
     getContext2d := fun _ => true;
     toBlob := fun _ mime _ => Returns (Some {| blob_type := mime; blob_size := 2048%N |}) |}.

(** A state with the shared worker alive, the idle timer pending and one
    render that holds a permit. *)
Definition busy_world : World :=
  {| sharedWorker := Some a_worker; workerIdleTimerId := Some 0%nat;
     timeouts := [(0%nat, DEFAULT_WORKER_IDLE_TIMEOUT_MS)]; nextTimeout := 1;
     renderLimiter := Limiter.run MAX_PARALLEL_PDF_RENDERS [Limiter.Acquire 1];
     trace := [] |}.

(** The same with no render in progress. *)
Definition idle_world : World :=
  {| sharedWorker := Some a_worker; workerIdleTimerId := Some 0%nat;
     timeouts := [(0%nat, DEFAULT_WORKER_IDLE_TIMEOUT_MS)]; nextTimeout := 1;
     renderLimiter := Limiter.run MAX_PARALLEL_PDF_RENDERS [];
     trace := [] |}.

(** The state in which the module is loaded. *)
Definition initial_world : World :=
  {| sharedWorker := None; workerIdleTimerId := None; timeouts := [];
     nextTimeout := 0;
     renderLimiter := Limiter.createRenderLimiter MAX_PARALLEL_PDF_RENDERS;
     trace := [] |}.

End Pdf.

(* ===================================================================== *)
(** * [JSON.stringify] on arrays of strings *)
(* ===================================================================== *)

Module JSON.
Import JS.

Local Open Scope N_scope.

Definition is_leading_surrogate (c : N) : bool := (55296 <=? c) && (c <=? 56319).
Definition is_trailing_surrogate (c : N) : bool := (56320 <=? c) && (c <=? 57343).

(** The lowercase hexadecimal digit of [n < 16]. *)
Definition hex_digit (n : N) : N := if n <? 10 then 48 + n else 87 + n.

(** [UnicodeEscape]: a backslash, [u] and four hexadecimal digits. *)
Definition UnicodeEscape (c : N) : JSString :=
  [92; 117; hex_digit (c / 4096); hex_digit ((c / 256) mod 16);
   hex_digit ((c / 16) mod 16); hex_digit (c mod 16)].

(** One code point that is a single code unit, as [QuoteJSONString] writes
    it: the short escapes of backspace, tab, line feed, form feed, carriage
    return, the double quote and the backslash; a [\uXXXX] escape for the
    other controls and for a surrogate on its own; the unit itself
    otherwise. *)
Definition quote_unit (c : N) : JSString :=
  if c =? 8 then [92; 98]
  else if c =? 9 then [92; 116]
  else if c =? 10 then [92; 110]
  else if c =? 12 then [92; 102]
  else if c =? 13 then [92; 114]
  else if c =? 34 then [92; 34]
  else if c =? 92 then [92; 92]
  else if (c <? 32) || is_leading_surrogate c || is_trailing_surrogate c
       then UnicodeEscape c
  else [c].

(** The code points of a string in order: a leading surrogate that is
    followed by a trailing one is a pair and is written as it is. *)
Fixpoint quote_units (s : JSString) : JSString :=
  match s with
  | [] => []
  | c :: t =>
      if is_leading_surrogate c then
        match t with
        | d :: t' =>
            if is_trailing_surrogate d then c :: d :: quote_units t'
            else quote_unit c ++ quote_units t
        | [] => quote_unit c
        end
      else quote_unit c ++ quote_units t
  end.

Definition QuoteJSONString (s : JSString) : JSString :=
  34 :: quote_units s ++ [34].

(** The elements of an array, separated by commas. *)
Fixpoint join_elements (l : list JSString) : JSString :=
  match l with
  | [] => []
  | [s] => QuoteJSONString s
  | s :: l' => QuoteJSONString s ++ 44 :: join_elements l'
  end.

(** [JSON.stringify(value)] for an array of strings. *)
Definition stringify (l : list JSString) : JSString :=
  91 :: join_elements l ++ [93].

(** Reads back one quoted string's units up to the closing quote. *)
Definition unescape (k : N) : N :=
  if k =? 98 then 8
  else if k =? 116 then 9
  else if k =? 110 then 10
  else if k =? 102 then 12
  else if k =? 114 then 13
  else k.

Definition unhex (d : N) : N := if d <? 58 then d - 48 else d - 87.

Fixpoint unquote_units (s : JSString) : option (JSString * JSString) :=
  match s with
  | [] => None
  | c :: rest =>
      if c =? 34 then Some ([], rest)
      else if c =? 92 then
        match rest with
        | [] => None
        | k :: rest1 =>
            if k =? 117 then
              match rest1 with
              | a :: b :: c' :: d :: rest2 =>
                  match unquote_units rest2 with
                  | Some (u, r) =>
                      Some (4096 * unhex a + 256 * unhex b + 16 * unhex c' + unhex d :: u, r)
                  | None => None
                  end
              | _ => None
              end
            else
              match unquote_units rest1 with
              | Some (u, r) => Some (unescape k :: u, r)
              | None => None
              end
        end
      else
        match unquote_units rest with
        | Some (u, r) => Some (c :: u, r)
        | None => None
        end
  end.

End JSON.

(* ===================================================================== *)
(** * [PreviewContentProvider] *)
(* ===================================================================== *)

Module Preview.
Import JS Obsidian.

(** The settings that [getRelevantSettings] lists. *)
Record NotebookNavigatorSettings := {
  showFilePreview : bool;
  skipHeadingsInPreview : bool;
  skipCodeBlocksInPreview : bool;
  stripHtmlInPreview : bool;
  previewProperties : list JSString
}.

(** The stored record of a file: [preview] is [None] for [null]. *)
Record FileData := {
  mtime : Z;
  preview : option JSString
}.

Definition FrontMatterCache := list (JSString * JSString).

Record CachedMetadata := { frontmatter : option FrontMatterCache }.

(** [metadata?.frontmatter]. *)
Definition frontmatter_of (metadata : option CachedMetadata) : option FrontMatterCache :=
  match metadata with
  | None => None
  | Some m => frontmatter m
  end.

(** The metadata cache, [PreviewTextUtils] and the file reader of the base
    provider, none of which is in the sources. *)
Record Env := {
  getFileCache : TFile -> option CachedMetadata;
  isExcalidrawFile : JSString -> option FrontMatterCache -> bool;
  readFileContent : TFile -> completion JSString;
  extractPreviewText :
    JSString -> NotebookNavigatorSettings -> option FrontMatterCache -> completion JSString
}.

Record Job := { file : TFile; job_path : list JSString }.

(** The update that [processFile] returns when it is not [null]. *)
Record Update := {
  update_path : JSString;
  update_preview : JSString
}.

(** [a !== b] on booleans. *)
Definition bool_ne (a b : bool) : bool := negb (Bool.eqb a b).

Definition shouldRegenerate (oldSettings newSettings : NotebookNavigatorSettings) : bool :=
  (* Clear if preview is disabled *)
  if negb (showFilePreview newSettings) && showFilePreview oldSettings then true
  (* Regenerate if preview is enabled and settings changed *)
  else if showFilePreview newSettings then
    bool_ne (showFilePreview oldSettings) (showFilePreview newSettings)
    || bool_ne (skipHeadingsInPreview oldSettings) (skipHeadingsInPreview newSettings)
    || bool_ne (skipCodeBlocksInPreview oldSettings) (skipCodeBlocksInPreview newSettings)
    || bool_ne (stripHtmlInPreview oldSettings) (stripHtmlInPreview newSettings)
    || negb (str_eqb (JSON.stringify (previewProperties oldSettings))
                     (JSON.stringify (previewProperties newSettings)))
  else false.

Definition needsProcessing (env : Env) (fileData : option FileData) (f : TFile)
    (settings : NotebookNavigatorSettings) : bool :=
  if negb (showFilePreview settings) || negb (str_eqb (extension f) (js "md")) then false
  else
    let fileModified :=
      match fileData with
      | None => false
      | Some fd => negb (mtime fd =? stat_mtime f)%Z
      end in
    let no_preview :=
      match fileData with
      | None => true
      | Some fd => match preview fd with None => true | Some _ => false end
      end in
    (* Excalidraw files use empty previews *)
    let metadata := getFileCache env f in
    if isExcalidrawFile env (name f) (frontmatter_of metadata) then
      no_preview || fileModified
    else
      no_preview || fileModified.

(** [console.error(...args)] is the only effect: the state is the
    console, the list of the values it was given, in order. *)
Definition console_error (args : list JSString) : M (list JSString) unit :=
  modify (fun console => console ++ args).

(** [fileData && fileData.preview === previewText]. *)
Definition preview_is (fileData : option FileData) (previewText : JSString) : bool :=
  match fileData with
  | None => false
  | Some fd =>
      match preview fd with
      | None => false
      | Some p => str_eqb p previewText
      end
  end.

(** [fileData && fileData.preview !== null]. *)
Definition has_preview (fileData : option FileData) : bool :=
  match fileData with
  | None => false
  | Some fd => match preview fd with None => false | Some _ => true end
  end.

(** The [try] block of [processFile]. *)
Definition generatePreview (env : Env) (job : Job) (fileData : option FileData)
    (settings : NotebookNavigatorSettings) : M (list JSString) (option Update) :=
  let metadata := getFileCache env (file job) in
  (* Skip Excalidraw files - return empty preview *)
  if isExcalidrawFile env (name (file job)) (frontmatter_of metadata) then
    ret (Some {| update_path := path (file job); update_preview := js "" |})
  else
    let* content := call (readFileContent env (file job)) in
    let* previewText := call (extractPreviewText env content settings (frontmatter_of metadata)) in
    (* Only return update if preview changed *)
    if preview_is fileData previewText then ret None
    else ret (Some {| update_path := path (file job); update_preview := previewText |}).

Definition processFile (env : Env) (job : Job) (fileData : option FileData)
    (settings : NotebookNavigatorSettings) : M (list JSString) (option Update) :=
  if negb (showFilePreview settings) || negb (str_eqb (extension (file job)) (js "md"))
  then ret None
  else
    try_catch
      (generatePreview env job fileData settings)
      (fun error =>
         console_error [js "Error generating preview for " ++ path (file job) ++ js ":";
                        error] ;;;
         (* If a preview already exists, keep it; if it was never generated,
            store an empty string to mark the file as processed. *)
         if has_preview fileData then ret None
         else ret (Some {| update_path := path (file job); update_preview := js "" |})).

(** Sample data: a note, a reader that fails, and a reader and an extractor
    that return the text they are given. *)
Definition note_md : TFile :=
  {| path := js "notes/a.md"; name := js "a.md"; extension := js "md";
     stat_mtime := 1700000000000; stat_size := Some 12 |}.

Definition note_job : Job := {| file := note_md; job_path := [js "notes"; js "a.md"] |}.

Definition preview_on : NotebookNavigatorSettings :=
  {| showFilePreview := true; skipHeadingsInPreview := true;
     skipCodeBlocksInPreview := true; stripHtmlInPreview := true;
     previewProperties := [] |}.

Definition unreadable_vault : Env :=
  {| getFileCache := fun _ => None;
     isExcalidrawFile := fun _ _ => false;
     readFileContent := fun _ => Raises (js "ENOENT");
     extractPreviewText := fun content _ _ => Returns content |}.

Definition readable_vault : Env :=
  {| getFileCache := fun _ => None;
     isExcalidrawFile := fun _ _ => false;
     readFileContent := fun _ => Returns (js "hello");
     extractPreviewText := fun content _ _ => Returns content |}.

(** A vault whose notes are all Excalidraw drawings and cannot be read. *)
Definition excalidraw_vault : Env :=
  {| getFileCache := fun _ => None;
     isExcalidrawFile := fun _ _ => true;
     readFileContent := fun _ => Raises (js "ENOENT");
     extractPreviewText := fun content _ _ => Returns content |}.

Definition preview_off : NotebookNavigatorSettings :=
  {| showFilePreview := false; skipHeadingsInPreview := true;
     skipCodeBlocksInPreview := true; stripHtmlInPreview := true;
     previewProperties := [] |}.

(** The message that [processFile] gives to [console.error] when it
    fails. *)
Definition failure_message (job : Job) : JSString :=
  js "Error generating preview for " ++ path (file job) ++ js ":".

End Preview.

(* ===================================================================== *)
(** * Further notions for the PDF cover renderer *)
(* ===================================================================== *)

Module PdfSpec.
Import JS Obsidian Pdf.

(** [keeps R m]: however [m] ends (with a value, with an error, or still
    waiting), the state it leaves is related by [R] to the one it started
    in. *)
Definition keeps {S A} (R : S -> S -> Prop) (m : M S A) : Prop :=
  forall s, R s (m s).2.

(** [adds P w w']: from [w] to [w'] the trace grew by calls that all
    satisfy [P]. *)
Definition adds (P : Event -> Prop) (w w' : World) : Prop :=
  exists evs, trace w' = trace w ++ evs /\ Forall P evs.

Definition adds_frame (P : Event -> Prop) (f f' : Frame) : Prop :=
  adds P (world f) (world f').

(** A document is opened with auto-fetch and streaming disabled, and the
    only page that is requested is the first. *)
Definition first_page_only (e : Event) : Prop :=
  match e with
  | EvGetDocument params => disableAutoFetch params = true /\ disableStream params = true
  | EvGetPage n => n = 1
  | _ => True
  end.

Definition is_read_binary (e : Event) : bool :=
  match e with EvReadBinary _ => true | _ => false end.

Definition is_get_document (e : Event) : bool :=
  match e with EvGetDocument _ => true | _ => false end.

(** Whatever pdf.js is loaded, it opens every document it is given by URL. *)
Definition url_opens (env : Env) : Prop :=
  forall pdfjs params url,
    loadPdfJs env = Returns pdfjs -> source params = FromUrl url ->
    exists d, getDocument pdfjs params = Returns d.

(** The idle timer and the timeouts of [window] agree: when the module
    holds a timer, that timer is the one pending timeout, the shared worker
    is alive and no render is active; when it holds none, no timeout is
    pending. *)
Definition timer_consistent (w : World) : Prop :=
  match workerIdleTimerId w with
  | Some t =>
      timeouts w = [(t, DEFAULT_WORKER_IDLE_TIMEOUT_MS)]
      /\ sharedWorker w <> None
      /\ Limiter.getActiveCount (renderLimiter w) <= 0
  | None => timeouts w = []
  end.

(** The part of [timer_consistent] that [touchWorkerIdleTimer] relies on:
    no timeout is pending beside the one the module holds. *)
Definition timer_shape (w : World) : Prop :=
  match workerIdleTimerId w with
  | Some t => clearTimeout t (timeouts w) = []
  | None => timeouts w = []
  end.

(** [preserves I s s']: if [I] holds in [s] then it holds in [s']. *)
Definition preserves {S} (I : S -> Prop) (s s' : S) : Prop := I s -> I s'.

Definition in_frame (I : World -> Prop) (f : Frame) : Prop := I (world f).

(** The calls of the [finally] block of [renderPdfCoverThumbnail]. *)
Definition is_finalizer (e : Event) : bool :=
  match e with
  | EvPageCleanup | EvDocumentDestroy | EvRelease _ => true
  | _ => false
  end.

Definition not_finalizer (e : Event) : Prop := is_finalizer e = false.

(** The calls that [page?.cleanup?.()] and [doc?.destroy?.()] make. *)
Definition cleanup_calls (page : option PdfPage) : list Event :=
  match page with
  | Some p => match cleanup p with Absent => [] | Method _ => [EvPageCleanup] end
  | None => []
  end.

Definition destroy_calls (doc : option PdfDocument) : list Event :=
  match doc with
  | Some d => match destroy d with Absent => [] | Method _ => [EvDocumentDestroy] end
  | None => []
  end.

(** The local variables [doc] and [page] are what they were. *)
Definition same_locals (f f' : Frame) : Prop := doc f' = doc f /\ page f' = page f.

(** The scale and the canvas that [renderPdfCoverThumbnail] computes from
    the viewports of the first page. *)
Definition thumbnail_scale (options : PdfCoverThumbnailOptions) (base : PdfViewport) : number :=
  Scale.calculateScale
    {| Scale.baseWidth := width base; Scale.baseHeight := height base;
       Scale.maxWidth := maxWidth options; Scale.maxHeight := maxHeight options |}.

Definition thumbnail_canvas (v : PdfViewport) : Canvas :=
  {| canvas_width :=
       set_canvas_side CANVAS_DEFAULT_WIDTH (Math_max num_one (Math_ceil (width v)));
     canvas_height :=
       set_canvas_side CANVAS_DEFAULT_HEIGHT (Math_max num_one (Math_ceil (height v))) |}.

(** The [try] block of [renderPdfCoverThumbnail] from [page = firstPage]
    on. *)
Definition page_to_blob (env : Env) (options : PdfCoverThumbnailOptions)
    (p : PdfPage) : M Frame (option Blob) :=
  let* baseViewport := call (getViewport p num_one) in
  let scale :=
    Scale.calculateScale
      {| Scale.baseWidth := width baseViewport;
         Scale.baseHeight := height baseViewport;
         Scale.maxWidth := maxWidth options;
         Scale.maxHeight := maxHeight options |} in
  let* viewport := call (getViewport p scale) in
  let canvas :=
    {| canvas_width :=
         set_canvas_side CANVAS_DEFAULT_WIDTH (Math_max num_one (Math_ceil (width viewport)));
       canvas_height :=
         set_canvas_side CANVAS_DEFAULT_HEIGHT (Math_max num_one (Math_ceil (height viewport))) |} in
  if negb (getContext2d env canvas) then ret None
  else
    (inWorld (emit EvRender) ;;; call (render p canvas viewport)) ;;;
    let* blob := inWorld (canvasToBlob env canvas (mimeType options) (quality options)) in
    match blob with
    | Some b => ret (Some b)
    | None => inWorld (canvasToBlob env canvas (js "image/png") None)
    end.

(** A document is opened with the worker [wk], or with none when [wk] is
    [null]. *)
Definition uses_worker (wk : option PdfWorker) (e : Event) : Prop :=
  match e with
  | EvGetDocument params => worker params = wk
  | _ => True
  end.

(** [with_worker wk w w']: from [w] to [w'] the shared worker stayed what it
    was and every document was opened with [wk]. *)
Definition with_worker (wk : option PdfWorker) (w w' : World) : Prop :=
  sharedWorker w' = sharedWorker w /\ adds (uses_worker wk) w w'.

Definition with_worker_frame (wk : option PdfWorker) (f f' : Frame) : Prop :=
  with_worker wk (world f) (world f').

(** Whatever document pdf.js opens, from a URL or from bytes, its first
    page cannot be rendered: the page is there with its viewports, a 2d
    context is available, and [render] raises. *)
Definition page_render_raises (env : Env) (pdfjs : PdfJs) : Prop :=
  forall params d,
    getDocument pdfjs params = Returns d ->
    (forall c, getContext2d env c = true)
    /\ exists p,
         getPage d 1 = Returns (Page p)
         /\ (forall scale, exists v, getViewport p scale = Returns v)
         /\ (forall c v, exists e, render p c v = Raises e).

(** The diagnostic that the [catch] block of [renderPdfCoverThumbnail]
    logs. *)
Definition failure_log (pdfFile : TFile) : Event :=
  EvLogOnce (js "pdf-cover:" ++ path pdfFile).

(** The file passes the two guards of [renderPdfCoverThumbnail]: it is a
    PDF of at most [MAX_PDF_THUMBNAIL_BYTES]. *)
Definition renderable (env : Env) (pdfFile : TFile) : Prop :=
  toLowerCase env (extension pdfFile) = js "pdf"
  /\ default 0 (stat_size pdfFile) <= MAX_PDF_THUMBNAIL_BYTES.

(** The parameters that [renderPdfCoverThumbnail] gives to [getDocument]. *)
Definition document_params (src : DocumentSource) (wk : option PdfWorker) : DocumentParams :=
  {| source := src; disableAutoFetch := true; disableStream := true; worker := wk |}.

(** The render opens the document [d], with a worker or without: pdf.js
    opens it from the URL, or pdf.js raises on the URL, the bytes of the
    file are read and pdf.js opens it from them. *)
Definition opens_document (env : Env) (pdfjs : PdfJs) (pdfFile : TFile)
    (url : JSString) (d : PdfDocument) : Prop :=
  forall wk,
    getDocument pdfjs (document_params (FromUrl url) wk) = Returns d
    \/ exists e buffer,
         getDocument pdfjs (document_params (FromUrl url) wk) = Raises e
         /\ readBinary env (path pdfFile) = Returns buffer
         /\ getDocument pdfjs (document_params (FromData buffer) wk) = Returns d.

(** Sample data: a pdf.js that cannot fetch a URL and opens a document
    from its bytes. *)
Definition pdfjs_bytes_only : PdfJs :=
  {| pdfjs_isRecord := true;
     PDFWorker := {| factory_isRecord := true;
                     factory_create := Some (Returns (Some a_worker));
                     factory_new := None |};
     getDocument := fun params =>
       match source params with
       | FromUrl _ => Raises (js "UnexpectedResponseException")
       | FromData _ => Returns one_page_document
       end |}.

(** Any call at all. *)
Definition any_call : Event -> Prop := fun _ => True.

(** [pdfjs] is a record whose [PDFWorker.create] returns the worker [wk]. *)
Definition creates_worker (pdfjs : PdfJs) (wk : PdfWorker) : Prop :=
  pdfjs_isRecord pdfjs = true
  /\ factory_isRecord (PDFWorker pdfjs) = true
  /\ factory_create (PDFWorker pdfjs) = Some (Returns (Some wk)).

(** What [completion] of [toBlob] means for the caller: a blob, or [null]
    when it raised. *)
Definition blob_or_null (r : completion (option Blob)) : option Blob :=
  match r with
  | Returns b => b
  | Raises _ => None
  end.

(** The blob that a rendered canvas is encoded to: in the requested format,
    or as PNG when the canvas gives none in that format. *)
Definition encoded (env : Env) (options : PdfCoverThumbnailOptions)
    (canvas : Canvas) : option Blob :=
  match toBlob env canvas (mimeType options) (quality options) with
  | Returns (Some b) => Some b
  | Returns None => blob_or_null (toBlob env canvas (js "image/png") None)
  | Raises _ => None
  end.

End PdfSpec.

(* ===================================================================== *)
(** * Navigation index: [normalizeNavigationPath], [getNavigationIndex],
      [setNavigationIndex] *)
(* ===================================================================== *)

Module Navigation.
Import JS.

Definition NavigationIndexKey := JSString.

Section Index.
(** [ItemType] with its member [TAG], the text of an item type in a
    template literal and [normalizeTagPath] are imported from modules that
    are not in the sources. *)
Context {ItemType : Type} `{EqDecision ItemType}.
Variable TAG : ItemType.
Variable itemTypeText : ItemType -> JSString.
Variable normalizeTagPath : JSString -> option JSString.
Variable toLowerCase : JSString -> JSString.

(** Normalizes a navigation path for index lookups. *)
Definition normalizeNavigationPath (itemType : ItemType) (path : JSString) : JSString :=
  if decide (itemType = TAG) then
    let normalized := normalizeTagPath path in
    default (toLowerCase path) normalized
  else path.

(** Creates the composite key used for navigation index lookups. *)
Definition createNavigationIndexKey (itemType : ItemType) (path : JSString)
    : NavigationIndexKey :=
  let normalizedPath := normalizeNavigationPath itemType path in
  itemTypeText itemType ++ js ":" ++ normalizedPath.

(** Looks up the index for a navigation item using its type-aware key. *)
Definition getNavigationIndex (indexMap : gmap NavigationIndexKey number)
    (itemType : ItemType) (path : JSString) : option number :=
  indexMap !! createNavigationIndexKey itemType path.

(** Stores the index for a navigation item using its type-aware key. *)
Definition setNavigationIndex (indexMap : gmap NavigationIndexKey number)
    (itemType : ItemType) (path : JSString) (index : number)
    : gmap NavigationIndexKey number :=
  <[createNavigationIndexKey itemType path := index]> indexMap.

(** The texts of the item types can be told apart in a key: no two item
    types have the same text, and no text contains a colon. *)
Definition texts_distinct : Prop :=
  (forall t t', itemTypeText t = itemTypeText t' -> t = t')
  /\ forall t, 58%N ∉ itemTypeText t.

End Index.

(** Sample data: three item types with the texts [file], [folder] and
    [tag], and tag paths that are normalized by dropping a leading [#]. *)
Inductive SampleItemType := FILE | FOLDER | TAG.

#[global] Instance SampleItemType_eq_dec : EqDecision SampleItemType.
Proof. solve_decision. Defined.

Definition sample_text (t : SampleItemType) : JSString :=
  match t with
  | FILE => js "file"
  | FOLDER => js "folder"
  | TAG => js "tag"
  end.

Definition sample_normalizeTagPath (path : JSString) : option JSString :=
  match path with
  | [] => None
  | c :: rest => if (c =? 35)%N then Some rest else Some path
  end.

End Navigation.

(* ===================================================================== *)
(** * [SaveSearchShortcutModal]: [handleSubmit] *)
(* ===================================================================== *)

Module Modal.
Import JS.

(** The code units that [String.prototype.trim] strips: WhiteSpace and
    LineTerminator. *)
Definition is_white_space (c : N) : bool :=
  existsb (N.eqb c)
    [9; 10; 11; 12; 13; 32; 160; 5760; 8232; 8233; 8239; 8287; 12288; 65279]%N
  || ((8192 <=? c)%N && (c <=? 8202)%N).

Fixpoint trimStart (s : JSString) : JSString :=
  match s with
  | [] => []
  | c :: rest => if is_white_space c then trimStart rest else s
  end.

Definition trimEnd (s : JSString) : JSString := rev (trimStart (rev s)).

(** [s.trim()]. *)
Definition trim (s : JSString) : JSString := trimEnd (trimStart s).

(** What the modal does to the outside: a notice, a call of the submit
    handler, and [this.close()]. *)
Inductive Event :=
| EvNotice (variant : JSString)
| EvSubmit (name : JSString)
| EvClose.

Record State := {
  name : JSString;
  trace : list Event
}.

Definition emit (e : Event) : M State unit :=
  modify (fun s => {| name := name s; trace := trace s ++ [e] |}).

(** The [onChange] callback of the text field. *)
Definition onChange (value : JSString) : M State unit :=
  modify (fun s => {| name := value; trace := trace s |}).

(** Validates input and calls the submit handler. *)
Definition handleSubmit (onSubmitHandler : JSString -> completion bool) : M State unit :=
  let* s := get in
  let trimmedName := trim (name s) in
  if (length trimmedName =? 0)%nat then
    emit (EvNotice (js "warning")) ;;; ret tt
  else
    let* result := (emit (EvSubmit trimmedName) ;;; call (onSubmitHandler trimmedName)) in
    if negb (Bool.eqb result false) then emit EvClose
    else ret tt.

(** What follows the call of the handler in the trace. *)
Definition after_submit (r : completion bool) : list Event :=
  match r with
  | Returns true => [EvClose]
  | _ => []
  end.

Definition submit_outcome (r : completion bool) : outcome unit :=
  match r with
  | Raises e => Throw e
  | Returns _ => Ok tt
  end.

(** Nothing but code units that [trim] strips. *)
Definition blank (s : JSString) : bool := forallb is_white_space s.

(** Sample data: a modal that holds a padded name, and one that holds
    spaces only. *)
Definition padded_modal : State := {| name := js "  my search "; trace := [] |}.
Definition blank_modal : State := {| name := js "   "; trace := [] |}.

End Modal.

(* ===================================================================== *)
(** * Properties of the weighted admission limiter *)
(* ===================================================================== *)

Section LimiterFacts.
Import Limiter.

Lemma held_weight_empty : held_weight ∅ = 0.
Proof. unfold held_weight. by rewrite map_fold_empty. Qed.

Lemma held_weight_insert (m : gmap nat Z) i w :
  m !! i = None -> held_weight (<[i := w]> m) = w + held_weight m.
Proof.
  intros Hi. unfold held_weight.
  rewrite map_fold_insert_L; [done| intros; lia | done].
Qed.

Lemma held_weight_delete (m : gmap nat Z) i w :
  m !! i = Some w -> held_weight m = w + held_weight (delete i m).
Proof.
  intros Hi. unfold held_weight.
  rewrite (map_fold_delete_L _ _ i w m); [done| intros; lia | done].
Qed.

Lemma held_weight_nonneg (m : gmap nat Z) :
  (forall i w, m !! i = Some w -> 0 < w) -> 0 <= held_weight m.
Proof.
  induction m as [|i w m Hi IH] using map_ind; intros Hpos.
  - rewrite held_weight_empty. lia.
  - rewrite held_weight_insert by done.
    assert (0 < w) by (apply (Hpos i); by rewrite lookup_insert_eq).
    assert (0 <= held_weight m); [|lia].
    apply IH. intros j v Hj. apply (Hpos j).
    rewrite lookup_insert_ne; [done|]. intros ->. congruence.
Qed.

Lemma held_weight_zero (m : gmap nat Z) :
  (forall i w, m !! i = Some w -> 0 < w) -> held_weight m <= 0 -> m = ∅.
Proof.
  induction m as [|i w m Hi IH] using map_ind; intros Hpos Hle; [done|].
  rewrite held_weight_insert in Hle by done.
  assert (0 < w) by (apply (Hpos i); by rewrite lookup_insert_eq).
  assert (0 <= held_weight m); [|lia].
  apply held_weight_nonneg. intros j v Hj. apply (Hpos j).
  rewrite lookup_insert_ne; [done|]. intros ->. congruence.
Qed.

Lemma drain_Inv q : forall b a held n,
  Inv (mk b a held q n) ->
  Inv (admitWaiters (mk b a held q n)).
Proof.
  unfold admitWaiters; simpl.
  induction q as [|[i w] q IH]; intros b a held n HI; simpl.
  - done.
  - destruct (Z.leb_spec (a + w) b) as [Hfit|Hno]; [|done].
    apply IH. destruct HI as [Hb Hs Hle Hp Hw Hn]; simpl in *.
    apply Forall_cons in Hw as [(Hw1 & Hw2 & Hw3) Hw'].
    apply NoDup_cons in Hn as [Hni Hn']. simpl in *.
    constructor; simpl.
    + done.
    + rewrite held_weight_insert by done. lia.
    + done.
    + intros j v. rewrite lookup_insert. case_decide; subst.
      * intros [= <-]. done.
      * apply Hp.
    + apply Forall_forall. intros [j v] Hj. rewrite Forall_forall in Hw'.
      destruct (Hw' _ Hj) as (? & ? & ?); simpl in *.
      split; [done|]. split; [done|].
      rewrite lookup_insert_ne; [done|]. intros ->.
      apply Hni. apply list_elem_of_fmap. by exists (j, v).
    + done.
Qed.

Lemma createRenderBudgetLimiter_Inv b : 0 < b -> Inv (createRenderBudgetLimiter b).
Proof.
  intros Hb. constructor; simpl; try done.
  - lia.
  - constructor.
Qed.

Lemma acquire_Inv w l i l' : Inv l -> acquire w l = Some (i, l') -> Inv l'.
Proof.
  intros HI. unfold acquire. destruct (Z.leb_spec w 0) as [|Hw]; [done|].
  intros [= <- <-]. apply drain_Inv.
  destruct HI as [Hb Hs Hle Hp Hq Hn]. constructor; simpl; [done..| | |].
  - intros j v Hj. destruct (Hp j v Hj). split; [done|lia].
  - apply Forall_app. split.
    + eapply Forall_impl; [exact Hq|]. simpl. intros [j v] (? & ? & ?); simpl in *.
      split; [done|]. split; [lia|done].
    + constructor; [|constructor]. simpl. unfold clamp. repeat split; try lia.
      destruct (permits l !! nextId l) as [v|] eqn:E; [|done].
      destruct (Hp _ _ E). lia.
  - rewrite fmap_app. simpl. apply NoDup_app. repeat split; [done| |apply NoDup_singleton].
    intros j Hj ->%list_elem_of_singleton.
    apply list_elem_of_fmap in Hj as ([k v] & Hk & Hjv). simpl in *.
    rewrite Forall_forall in Hq. destruct (Hq _ Hjv) as (_ & ? & _). simpl in *. lia.
Qed.

Lemma release_Inv i l l' : Inv l -> release i l = Some l' -> Inv l'.
Proof.
  intros HI. unfold release. destruct (permits l !! i) as [w|] eqn:E; [|done].
  intros [= <-]. apply drain_Inv.
  destruct HI as [Hb Hs Hle Hp Hq Hn]. constructor; simpl; [done| | | | |done].
  - rewrite (held_weight_delete _ _ _ E) in Hs. lia.
  - destruct (Hp _ _ E). lia.
  - intros j v Hj. apply lookup_delete_Some in Hj as [? Hj]. by apply Hp.
  - eapply Forall_impl; [exact Hq|]. simpl. intros [j v] (? & ? & ?); simpl in *.
    split; [done|]. split; [done|]. apply lookup_delete_None. by right.
Qed.

Lemma exec_Inv l c : Inv l -> Inv (exec l c).
Proof.
  intros HI. unfold exec. destruct (step c l) as [l'|] eqn:E; simpl; [|done].
  destruct c as [w|i]; simpl in E.
  - destruct (acquire w l) as [[j l'']|] eqn:Ea; simplify_eq/=.
    by eapply acquire_Inv.
  - by eapply release_Inv.
Qed.

Lemma run_Inv b cs : 0 < b -> Inv (run b cs).
Proof.
  intros Hb. unfold run.
  generalize (createRenderBudgetLimiter_Inv b Hb).
  generalize (createRenderBudgetLimiter b) as l.
  induction cs as [|c cs IH]; intros l HI; simpl; [done|].
  apply IH. by apply exec_Inv.
Qed.

Lemma run_budget b cs : budget (run b cs) = b.
Proof.
  unfold run.
  change b with (budget (createRenderBudgetLimiter b)) at 2.
  generalize (createRenderBudgetLimiter b) as l.
  induction cs as [|c cs IH]; intros l; simpl; [done|].
  rewrite IH. unfold exec. destruct c as [w|i]; simpl.
  - unfold acquire. destruct (w <=? 0); simpl; [done|].
    unfold admitWaiters; simpl. by destruct (drain _ _ _ _) as [[? ?] ?].
  - unfold release. destruct (permits l !! i); simpl; [|done].
    unfold admitWaiters; simpl. by destruct (drain _ _ _ _) as [[? ?] ?].
Qed.

Lemma active_count_nonneg b cs :
  0 < b -> 0 <= getActiveCount (run b cs).
Proof.
  intros Hb. destruct (run_Inv b cs Hb) as [_ Hs _ Hp _ _].
  unfold getActiveCount, getActiveWeight. rewrite Hs.
  apply held_weight_nonneg. intros i w Hi. destruct (Hp i w Hi). lia.
Qed.

(** The two unit tests of [createRenderBudgetLimiter]: a second request of
    weight 3 waits behind a held permit of weight 3 under a budget of 5, and
    an overweight request of 10 is admitted at weight 5 once the limiter is
    empty. *)
Example queues_when_budget_exceeded :
  map getActiveWeight
      [run 5 [Acquire 3]; run 5 [Acquire 3; Acquire 3];
       run 5 [Acquire 3; Acquire 3; Release 0];
       run 5 [Acquire 3; Acquire 3; Release 0; Release 1]]
  = [3; 3; 3; 0].
Proof. vm_compute. reflexivity. Qed.

Example clamps_overweight_acquisitions :
  map getActiveWeight
      [run 5 [Acquire 3]; run 5 [Acquire 3; Acquire 10];
       run 5 [Acquire 3; Acquire 10; Release 0];
       run 5 [Acquire 3; Acquire 10; Release 0; Release 1]]
  = [3; 3; 5; 0].
Proof. vm_compute. reflexivity. Qed.

(** C1. For every sequence of [acquire(weight)]/[release()] calls on a
    limiter created with budget [b], the active weight reported by
    [getActiveWeight] is never negative and never above [b].  A request
    above the budget is clamped to [b]: a permit of weight [b] is held
    alone, and the active weight is then exactly [b]. *)
Theorem active_weight_within_budget (b : Z) (cs : list call) :
  0 < b ->
  0 <= getActiveWeight (run b cs) <= b
  /\ (forall w, b < w -> clamp b w = b)
  /\ (forall i, permits (run b cs) !! i = Some b ->
        permits (run b cs) = {[ i := b ]} /\ getActiveWeight (run b cs) = b).
Proof.
  intros Hb. pose proof (run_Inv b cs Hb) as HI. pose proof (run_budget b cs) as Hbud.
  destruct HI as [_ Hs Hle Hp _ _]. rewrite Hbud in *. unfold getActiveWeight.
  assert (Hpos : forall i w, permits (run b cs) !! i = Some w -> 0 < w).
  { intros i w Hi. destruct (Hp i w Hi). lia. }
  split; [|split].
  - split; [|done]. rewrite Hs. by apply held_weight_nonneg.
  - intros w Hw. unfold clamp. lia.
  - intros i Hi. rewrite (held_weight_delete _ _ _ Hi) in Hs.
    assert (Hrest : 0 <= held_weight (delete i (permits (run b cs)))).
    { apply held_weight_nonneg. intros j v Hj.
      apply lookup_delete_Some in Hj as [_ Hj]. by eapply Hpos. }
    assert (Hempty : delete i (permits (run b cs)) = ∅).
    { apply held_weight_zero; [|lia]. intros j v Hj.
      apply lookup_delete_Some in Hj as [_ Hj]. by eapply Hpos. }
    split; [|lia].
    rewrite <- (insert_delete_id (permits (run b cs)) i b Hi), Hempty. done.
Qed.

Lemma active_weight_within_budget_witness :
  0 <= getActiveWeight (run 5 [Acquire 3; Acquire 10; Release 0]) <= 5
  /\ (forall w, 5 < w -> clamp 5 w = 5)
  /\ (forall i, permits (run 5 [Acquire 3; Acquire 10; Release 0]) !! i = Some 5 ->
        permits (run 5 [Acquire 3; Acquire 10; Release 0]) = {[ i := 5 ]}
        /\ getActiveWeight (run 5 [Acquire 3; Acquire 10; Release 0]) = 5).
Proof. apply (active_weight_within_budget 5 [Acquire 3; Acquire 10; Release 0]). lia. Defined.

Lemma admitWaiters_Drained l : Drained (admitWaiters l).
Proof.
  destruct l as [b a held q n]. unfold admitWaiters, Drained; simpl.
  revert a held. induction q as [|[i w] q IH]; intros a held; simpl; [done|].
  destruct (Z.leb_spec (a + w) b) as [Hfit|Hno]; [apply IH|]. simpl. lia.
Qed.

Lemma exec_Drained l c : Drained l -> Drained (exec l c).
Proof.
  intros HD. unfold exec. destruct c as [w|i]; simpl.
  - unfold acquire. destruct (w <=? 0); simpl; [done|]. apply admitWaiters_Drained.
  - unfold release. destruct (permits l !! i); simpl; [|done]. apply admitWaiters_Drained.
Qed.

Lemma run_Drained b cs : Drained (run b cs).
Proof.
  unfold run.
  assert (HD : Drained (createRenderBudgetLimiter b)) by done.
  revert HD. generalize (createRenderBudgetLimiter b) as l.
  induction cs as [|c cs IH]; intros l HD; simpl; [done|].
  apply IH. by apply exec_Drained.
Qed.

(** A permit of weight one that is granted at once and then released
    leaves the active weight as it was. *)
Lemma acquire_release_restores l i l1 :
  Inv l -> Drained l ->
  acquireOne l = Some (i, l1) -> is_Some (permits l1 !! i) ->
  exists l2, release i l1 = Some l2 /\ getActiveCount l2 = getActiveCount l.
Proof.
  intros [Hb Hs Hle Hp Hq Hn] HD. unfold acquireOne, acquire. simpl.
  intros [= <- <-].
  assert (Hfresh : permits l !! nextId l = None).
  { destruct (permits l !! nextId l) as [v|] eqn:E; [|done].
    destruct (Hp _ _ E). lia. }
  unfold Drained in HD. unfold admitWaiters; simpl.
  destruct (waiters l) as [|[j wj] q]; simpl.
  - destruct (Z.leb_spec (activeWeight l + clamp (budget l) 1) (budget l)); simpl.
    + intros _. unfold release; simpl. rewrite lookup_insert_eq.
      eexists. split; [reflexivity|].
      unfold admitWaiters, getActiveCount, getActiveWeight; simpl. lia.
    + rewrite Hfresh. by intros [? [=]].
  - destruct (Z.leb_spec (activeWeight l + wj) (budget l)); [lia|]. simpl.
    rewrite Hfresh. by intros [? [=]].
Qed.

End LimiterFacts.

(* ===================================================================== *)
(** * Properties of [calculateScale] *)
(* ===================================================================== *)

Section ScaleFacts.
Import JS Scale.


Lemma positive_not_negative x : num_lt num_zero x = true -> not_negative x = true.
Proof. destruct x as [[]|[]| |[] m e]; simpl; done. Qed.











(** [Math.ceil(0.5)] is 1, [Math.ceil(-0.5)] is -0, and [Math.min] and
    [Math.max] order the two zeros. *)
Example Math_ceil_half :
  Math_ceil (S754_finite false 4503599627370496 (-53)) = num_one
  /\ Math_ceil (S754_finite true 4503599627370496 (-53)) = S754_zero true.
Proof. vm_compute. split; reflexivity. Qed.

Example Math_min_max_zeros :
  Math_min (S754_zero false) (S754_zero true) = S754_zero true
  /\ Math_max (S754_zero true) (S754_zero false) = S754_zero false
  /\ Math_max num_one (S754_zero false) = num_one.
Proof. vm_compute. repeat split; reflexivity. Qed.

(** A 612 by 792 page in a 256 by 256 box is scaled by 256/792. *)
Example calculateScale_letter_page :
  calculateScale letter_page_in_box = S754_finite false 5822835881852763 (-54).
Proof. vm_compute. reflexivity. Qed.

Lemma SFcompare_finite (m1 : positive) (e1 : Z) (m2 : positive) (e2 : Z) :
  SFcompare (S754_finite false m1 e1) (S754_finite false m2 e2)
  = Some (match (e1 ?= e2) with
          | Eq => Pos.switch_Eq Eq (m1 ?= m2)%positive
          | Lt => Lt
          | Gt => Gt
          end).
Proof. cbn [SFcompare]. by rewrite Pos.compare_cont_spec. Qed.






(** C10, as stated, fails: all four dimensions of [letter_page_in_thin_box]
    are binary64 numbers above zero, and the scale is [+0], which is not
    positive, because [Number.MIN_VALUE / 612] underflows. *)
Lemma calculateScale_not_positive :
  all_positive letter_page_in_thin_box
  /\ Forall (fun x => valid_binary prec emax x = true)
       [baseWidth letter_page_in_thin_box; baseHeight letter_page_in_thin_box;
        maxWidth letter_page_in_thin_box; maxHeight letter_page_in_thin_box]
  /\ calculateScale letter_page_in_thin_box = S754_zero false
  /\ ~ (num_lt num_zero (calculateScale letter_page_in_thin_box) = true).
Proof.
  split; [|split; [|split]].
  - repeat split; vm_compute; reflexivity.
  - repeat constructor.
  - vm_compute. reflexivity.
  - vm_compute. discriminate.
Qed.




End ScaleFacts.

(* ===================================================================== *)
(** * [JSON.stringify] tells arrays of strings apart *)
(* ===================================================================== *)

Section JSONFacts.
Import JS JSON.
Local Open Scope N_scope.

Lemma unhex_hex_digit n : n < 16 -> unhex (hex_digit n) = n.
Proof.
  intros Hn. unfold unhex, hex_digit.
  destruct (N.ltb_spec n 10).
  - destruct (N.ltb_spec (48 + n) 58); lia.
  - destruct (N.ltb_spec (87 + n) 58); lia.
Qed.

Lemma unhex_UnicodeEscape c :
  c < 65536 ->
  4096 * unhex (hex_digit (c / 4096)) + 256 * unhex (hex_digit ((c / 256) mod 16))
  + 16 * unhex (hex_digit ((c / 16) mod 16)) + unhex (hex_digit (c mod 16)) = c.
Proof.
  intros Hc.
  rewrite !unhex_hex_digit; zify; Z.to_euclidean_division_equations; lia.
Qed.

Lemma surrogate_range c :
  is_leading_surrogate c || is_trailing_surrogate c = true -> 55296 <= c < 65536.
Proof.
  unfold is_leading_surrogate, is_trailing_surrogate.
  rewrite orb_true_iff, !andb_true_iff, !N.leb_le. lia.
Qed.

(** Reading one written code unit gives the unit back. *)
Lemma unquote_quote_unit (c : N) (rest : JSString) :
  unquote_units (quote_unit c ++ rest)
  = match unquote_units rest with
    | Some (u, r) => Some (c :: u, r)
    | None => None
    end.
Proof.
  unfold quote_unit.
  destruct (N.eqb_spec c 8) as [->|]; [done|].
  destruct (N.eqb_spec c 9) as [->|]; [done|].
  destruct (N.eqb_spec c 10) as [->|]; [done|].
  destruct (N.eqb_spec c 12) as [->|]; [done|].
  destruct (N.eqb_spec c 13) as [->|]; [done|].
  destruct (N.eqb_spec c 34) as [->|]; [done|].
  destruct (N.eqb_spec c 92) as [->|]; [done|].
  destruct ((c <? 32) || is_leading_surrogate c || is_trailing_surrogate c) eqn:E.
  - assert (c < 65536).
    { apply orb_true_iff in E as [E|E].
      - apply orb_true_iff in E as [E|E]; [apply N.ltb_lt in E; lia|].
        apply (surrogate_range c). by rewrite E.
      - apply (surrogate_range c). rewrite E. by rewrite orb_true_r. }
    unfold UnicodeEscape. cbn [app unquote_units].
    change (92 =? 34) with false. change (92 =? 92) with true.
    change (117 =? 117) with true. cbv iota.
    destruct (unquote_units rest) as [[u r]|]; [|done].
    by rewrite unhex_UnicodeEscape.
  - cbn [app unquote_units].
    destruct (N.eqb_spec c 34); [done|]. destruct (N.eqb_spec c 92); [done|].
    done.
Qed.

Lemma unquote_quote_units_aux n : forall s rest : JSString,
  (length s <= n)%nat ->
  unquote_units (quote_units s ++ 34 :: rest) = Some (s, rest).
Proof.
  induction n as [|n IH]; intros s rest Hlen.
  - destruct s; [done|]. simpl in Hlen. lia.
  - destruct s as [|c t]; [done|]. simpl in Hlen.
    assert (Hplain : unquote_units ((quote_unit c ++ quote_units t) ++ 34 :: rest)
                     = Some (c :: t, rest)).
    { rewrite <- app_assoc, unquote_quote_unit, IH by lia. done. }
    cbn [quote_units].
    destruct (is_leading_surrogate c) eqn:Hc; [|exact Hplain].
    destruct t as [|d t'].
    { rewrite unquote_quote_unit. done. }
    destruct (is_trailing_surrogate d) eqn:Hd; [|exact Hplain].
    simpl in Hlen. cbn [app unquote_units].
    unfold is_leading_surrogate in Hc. unfold is_trailing_surrogate in Hd.
    rewrite andb_true_iff, !N.leb_le in Hc, Hd.
    destruct (N.eqb_spec c 34); [lia|]. destruct (N.eqb_spec c 92); [lia|].
    destruct (N.eqb_spec d 34); [lia|]. destruct (N.eqb_spec d 92); [lia|].
    rewrite IH by lia. done.
Qed.

Lemma unquote_quote_units (s rest : JSString) :
  unquote_units (quote_units s ++ 34 :: rest) = Some (s, rest).
Proof. by apply (unquote_quote_units_aux (length s)). Qed.

(** Two quoted strings that start two equal texts are equal, and so are
    the remainders. *)
Lemma QuoteJSONString_inj (s1 s2 r1 r2 : JSString) :
  QuoteJSONString s1 ++ r1 = QuoteJSONString s2 ++ r2 -> s1 = s2 /\ r1 = r2.
Proof.
  unfold QuoteJSONString. simpl. rewrite <- !app_assoc. simpl.
  intros [= H].
  pose proof (unquote_quote_units s1 r1) as H1.
  rewrite H, unquote_quote_units in H1. by simplify_eq.
Qed.

Lemma join_elements_cons (s : JSString) (l : list JSString) :
  join_elements (s :: l)
  = QuoteJSONString s ++ match l with [] => [] | _ => 44 :: join_elements l end.
Proof. destruct l; simpl; [by rewrite app_nil_r|done]. Qed.

Lemma join_elements_inj (l1 : list JSString) : forall (l2 : list JSString) (r1 r2 : JSString),
  join_elements l1 ++ 93 :: r1 = join_elements l2 ++ 93 :: r2 -> l1 = l2.
Proof.
  induction l1 as [|s1 l1 IH]; intros [|s2 l2] r1 r2.
  - done.
  - rewrite join_elements_cons. simpl. discriminate.
  - rewrite join_elements_cons. simpl. discriminate.
  - rewrite !join_elements_cons, <- !app_assoc.
    intros [-> Hrest]%QuoteJSONString_inj. f_equal.
    destruct l1 as [|a l1], l2 as [|b l2]; simpl in Hrest; try done.
    injection Hrest as Hrest. by eapply IH.
Qed.

(** [JSON.stringify] is injective on arrays of strings: comparing the
    serialised texts is comparing the arrays element by element. *)
Lemma stringify_inj (l1 l2 : list JSString) : stringify l1 = stringify l2 <-> l1 = l2.
Proof.
  split; [|by intros ->]. unfold stringify. intros [= H].
  by eapply join_elements_inj.
Qed.

(** The array [["ab","c"]], and a line feed followed by a lone surrogate. *)
Example stringify_two_strings :
  stringify [js "ab"; js "c"] = [91; 34; 97; 98; 34; 44; 34; 99; 34; 93].
Proof. vm_compute. reflexivity. Qed.

Example stringify_escapes :
  stringify [[10; 55357]]
  = [91; 34; 92; 110; 92; 117; 100; 56; 51; 100; 34; 93].
Proof. vm_compute. reflexivity. Qed.

Example stringify_surrogate_pair :
  stringify [[55357; 56832]] = [91; 34; 55357; 56832; 34; 93].
Proof. vm_compute. reflexivity. Qed.

End JSONFacts.

(* ===================================================================== *)
(** * Properties of [PreviewContentProvider] *)
(* ===================================================================== *)

Section PreviewFacts.
Import JS Obsidian Preview.

Lemma bool_ne_true a b : bool_ne a b = true <-> a <> b.
Proof. destruct a, b; simpl; split; try done; intros H; by destruct H. Qed.

Lemma str_eqb_true (a b : JSString) : str_eqb a b = true <-> a = b.
Proof. unfold str_eqb. by rewrite bool_decide_eq_true. Qed.

Lemma str_eqb_false (a b : JSString) : str_eqb a b = false <-> a <> b.
Proof. unfold str_eqb. by rewrite bool_decide_eq_false. Qed.

Lemma stringify_differs (l1 l2 : list JSString) :
  negb (str_eqb (JSON.stringify l1) (JSON.stringify l2)) = true <-> l1 <> l2.
Proof. rewrite negb_true_iff, str_eqb_false. by rewrite stringify_inj. Qed.

(** C4. [shouldRegenerate(old, new)] is true exactly when the preview was
    enabled and is now disabled, or the preview is enabled in [new] and one
    of the relevant options (the enable flag, skip-headings,
    skip-code-blocks, strip-HTML, or the list of preview properties,
    compared element by element) differs; it is false otherwise. *)
Theorem shouldRegenerate_spec (oldSettings newSettings : NotebookNavigatorSettings) :
  shouldRegenerate oldSettings newSettings = true
  <-> (showFilePreview oldSettings = true /\ showFilePreview newSettings = false)
      \/ (showFilePreview newSettings = true
          /\ (showFilePreview oldSettings <> showFilePreview newSettings
              \/ skipHeadingsInPreview oldSettings <> skipHeadingsInPreview newSettings
              \/ skipCodeBlocksInPreview oldSettings <> skipCodeBlocksInPreview newSettings
              \/ stripHtmlInPreview oldSettings <> stripHtmlInPreview newSettings
              \/ previewProperties oldSettings <> previewProperties newSettings)).
Proof.
  unfold shouldRegenerate.
  destruct (showFilePreview newSettings) eqn:Hn; simpl.
  - rewrite !orb_true_iff, !bool_ne_true, stringify_differs.
    split.
    + intros H. right. split; [done|]. tauto.
    + intros [[_ [=]]|[_ H]]. tauto.
  - destruct (showFilePreview oldSettings) eqn:Ho; simpl.
    + split; [intros _; by left|done].
    + split; [done|]. intros [[[=] _]|[[=] _]].
Qed.

(** C5. [needsProcessing] is false when the preview is disabled or the file
    is not a Markdown file; otherwise it is true exactly when no record
    exists, or the stored preview is null, or the file's modification time
    differs from the one stored in the record. *)
Theorem needsProcessing_spec (env : Env) (fileData : option FileData) (f : TFile)
    (settings : NotebookNavigatorSettings) :
  (showFilePreview settings = false \/ extension f <> js "md" ->
     needsProcessing env fileData f settings = false)
  /\ (showFilePreview settings = true /\ extension f = js "md" ->
       (needsProcessing env fileData f settings = true
        <-> fileData = None
            \/ (exists fd, fileData = Some fd /\ preview fd = None)
            \/ (exists fd, fileData = Some fd /\ mtime fd <> stat_mtime f))).
Proof.
  unfold needsProcessing. split.
  - intros [->| ->%str_eqb_false]; [done|]. by rewrite orb_true_r.
  - intros [-> ->%str_eqb_true]. simpl.
    assert (Hboth : forall (b x : bool), (if b then x else x) = x) by (by intros []).
    rewrite Hboth. clear Hboth.
    destruct fileData as [fd|]; simpl.
    + rewrite orb_true_iff, negb_true_iff, Z.eqb_neq. split.
      * intros [H|H].
        -- right. left. exists fd. split; [done|]. by destruct (preview fd).
        -- right. right. by exists fd.
      * intros [[=]|[(fd' & [= <-] & H)|(fd' & [= <-] & H)]].
        -- left. by rewrite H.
        -- by right.
    + split; [by left|done].
Qed.

Lemma needsProcessing_spec_witness :
  needsProcessing readable_vault None note_md preview_on = true.
Proof.
  apply (proj2 (needsProcessing_spec readable_vault None note_md preview_on)).
  - split; reflexivity.
  - by left.
Defined.

(** The update that marks a file as processed: an empty preview. *)
Lemma processFile_enabled (env : Env) (job : Job) (fileData : option FileData)
    (settings : NotebookNavigatorSettings) :
  showFilePreview settings = true -> extension (file job) = js "md" ->
  processFile env job fileData settings
  = try_catch
      (generatePreview env job fileData settings)
      (fun error =>
         console_error [js "Error generating preview for " ++ path (file job) ++ js ":";
                        error] ;;;
         if has_preview fileData then ret None
         else ret (Some {| update_path := path (file job); update_preview := js "" |})).
Proof.
  intros Hs He. unfold processFile. rewrite Hs.
  by rewrite (proj2 (str_eqb_true _ _) He).
Qed.

(** C3. When reading or extracting fails inside [processFile]: with a
    stored preview that is not null the result is [null]; with no record or
    a null stored preview the result is an update whose preview is the empty
    string, and a failed attempt on a record that holds this preview
    returns [null] again. *)
Theorem processFile_failure (env : Env) (job : Job) (fileData : option FileData)
    (settings : NotebookNavigatorSettings) (console : list JSString)
    (e : JSString) (console' : list JSString) :
  showFilePreview settings = true ->
  extension (file job) = js "md" ->
  generatePreview env job fileData settings console = (Throw e, console') ->
  ((exists fd p, fileData = Some fd /\ preview fd = Some p) ->
     (processFile env job fileData settings console).1 = Ok None)
  /\ (fileData = None \/ (exists fd, fileData = Some fd /\ preview fd = None) ->
       exists u,
         (processFile env job fileData settings console).1 = Ok (Some u)
         /\ update_path u = path (file job)
         /\ update_preview u = js ""
         /\ forall fd2 console2 e2 console2',
              preview fd2 = Some (update_preview u) ->
              generatePreview env job (Some fd2) settings console2 = (Throw e2, console2') ->
              (processFile env job (Some fd2) settings console2).1 = Ok None).
Proof.
  intros Hs He Hfail. rewrite !processFile_enabled by done. split.
  - intros (fd & p & -> & Hp). unfold try_catch. rewrite Hfail.
    unfold has_preview. rewrite Hp. done.
  - intros Hnone.
    assert (Hno : has_preview fileData = false).
    { destruct Hnone as [->|(fd & -> & Hp)]; [done|]. unfold has_preview. by rewrite Hp. }
    eexists. unfold try_catch at 1. rewrite Hfail, Hno. simpl.
    split; [reflexivity|]. split; [reflexivity|]. split; [reflexivity|].
    intros fd2 console2 e2 console2' Hp2 Hfail2.
    rewrite processFile_enabled by done. unfold try_catch. rewrite Hfail2.
    unfold has_preview. rewrite Hp2. done.
Qed.

Lemma processFile_failure_witness :
  exists u,
    (processFile unreadable_vault note_job None preview_on []).1 = Ok (Some u)
    /\ update_preview u = js ""
    /\ (processFile unreadable_vault note_job
          (Some {| mtime := 0; preview := Some (update_preview u) |}) preview_on []).1
       = Ok None.
Proof.
  destruct (proj2 (processFile_failure unreadable_vault note_job None preview_on []
                     (js "ENOENT") [] eq_refl eq_refl eq_refl) (or_introl eq_refl))
    as (u & Hu & _ & Hempty & Hagain).
  exists u. split; [exact Hu|]. split; [exact Hempty|].
  apply (Hagain {| mtime := 0; preview := Some (update_preview u) |} [] (js "ENOENT") []);
    reflexivity.
Defined.

(** C6. When the note is read and its preview text extracted, [processFile]
    returns [null] exactly when a record exists whose stored preview equals
    the computed text; otherwise (no record, or a stored preview that is
    null or different) it returns the update that carries the computed
    text.  Nothing is written to the console. *)
Theorem processFile_unchanged (env : Env) (job : Job) (fileData : option FileData)
    (settings : NotebookNavigatorSettings) (console : list JSString)
    (content previewText : JSString) :
  showFilePreview settings = true ->
  extension (file job) = js "md" ->
  isExcalidrawFile env (name (file job)) (frontmatter_of (getFileCache env (file job))) = false ->
  readFileContent env (file job) = Returns content ->
  extractPreviewText env content settings (frontmatter_of (getFileCache env (file job)))
    = Returns previewText ->
  ((exists fd, fileData = Some fd /\ preview fd = Some previewText) ->
     processFile env job fileData settings console = (Ok None, console))
  /\ (fileData = None \/ (exists fd, fileData = Some fd /\ preview fd <> Some previewText) ->
       processFile env job fileData settings console
       = (Ok (Some {| update_path := path (file job); update_preview := previewText |}),
          console))
  /\ ((processFile env job fileData settings console).1 = Ok None
       <-> exists fd, fileData = Some fd /\ preview fd = Some previewText).
Proof.
  intros Hs He Hx Hr Ht. rewrite !processFile_enabled by done.
  assert (Hrun : forall b, preview_is fileData previewText = b ->
    try_catch (generatePreview env job fileData settings)
      (fun error =>
         console_error [js "Error generating preview for " ++ path (file job) ++ js ":";
                        error] ;;;
         if has_preview fileData then ret None
         else ret (Some {| update_path := path (file job); update_preview := js "" |}))
      console
    = (if b then Ok None
       else Ok (Some {| update_path := path (file job); update_preview := previewText |}),
       console)).
  { intros b Hb. unfold try_catch, generatePreview. rewrite Hx.
    unfold bind, call. rewrite Hr, Ht, Hb. by destruct b. }
  assert (Hsame : preview_is fileData previewText = true
                  <-> exists fd, fileData = Some fd /\ preview fd = Some previewText).
  { unfold preview_is. destruct fileData as [fd|].
    - destruct (preview fd) as [p|] eqn:Hp.
      + rewrite str_eqb_true. split.
        * intros ->. by exists fd.
        * intros (fd' & [= <-] & H). congruence.
      + split; [done|]. intros (fd' & [= <-] & H). congruence.
    - split; [done|]. by intros (fd' & [=] & _). }
  split; [|split].
  - intros H. apply Hsame in H. by rewrite (Hrun true).
  - intros H. rewrite (Hrun false); [done|].
    apply not_true_is_false. rewrite Hsame.
    intros (fd & Hfd & Hp). destruct H as [->|(fd' & -> & Hne)]; [done|].
    by simplify_eq.
  - rewrite <- Hsame. destruct (preview_is fileData previewText) eqn:Hb.
    + by rewrite (Hrun true).
    + rewrite (Hrun false) by done. simpl. split; done.
Qed.

Lemma processFile_unchanged_witness :
  processFile readable_vault note_job
    (Some {| mtime := 0; preview := Some (js "hello") |}) preview_on []
  = (Ok None, [])
  /\ processFile readable_vault note_job None preview_on []
     = (Ok (Some {| update_path := path note_md; update_preview := js "hello" |}), []).
Proof.
  pose proof (processFile_unchanged readable_vault note_job
                (Some {| mtime := 0; preview := Some (js "hello") |}) preview_on []
                (js "hello") (js "hello") eq_refl eq_refl eq_refl eq_refl eq_refl) as H1.
  pose proof (processFile_unchanged readable_vault note_job None preview_on []
                (js "hello") (js "hello") eq_refl eq_refl eq_refl eq_refl eq_refl) as H2.
  split.
  - apply (proj1 H1). eexists. split; reflexivity.
  - apply (proj1 (proj2 H2)). by left.
Defined.

End PreviewFacts.

(* ===================================================================== *)
(** * Reasoning about code with effects *)
(* ===================================================================== *)

Section EffectFacts.
Import JS.
Context {S : Type} (R : S -> S -> Prop) `{!PreOrder R}.

Lemma returns_ends {A} (m : M S A) : returns R m -> ends R m.
Proof. intros H s. destruct (H s) as (a & s' & -> & HR). by exists (Ok a), s'. Qed.

Lemma returns_ret {A} (a : A) : returns R (ret a).
Proof. intros s. by exists a, s. Qed.

Lemma returns_get : returns R get.
Proof. intros s. by exists s, s. Qed.

Lemma returns_modify (f : S -> S) : (forall s, R s (f s)) -> returns R (modify f).
Proof. intros Hf s. exists tt, (f s). split; [done|apply Hf]. Qed.

Lemma ends_call {A} (r : completion A) : ends R (call r).
Proof. intros s. destruct r as [a|e]; eexists _, s; simpl; split; done. Qed.

Lemma returns_bind {A B} (m : M S A) (k : A -> M S B) :
  returns R m -> (forall a, returns R (k a)) -> returns R (bind m k).
Proof.
  intros Hm Hk s. unfold bind. destruct (Hm s) as (a & s1 & -> & H1).
  destruct (Hk a s1) as (b & s2 & -> & H2). exists b, s2. split; [done|by etrans].
Qed.

Lemma ends_bind {A B} (m : M S A) (k : A -> M S B) :
  ends R m -> (forall a, ends R (k a)) -> ends R (bind m k).
Proof.
  intros Hm Hk s. unfold bind. destruct (Hm s) as (r & s1 & -> & Hr & H1).
  destruct r as [a|e|]; [|by exists (Throw e), s1|done].
  destruct (Hk a s1) as (r2 & s2 & -> & Hr2 & H2). exists r2, s2.
  split; [done|]. split; [done|by etrans].
Qed.

Lemma ends_try_catch {A} (m : M S A) (h : JSString -> M S A) :
  ends R m -> (forall e, ends R (h e)) -> ends R (try_catch m h).
Proof.
  intros Hm Hh s. unfold try_catch. destruct (Hm s) as (r & s1 & -> & Hr & H1).
  destruct r as [a|e|]; [by exists (Ok a), s1| |done].
  destruct (Hh e s1) as (r2 & s2 & -> & Hr2 & H2). exists r2, s2.
  split; [done|]. split; [done|by etrans].
Qed.

Lemma returns_try_catch {A} (m : M S A) (h : JSString -> M S A) :
  ends R m -> (forall e, returns R (h e)) -> returns R (try_catch m h).
Proof.
  intros Hm Hh s. unfold try_catch. destruct (Hm s) as (r & s1 & -> & Hr & H1).
  destruct r as [a|e|]; [by exists a, s1| |done].
  destruct (Hh e s1) as (b & s2 & -> & H2). exists b, s2. split; [done|by etrans].
Qed.

End EffectFacts.

Section StepFacts.
Import JS.
Context {S : Type}.

Lemma bind_ok {A B} (m : M S A) (k : A -> M S B) s a s' :
  m s = (Ok a, s') -> bind m k s = k a s'.
Proof. intros H. unfold bind. by rewrite H. Qed.

Lemma bind_throw {A B} (m : M S A) (k : A -> M S B) s e s' :
  m s = (Throw e, s') -> bind m k s = (Throw e, s').
Proof. intros H. unfold bind. by rewrite H. Qed.

Lemma try_catch_ok {A} (m : M S A) (h : JSString -> M S A) s a s' :
  m s = (Ok a, s') -> try_catch m h s = (Ok a, s').
Proof. intros H. unfold try_catch. by rewrite H. Qed.

Lemma try_catch_throw {A} (m : M S A) (h : JSString -> M S A) s e s' :
  m s = (Throw e, s') -> try_catch m h s = h e s'.
Proof. intros H. unfold try_catch. by rewrite H. Qed.

Lemma bind_cong {A B} (m1 m2 : M S A) (k : A -> M S B) s1 s2 :
  m1 s1 = m2 s2 -> bind m1 k s1 = bind m2 k s2.
Proof. intros H. unfold bind. by rewrite H. Qed.

Lemma call_returns {A} (r : completion A) (a : A) (s : S) :
  r = Returns a -> call r s = (Ok a, s).
Proof. by intros ->. Qed.

Lemma call_raises {A} (r : completion A) e (s : S) :
  r = Raises e -> call r s = (Throw e, s).
Proof. by intros ->. Qed.

End StepFacts.

(* ===================================================================== *)
(** * Properties of the PDF cover renderer *)
(* ===================================================================== *)

#[global] Instance quiet_preorder : PreOrder Pdf.quiet.
Proof.
  split.
  - intros w. split; [done|]. exists []. rewrite app_nil_r. split; [done|constructor].
  - intros w1 w2 w3 [Hl1 (e1 & Ht1 & Hf1)] [Hl2 (e2 & Ht2 & Hf2)]. split; [congruence|].
    exists (e1 ++ e2). rewrite Ht2, Ht1, app_assoc. split; [done|].
    unfold Pdf.no_permit_call in *. by apply Forall_app.
Qed.

#[global] Instance quiet_frame_preorder : PreOrder Pdf.quiet_frame.
Proof.
  split.
  - intros f. unfold Pdf.quiet_frame. reflexivity.
  - intros f1 f2 f3. unfold Pdf.quiet_frame. apply transitivity.
Qed.

Section PdfFacts.
Import JS Obsidian Pdf.

Lemma returns_emit e :
  is_release e = false -> is_acquire e = false -> returns quiet (emit e).
Proof.
  intros Hr Ha. apply returns_modify. intros w. split; [done|]. simpl.
  exists [e]. split; [done|]. by repeat constructor.
Qed.

Lemma quiet_same_trace (w w' : World) :
  renderLimiter w' = renderLimiter w -> trace w' = trace w -> quiet w w'.
Proof.
  intros Hl Ht. split; [done|]. exists []. rewrite app_nil_r. split; [done|constructor].
Qed.

Lemma returns_clearWorkerIdleTimer : returns quiet clearWorkerIdleTimer.
Proof.
  apply returns_modify. intros w. apply quiet_same_trace; by destruct (workerIdleTimerId w).
Qed.

Lemma returns_armWorkerIdleTimer d : returns quiet (armWorkerIdleTimer d).
Proof. apply returns_modify. intros w. by apply quiet_same_trace. Qed.

Lemma returns_set_sharedWorker v : returns quiet (set_sharedWorker v).
Proof. apply returns_modify. intros w. by apply quiet_same_trace. Qed.

Lemma returns_inWorld {A} (m : M World A) :
  returns quiet m -> returns quiet_frame (inWorld m).
Proof.
  intros Hm f. unfold inWorld. destruct (Hm (world f)) as (a & w' & -> & Hq).
  by eexists _, _.
Qed.

Lemma ends_inWorld {A} (m : M World A) :
  ends quiet m -> ends quiet_frame (inWorld m).
Proof.
  intros Hm f. unfold inWorld. destruct (Hm (world f)) as (r & w' & -> & Hr & Hq).
  by eexists _, _.
Qed.

Lemma returns_set_doc d : returns quiet_frame (set_doc d).
Proof. apply returns_modify. intros f. unfold quiet_frame. simpl. reflexivity. Qed.

Lemma returns_set_page p : returns quiet_frame (set_page p).
Proof. apply returns_modify. intros f. unfold quiet_frame. simpl. reflexivity. Qed.

(** Walks through straight-line code, one statement at a time. *)
Ltac effects_using known :=
  repeat first
    [ known
    | apply returns_clearWorkerIdleTimer | apply returns_armWorkerIdleTimer
    | apply returns_set_sharedWorker | apply returns_set_doc | apply returns_set_page
    | apply returns_emit; reflexivity
    | apply returns_inWorld | apply ends_inWorld
    | match goal with
      | |- returns ?R (ret _) => apply (returns_ret R)
      | |- returns ?R get => apply (returns_get R)
      | |- ends ?R (call _) => apply (ends_call R)
      | |- returns ?R (bind _ _) => apply (returns_bind R); [|intros ?]
      | |- ends ?R (bind _ _) => apply (ends_bind R); [|intros ?]
      | |- returns ?R (try_catch _ _) => apply (returns_try_catch R); [|intros ?]
      | |- ends ?R (try_catch _ _) => apply (ends_try_catch R); [|intros ?]
      | |- returns _ (match ?x with _ => _ end) => destruct x
      | |- ends _ (match ?x with _ => _ end) => destruct x
      | |- returns _ (if ?x then _ else _) => destruct x
      | |- ends _ (if ?x then _ else _) => destruct x
      end
    | apply returns_ends ].

Ltac effects := effects_using fail.

Lemma returns_getActiveCount : returns quiet getActiveCount.
Proof. unfold getActiveCount. effects. Qed.

Lemma returns_touchWorkerIdleTimer : returns quiet touchWorkerIdleTimer.
Proof. unfold touchWorkerIdleTimer. effects_using ltac:(apply returns_getActiveCount). Qed.

Lemma returns_destroySharedWorker : returns quiet destroySharedWorker.
Proof. unfold destroySharedWorker, optional_call. effects. Qed.

Lemma returns_tryCreateWorker pdfjs : returns quiet (tryCreateWorker pdfjs).
Proof. unfold tryCreateWorker. effects. Qed.

Lemma returns_getSharedWorkerInstance pdfjs : returns quiet (getSharedWorkerInstance pdfjs).
Proof.
  unfold getSharedWorkerInstance.
  effects_using ltac:(first [apply returns_touchWorkerIdleTimer | apply returns_tryCreateWorker]).
Qed.

Lemma ends_canvasToBlob env canvas mime q : ends quiet (canvasToBlob env canvas mime q).
Proof. unfold canvasToBlob. effects. Qed.

Lemma ends_renderPage env pdfFile options : ends quiet_frame (renderPage env pdfFile options).
Proof.
  unfold renderPage, openDocument. cbv zeta.
  effects_using ltac:(first [apply returns_getSharedWorkerInstance | apply ends_canvasToBlob]).
Qed.

Lemma ends_page_to_blob env options p :
  ends quiet_frame (PdfSpec.page_to_blob env options p).
Proof.
  unfold PdfSpec.page_to_blob. cbv zeta.
  effects_using ltac:(apply ends_canvasToBlob).
Qed.

Lemma returns_renderFailed pdfFile e : returns quiet_frame (renderFailed pdfFile e).
Proof. unfold renderFailed, logOnce. effects. Qed.

Lemma returns_guarded env pdfFile options :
  returns quiet_frame
    (try_catch (renderPage env pdfFile options) (renderFailed pdfFile)).
Proof.
  apply (returns_try_catch quiet_frame);
    [apply ends_renderPage | intros e; apply returns_renderFailed].
Qed.

Lemma returns_page_cleanup :
  returns quiet_frame
    (try_catch
       (let* f := get in
        match page f with
        | None => ret tt
        | Some p =>
            match cleanup p with
            | Absent => ret tt
            | m => inWorld (emit EvPageCleanup) ;;; optional_call m
            end
        end)
       (fun _ => ret tt)).
Proof. unfold optional_call. effects. Qed.

Lemma returns_document_destroy :
  returns quiet_frame
    (try_catch
       (let* f := get in
        match doc f with
        | None => ret tt
        | Some d =>
            match destroy d with
            | Absent => ret tt
            | m => inWorld (emit EvDocumentDestroy) ;;; optional_call m
            end
        end)
       (fun _ => ret tt)).
Proof. unfold optional_call. effects. Qed.

(** The [finally] block releases the permit it is given, once. *)
Lemma renderDone_releases i f :
  is_Some (Limiter.permits (renderLimiter (world f)) !! i) ->
  exists f' l2 before after,
    renderDone i f = (Ok tt, f')
    /\ Limiter.release i (renderLimiter (world f)) = Some l2
    /\ renderLimiter (world f') = l2
    /\ trace (world f') = trace (world f) ++ before ++ EvRelease i :: after
    /\ no_permit_call before /\ no_permit_call after.
Proof.
  intros Hheld. unfold renderDone.
  destruct (returns_page_cleanup f) as ([] & f1 & E1 & [Hl1 (ev1 & Ht1 & Hf1)]).
  destruct (returns_document_destroy f1) as ([] & f2 & E2 & [Hl2 (ev2 & Ht2 & Hf2)]).
  assert (Hheld2 : is_Some (Limiter.permits (renderLimiter (world f2)) !! i))
    by (by rewrite Hl2, Hl1).
  destruct Hheld2 as [wt Hwt].
  assert (Hrel : exists l2, Limiter.release i (renderLimiter (world f2)) = Some l2).
  { unfold Limiter.release. rewrite Hwt. by eexists. }
  destruct Hrel as [l2 Hrel].
  pose (w3 := (emit (EvRelease i) (set_renderLimiter l2 (world f2))).2).
  destruct (returns_touchWorkerIdleTimer w3) as ([] & w4 & E4 & [Hl4 (ev4 & Ht4 & Hf4)]).
  exists {| world := w4; doc := doc f2; page := page f2 |}, l2, (ev1 ++ ev2), ev4.
  split.
  { unfold bind at 1. rewrite E1. unfold bind at 1. rewrite E2.
    unfold bind at 1. unfold inWorld at 1. unfold releaseRender. rewrite Hrel.
    simpl. unfold inWorld. simpl. unfold w3 in E4. simpl in E4. by rewrite E4. }
  split; [by rewrite <- Hl1, <- Hl2|].
  split; [simpl; by rewrite Hl4|].
  split.
  { simpl. rewrite Ht4. subst w3. simpl. rewrite Ht2, Ht1.
    by rewrite <- !app_assoc. }
  split; [unfold no_permit_call in *; by apply Forall_app|done].
Qed.

(** The guarded part of [renderPdfCoverThumbnail], entered with the permit
    [i]: it returns a blob or [null], never raises, releases the permit
    once and leaves the limiter as [release] does; when the [try] block
    raises, the result is [null]. *)
Lemma render_with_permit env pdfFile options i w1 :
  is_Some (Limiter.permits (renderLimiter w1) !! i) ->
  exists b w2 l2 before after,
    renderWithPermit env pdfFile options i w1 = (Ok b, w2)
    /\ Limiter.release i (renderLimiter w1) = Some l2
    /\ renderLimiter w2 = l2
    /\ trace w2 = trace w1 ++ before ++ EvRelease i :: after
    /\ no_permit_call before /\ no_permit_call after
    /\ (forall e f', renderPage env pdfFile options
                       {| world := w1; doc := None; page := None |} = (Throw e, f') ->
                     b = None).
Proof.
  intros Hheld. unfold renderWithPermit, withLocals, try_finally.
  set (f1 := {| world := w1; doc := None; page := None |}).
  destruct (returns_guarded env pdfFile options f1) as (b & f2 & E & [Hl (ev & Ht & Hf)]).
  assert (Hheld2 : is_Some (Limiter.permits (renderLimiter (world f2)) !! i))
    by (by rewrite Hl).
  destruct (renderDone_releases i f2 Hheld2)
    as (f3 & l2 & before & after & E3 & Hrel & Hl3 & Ht3 & Hb & Ha).
  exists b, (world f3), l2, (ev ++ before), after.
  rewrite E, E3. split; [done|]. split; [by rewrite Hl in Hrel|]. split; [done|].
  split; [rewrite Ht3, Ht; by rewrite <- !app_assoc|].
  split; [unfold no_permit_call in *; by apply Forall_app|]. split; [done|].
  intros e f' Hthrow. unfold try_catch in E. rewrite Hthrow in E.
  unfold renderFailed, logOnce in E. simpl in E. by injection E as <- _.
Qed.

Lemma filter_no_permit_call evs :
  no_permit_call evs -> List.filter is_release evs = [].
Proof.
  induction 1 as [|e evs [He _] _ IH]; simpl; [done|]. by rewrite He.
Qed.

Lemma no_permit_call_acquire i evs : no_permit_call evs -> EvAcquire i ∉ evs.
Proof.
  intros H Hin. unfold no_permit_call in H. rewrite Forall_forall in H.
  by destruct (H _ Hin) as [_ [=]].
Qed.

Lemma MAX_PARALLEL_PDF_RENDERS_positive : 0 < MAX_PARALLEL_PDF_RENDERS.
Proof. done. Qed.

(** C7. When a call of [renderPdfCoverThumbnail] is granted a permit, it
    completes with a value, and between the acquisition and the end of the
    call [release] is invoked exactly once, for that permit, whatever the
    outcome of loading, opening and rendering; with no other call in
    between, the limiter's active count is then what it was before.  A call
    that waited and resumes with its permit likewise returns a value and
    releases that permit exactly once. *)
Theorem release_exactly_once (env : Env) (pdfFile : TFile)
    (options : PdfCoverThumbnailOptions) :
  (forall (w : World) (cs : list Limiter.call),
     renderLimiter w = Limiter.run MAX_PARALLEL_PDF_RENDERS cs ->
     exists evs,
       trace (renderPdfCoverThumbnail env pdfFile options w).2 = trace w ++ evs
       /\ forall i, EvAcquire i ∈ evs ->
            (exists b, (renderPdfCoverThumbnail env pdfFile options w).1 = Ok b)
            /\ (exists before after,
                  evs = EvAcquire i :: before ++ EvRelease i :: after
                  /\ no_permit_call before /\ no_permit_call after)
            /\ length (List.filter is_release evs) = 1%nat
            /\ Limiter.getActiveCount
                 (renderLimiter (renderPdfCoverThumbnail env pdfFile options w).2)
               = Limiter.getActiveCount (renderLimiter w))
  /\ (forall (i : nat) (w1 : World),
        is_Some (Limiter.permits (renderLimiter w1) !! i) ->
        exists b before after,
          (renderWithPermit env pdfFile options i w1).1 = Ok b
          /\ trace (renderWithPermit env pdfFile options i w1).2
             = trace w1 ++ before ++ EvRelease i :: after
          /\ no_permit_call before /\ no_permit_call after
          /\ Limiter.release i (renderLimiter w1)
             = Some (renderLimiter (renderWithPermit env pdfFile options i w1).2)).
Proof.
  split.
  2:{ intros i w1 Hheld.
      destruct (render_with_permit env pdfFile options i w1 Hheld)
        as (b & w2 & l2 & before & after & E & Hrel & Hl2 & Ht2 & Hb & Ha & _).
      exists b, before, after. rewrite E. simpl. by rewrite Hl2. }
  intros w cs Hreach.
  destruct (renderPdfCoverThumbnail env pdfFile options w) as [r w'] eqn:Hrun.
  cbn [fst snd]. unfold renderPdfCoverThumbnail in Hrun.
  destruct (negb (str_eqb _ _)).
  { injection Hrun as <- <-. exists []. rewrite app_nil_r. split; [done|].
    by intros i ?%elem_of_nil. }
  destruct (_ <? _).
  { injection Hrun as <- <-. eexists [_]. split; [reflexivity|].
    intros i Hi%list_elem_of_singleton. discriminate. }
  set (w0 := (clearWorkerIdleTimer w).2) in *.
  assert (Hl0 : renderLimiter w0 = renderLimiter w)
    by (subst w0; simpl; by destruct (workerIdleTimerId w)).
  assert (Ht0 : trace w0 = trace w)
    by (subst w0; simpl; by destruct (workerIdleTimerId w)).
  unfold bind at 1 in Hrun. change (clearWorkerIdleTimer w) with (Ok tt, w0) in Hrun.
  unfold bind at 1 in Hrun. unfold acquireRender at 1 in Hrun.
  unfold Limiter.acquireOne, Limiter.acquire in Hrun.
  change (1 <=? 0) with false in Hrun. cbv iota in Hrun.
  set (i := Limiter.nextId (renderLimiter w0)) in *.
  set (l1 := Limiter.admitWaiters _) in *.
  destruct (bool_decide (is_Some (Limiter.permits l1 !! i))) eqn:Hadm.
  2:{ injection Hrun as <- <-. exists []. simpl. rewrite app_nil_r. split; [done|].
      by intros j ?%elem_of_nil. }
  apply bool_decide_eq_true in Hadm.
  set (w1 := (emit (EvAcquire i) (set_renderLimiter l1 w0)).2) in *.
  change ((emit (EvAcquire i);;; ret i) (set_renderLimiter l1 w0)) with (Ok i, w1) in Hrun.
  cbv iota beta in Hrun.
  destruct (render_with_permit env pdfFile options i w1 Hadm)
    as (b & w2 & l2 & before & after & E & Hrel & Hl2 & Ht2 & Hb & Ha & _).
  rewrite E in Hrun. injection Hrun as <- <-.
  exists (EvAcquire i :: before ++ EvRelease i :: after).
  split.
  { rewrite Ht2. subst w1. simpl. rewrite Ht0. by rewrite <- app_assoc. }
  intros j Hj.
  assert (j = i) as ->.
  { apply elem_of_cons in Hj as [[= ->]|Hj]; [done|].
    apply elem_of_app in Hj as [Hj|Hj]; [by apply no_permit_call_acquire in Hj|].
    apply elem_of_cons in Hj as [[=]|Hj]. by apply no_permit_call_acquire in Hj. }
  split; [by exists b|]. split; [by exists before, after|]. split.
  { simpl. rewrite List.filter_app. simpl.
    by rewrite !filter_no_permit_call. }
  assert (HI : Limiter.Inv (renderLimiter w0)).
  { rewrite Hl0, Hreach. apply run_Inv, MAX_PARALLEL_PDF_RENDERS_positive. }
  assert (HD : Limiter.Drained (renderLimiter w0)).
  { rewrite Hl0, Hreach. apply run_Drained. }
  destruct (acquire_release_restores (renderLimiter w0) i l1 HI HD eq_refl Hadm)
    as (l2' & Hrel' & Hcount).
  subst w1. simpl in Hrel. rewrite Hrel' in Hrel. injection Hrel as <-.
  by rewrite Hl2, Hcount, Hl0.
Qed.

(** The three ways a call of [renderPdfCoverThumbnail] goes: it is skipped
    (wrong extension or too large), it waits for a permit, or it runs the
    guarded part with the permit it was granted. *)
Lemma render_shape env pdfFile options w :
  (renderPdfCoverThumbnail env pdfFile options w).1 = Ok None
  \/ (renderPdfCoverThumbnail env pdfFile options w).1 = Pending
  \/ exists i w1,
       is_Some (Limiter.permits (renderLimiter w1) !! i)
       /\ renderPdfCoverThumbnail env pdfFile options w
          = renderWithPermit env pdfFile options i w1.
Proof.
  destruct (renderPdfCoverThumbnail env pdfFile options w) as [r w'] eqn:Hrun.
  cbn [fst]. unfold renderPdfCoverThumbnail in Hrun.
  destruct (negb (str_eqb _ _)); [injection Hrun as <- <-; by left|].
  destruct (_ <? _); [injection Hrun as <- <-; by left|]. right.
  set (w0 := (clearWorkerIdleTimer w).2) in *.
  unfold bind at 1 in Hrun. change (clearWorkerIdleTimer w) with (Ok tt, w0) in Hrun.
  unfold bind at 1 in Hrun. unfold acquireRender at 1 in Hrun.
  unfold Limiter.acquireOne, Limiter.acquire in Hrun.
  change (1 <=? 0) with false in Hrun. cbv iota in Hrun.
  set (i := Limiter.nextId (renderLimiter w0)) in *.
  set (l1 := Limiter.admitWaiters _) in *.
  destruct (bool_decide (is_Some (Limiter.permits l1 !! i))) eqn:Hadm;
    [|injection Hrun as <- <-; by left].
  right. apply bool_decide_eq_true in Hadm.
  by exists i, (emit (EvAcquire i) (set_renderLimiter l1 w0)).2.
Qed.

Lemma tryCreateWorker_unavailable pdfjs w0 :
  worker_unavailable pdfjs -> (tryCreateWorker pdfjs w0).1 = Ok None.
Proof.
  intros Hun. unfold tryCreateWorker. destruct (negb _); [done|]. cbv zeta.
  assert (Hnew : (match factory_new (PDFWorker pdfjs) with
                  | Some construct =>
                      try_catch (emit EvCreateWorker ;;; call construct)
                                (fun _ => ret None)
                  | None => ret None
                  end w0).1 = Ok None).
  { destruct (factory_new (PDFWorker pdfjs)) as [[[wk|]|e]|] eqn:En; try done.
    by destruct (Hun wk) as [_ []]. }
  destruct (factory_isRecord (PDFWorker pdfjs)); [|exact Hnew].
  destruct (factory_create (PDFWorker pdfjs)) as [[[wk|]|e]|] eqn:Ec; try done.
  by destruct (Hun wk) as [[] _].
Qed.

Lemma getSharedWorkerInstance_unavailable pdfjs w0 :
  sharedWorker w0 = None -> worker_unavailable pdfjs ->
  exists w0', getSharedWorkerInstance pdfjs w0 = (Ok None, w0').
Proof.
  intros Hnone Hun. unfold getSharedWorkerInstance. unfold bind at 1. simpl.
  rewrite Hnone. unfold bind.
  pose proof (tryCreateWorker_unavailable pdfjs w0 Hun) as Hc.
  destruct (tryCreateWorker pdfjs w0) as [r w0']. simpl in Hc. subst r.
  by eexists.
Qed.

(** With no worker to be had, the document is opened without one. *)
Lemma renderPage_without_worker env pdfFile options pdfjs url f :
  loadPdfJs env = Returns pdfjs -> getResourcePath env pdfFile = Returns url ->
  sharedWorker (world f) = None -> worker_unavailable pdfjs ->
  EvGetDocument {| source := FromUrl url; disableAutoFetch := true;
                   disableStream := true; worker := None |}
  ∈ trace (world (renderPage env pdfFile options f).2).
Proof.
  intros Hload Hurl Hnone Hun. unfold renderPage. cbv zeta.
  set (rest := fun d : PdfDocument => _).
  set (w0 := (emit EvLoadPdfJs (world f)).2).
  destruct (getSharedWorkerInstance_unavailable pdfjs w0 Hnone Hun) as [w0' Hget].
  set (params := {| source := FromUrl url; disableAutoFetch := true;
                    disableStream := true; worker := None |}).
  set (f1 := {| world := w0'; doc := doc f; page := page f |}).
  set (f2 := {| world := (emit (EvGetDocument params) w0').2; doc := doc f; page := page f |}).
  assert (Hin : EvGetDocument params ∈ trace (world f2)).
  { subst f2. simpl. apply elem_of_app. right. by apply list_elem_of_singleton. }
  assert (Hgrow : forall (m : M Frame (option Blob)),
             ends quiet_frame m -> EvGetDocument params ∈ trace (world (m f2).2)).
  { intros m Hm. destruct (Hm f2) as (r & f3 & E & _ & [_ (evs & Ht & _)]).
    rewrite E. simpl. rewrite Ht. apply elem_of_app. by left. }
  rewrite (bind_ok _ _ f pdfjs {| world := w0; doc := doc f; page := page f |});
    [|unfold bind, inWorld; simpl; by rewrite Hload].
  rewrite (bind_ok _ _ _ None f1); [|unfold inWorld; simpl; fold w0; by rewrite Hget].
  rewrite (bind_ok _ _ _ url f1); [|by apply call_returns].
  fold params.
  destruct (getDocument pdfjs params) as [d|e] eqn:Hdoc.
  - rewrite (bind_ok _ _ _ d f2).
    + apply Hgrow. subst rest. cbv beta.
      effects_using ltac:(first [apply returns_getSharedWorkerInstance | apply ends_canvasToBlob]).
    + apply try_catch_ok. unfold openDocument.
      rewrite (bind_ok _ _ _ tt f2); [|done]. by apply call_returns.
  - set (retry := fun _ : JSString => _).
    replace (bind (try_catch (openDocument pdfjs params) retry) rest f1)
      with (bind (retry e) rest f2).
    + apply Hgrow. subst rest retry. unfold openDocument. cbv beta.
      effects_using ltac:(first [apply returns_getSharedWorkerInstance | apply ends_canvasToBlob]).
    + apply bind_cong. symmetry. apply try_catch_throw.
      unfold openDocument. rewrite (bind_ok _ _ _ tt f2); [|done]. by apply call_raises.
Qed.

(** The first steps of the [try] block: pdf.js is loaded and the shared
    worker is looked up, which cannot fail. *)
Lemma renderPage_start env pdfFile options pdfjs f :
  loadPdfJs env = Returns pdfjs ->
  exists worker f1,
    renderPage env pdfFile options f
    = bind (call (getResourcePath env pdfFile))
        (fun url =>
           let documentParams src :=
             {| source := src; disableAutoFetch := true; disableStream := true;
                worker := worker |} in
           let* d :=
             try_catch
               (openDocument pdfjs (documentParams (FromUrl url)))
               (fun _ =>
                  let* buffer := (inWorld (emit (EvReadBinary (path pdfFile))) ;;;
                                  call (readBinary env (path pdfFile))) in
                  openDocument pdfjs (documentParams (FromData buffer))) in
           set_doc d ;;;
           let* firstPage := (inWorld (emit (EvGetPage 1)) ;;; call (getPage d 1)) in
           match firstPage with
           | NotAPage => ret None
           | Page p =>
               set_page p ;;;
               let* baseViewport := call (getViewport p num_one) in
               let scale :=
                 Scale.calculateScale
                   {| Scale.baseWidth := width baseViewport;
                      Scale.baseHeight := height baseViewport;
                      Scale.maxWidth := maxWidth options;
                      Scale.maxHeight := maxHeight options |} in
               let* viewport := call (getViewport p scale) in
               let canvas :=
                 {| canvas_width :=
                      set_canvas_side CANVAS_DEFAULT_WIDTH (Math_max num_one (Math_ceil (width viewport)));
                    canvas_height :=
                      set_canvas_side CANVAS_DEFAULT_HEIGHT (Math_max num_one (Math_ceil (height viewport))) |} in
               if negb (getContext2d env canvas) then ret None
               else
                 (inWorld (emit EvRender) ;;; call (render p canvas viewport)) ;;;
                 let* blob := inWorld (canvasToBlob env canvas (mimeType options)
                                                    (quality options)) in
                 match blob with
                 | Some b => ret (Some b)
                 | None => inWorld (canvasToBlob env canvas (js "image/png") None)
                 end
           end) f1.
Proof.
  intros Hload. unfold renderPage.
  set (f0 := {| world := (emit EvLoadPdfJs (world f)).2; doc := doc f; page := page f |}).
  destruct (returns_inWorld _ (returns_getSharedWorkerInstance pdfjs) f0)
    as (worker & f1 & Hget & _).
  exists worker, f1.
  rewrite (bind_ok _ _ f pdfjs f0); [|unfold bind, inWorld; simpl; by rewrite Hload].
  by rewrite (bind_ok _ _ _ worker f1).
Qed.

Lemma openDocument_raises pdfjs params e f :
  getDocument pdfjs params = Raises e ->
  openDocument pdfjs params f
  = (Throw e, {| world := (emit (EvGetDocument params) (world f)).2;
                 doc := doc f; page := page f |}).
Proof.
  intros H. unfold openDocument.
  erewrite bind_ok; [|reflexivity]. by apply call_raises.
Qed.

Lemma openDocument_returns pdfjs params d f :
  getDocument pdfjs params = Returns d ->
  openDocument pdfjs params f
  = (Ok d, {| world := (emit (EvGetDocument params) (world f)).2;
              doc := doc f; page := page f |}).
Proof.
  intros H. unfold openDocument.
  erewrite bind_ok; [|reflexivity]. by apply call_returns.
Qed.

(** When no document can be opened, the [try] block raises. *)
Lemma renderPage_open_fails env pdfFile options pdfjs f :
  loadPdfJs env = Returns pdfjs -> document_unopenable pdfjs ->
  exists e f', renderPage env pdfFile options f = (Throw e, f').
Proof.
  intros Hload Hopen.
  destruct (renderPage_start env pdfFile options pdfjs f Hload) as (worker & f1 & ->).
  destruct (getResourcePath env pdfFile) as [url|e] eqn:Hurl.
  2:{ eexists _, _. apply bind_throw. by apply call_raises. }
  erewrite bind_ok; [|by apply call_returns]. cbv zeta.
  destruct (Hopen {| source := FromUrl url; disableAutoFetch := true;
                     disableStream := true; worker := worker |}) as [e1 H1].
  destruct (readBinary env (path pdfFile)) as [buffer|e2] eqn:Hread.
  - destruct (Hopen {| source := FromData buffer; disableAutoFetch := true;
                       disableStream := true; worker := worker |}) as [e3 H3].
    eexists _, _. apply bind_throw.
    erewrite try_catch_throw; [|by apply openDocument_raises].
    erewrite bind_ok; [|erewrite bind_ok; [|reflexivity]; by apply call_returns].
    by apply openDocument_raises.
  - eexists _, _. apply bind_throw.
    erewrite try_catch_throw; [|by apply openDocument_raises].
    apply bind_throw. erewrite bind_ok; [|reflexivity]. by apply call_raises.
Qed.

(** When rendering the first page raises, the [try] block raises. *)
Lemma renderPage_render_fails env pdfFile options pdfjs f :
  loadPdfJs env = Returns pdfjs -> render_raises env pdfjs ->
  exists e f', renderPage env pdfFile options f = (Throw e, f').
Proof.
  intros Hload [Hctx Hdoc].
  destruct (renderPage_start env pdfFile options pdfjs f Hload) as (worker & f1 & ->).
  destruct (getResourcePath env pdfFile) as [url|e] eqn:Hurl.
  2:{ eexists _, _. apply bind_throw. by apply call_raises. }
  erewrite bind_ok; [|by apply call_returns]. cbv zeta.
  destruct (Hdoc {| source := FromUrl url; disableAutoFetch := true;
                    disableStream := true; worker := worker |})
    as (d & p & Hd & Hp & Hview & Hrender).
  destruct (Hview num_one) as [v1 Hv1].
  destruct (Hview (Scale.calculateScale
                     {| Scale.baseWidth := width v1; Scale.baseHeight := height v1;
                        Scale.maxWidth := maxWidth options;
                        Scale.maxHeight := maxHeight options |})) as [v2 Hv2].
  destruct (Hrender
              {| canvas_width :=
                   set_canvas_side CANVAS_DEFAULT_WIDTH (Math_max num_one (Math_ceil (width v2)));
                 canvas_height :=
                   set_canvas_side CANVAS_DEFAULT_HEIGHT (Math_max num_one (Math_ceil (height v2))) |} v2)
    as [e Hr].
  eexists _, _.
  erewrite bind_ok; [|apply try_catch_ok; by apply openDocument_returns].
  erewrite bind_ok; [|reflexivity].
  erewrite bind_ok; [|erewrite bind_ok; [|reflexivity]; by apply call_returns].
  cbv iota.
  erewrite bind_ok; [|reflexivity].
  erewrite bind_ok; [|by apply call_returns].
  erewrite bind_ok; [|by apply call_returns].
  rewrite Hctx. cbn [negb].
  apply bind_throw.
  erewrite bind_ok; [|reflexivity]. by apply call_raises.
Qed.

(** C9. A PDF above 25 MiB is skipped: the call returns [null], and it
    acquires no permit, leaves the shared worker, the idle timer and the
    limiter as they were and makes no call to the renderer; the only call it
    adds to the trace is the diagnostic log. *)
Theorem large_pdf_skipped (env : Env) (pdfFile : TFile)
    (options : PdfCoverThumbnailOptions) (w : World) (size : Z) :
  stat_size pdfFile = Some size ->
  MAX_PDF_THUMBNAIL_BYTES < size ->
  MAX_PDF_THUMBNAIL_BYTES = 26214400
  /\ (renderPdfCoverThumbnail env pdfFile options w).1 = Ok None
  /\ sharedWorker (renderPdfCoverThumbnail env pdfFile options w).2 = sharedWorker w
  /\ workerIdleTimerId (renderPdfCoverThumbnail env pdfFile options w).2 = workerIdleTimerId w
  /\ timeouts (renderPdfCoverThumbnail env pdfFile options w).2 = timeouts w
  /\ nextTimeout (renderPdfCoverThumbnail env pdfFile options w).2 = nextTimeout w
  /\ renderLimiter (renderPdfCoverThumbnail env pdfFile options w).2 = renderLimiter w
  /\ exists evs,
       trace (renderPdfCoverThumbnail env pdfFile options w).2 = trace w ++ evs
       /\ Forall (fun e => is_log e = true /\ is_renderer_call e = false
                           /\ is_acquire e = false) evs.
Proof.
  intros Hsize Hbig. split; [reflexivity|].
  unfold renderPdfCoverThumbnail. rewrite Hsize.
  change (default 0 (Some size)) with size.
  destruct (negb (str_eqb _ _)).
  - simpl. repeat (split; [reflexivity|]). exists []. by rewrite app_nil_r.
  - rewrite (proj2 (Z.ltb_lt _ _) Hbig). simpl.
    repeat (split; [reflexivity|]). eexists [_]. split; [reflexivity|].
    by repeat constructor.
Qed.

Lemma large_pdf_skipped_witness :
  (renderPdfCoverThumbnail (platform working_pdfjs) huge_pdf thumbnail_options
     initial_world).1 = Ok None
  /\ renderLimiter (renderPdfCoverThumbnail (platform working_pdfjs) huge_pdf
                      thumbnail_options initial_world).2
     = renderLimiter initial_world.
Proof.
  destruct (large_pdf_skipped (platform working_pdfjs) huge_pdf thumbnail_options
              initial_world (30 * 1024 * 1024) eq_refl eq_refl)
    as (_ & Hnull & _ & _ & _ & _ & Hlimiter & _).
  split; [exact Hnull|exact Hlimiter].
Defined.

(** C2, as stated, fails: in [busy_world] the idle timer expires while one
    render is active; the worker survives, and afterwards no timeout is
    pending and the module holds no timer, so the timer was not armed
    again. *)
Lemma idle_timer_not_rearmed :
  0 < Limiter.getActiveCount (renderLimiter busy_world)
  /\ (0%nat ∈ (timeouts busy_world).*1)
  /\ sharedWorker (fireTimeout 0 busy_world).2 = sharedWorker busy_world
  /\ sharedWorker busy_world <> None
  /\ workerIdleTimerId (fireTimeout 0 busy_world).2 = None
  /\ timeouts (fireTimeout 0 busy_world).2 = []
  /\ ~ (exists t, workerIdleTimerId (fireTimeout 0 busy_world).2 = Some t
                  /\ t ∈ (timeouts (fireTimeout 0 busy_world).2).*1).
Proof.
  split; [by vm_compute|]. split; [by apply list_elem_of_singleton|].
  split; [by vm_compute|]. split; [done|].
  split; [by vm_compute|]. split; [by vm_compute|].
  intros (t & Ht & _). vm_compute in Ht. discriminate.
Qed.

Lemma touchWorkerIdleTimer_busy w :
  0 < Limiter.getActiveCount (renderLimiter w) ->
  touchWorkerIdleTimer w = (Ok tt, (clearWorkerIdleTimer w).2).
Proof.
  intros Hbusy. unfold touchWorkerIdleTimer.
  set (w0 := (clearWorkerIdleTimer w).2).
  rewrite (bind_ok _ _ w tt w0) by reflexivity.
  rewrite (bind_ok _ _ w0 w0 w0) by reflexivity.
  assert (Hl : renderLimiter w0 = renderLimiter w)
    by (subst w0; simpl; by destruct (workerIdleTimerId w)).
  destruct (sharedWorker w0); [|done].
  rewrite (bind_ok _ _ w0 (Limiter.getActiveCount (renderLimiter w0)) w0) by reflexivity.
  rewrite Hl, (proj2 (Z.ltb_lt _ _) Hbusy). done.
Qed.

Lemma touchWorkerIdleTimer_idle w wk :
  sharedWorker w = Some wk ->
  Limiter.getActiveCount (renderLimiter w) <= 0 ->
  touchWorkerIdleTimer w
  = (Ok tt, (armWorkerIdleTimer DEFAULT_WORKER_IDLE_TIMEOUT_MS (clearWorkerIdleTimer w).2).2).
Proof.
  intros Hwk Hidle. unfold touchWorkerIdleTimer.
  set (w0 := (clearWorkerIdleTimer w).2).
  rewrite (bind_ok _ _ w tt w0) by reflexivity.
  rewrite (bind_ok _ _ w0 w0 w0) by reflexivity.
  assert (Hl : renderLimiter w0 = renderLimiter w)
    by (subst w0; simpl; by destruct (workerIdleTimerId w)).
  assert (Hs : sharedWorker w0 = Some wk)
    by (subst w0; simpl; by destruct (workerIdleTimerId w)).
  rewrite Hs.
  rewrite (bind_ok _ _ w0 (Limiter.getActiveCount (renderLimiter w0)) w0) by reflexivity.
  rewrite Hl, (proj2 (Z.ltb_ge _ _) Hidle). done.
Qed.

Lemma destroySharedWorker_destroys w :
  exists w',
    destroySharedWorker w = (Ok tt, w')
    /\ sharedWorker w' = None /\ workerIdleTimerId w' = None
    /\ forall wk, sharedWorker w = Some wk -> worker_destroy wk <> Absent ->
                  EvWorkerDestroy (worker_id wk) ∈ trace w'.
Proof.
  destruct w as [[[wid [|throws]]|] tid ts nt lim tr]; destruct tid as [t|];
    try destruct throws;
    (eexists; split; [cbv -[clearTimeout app]; reflexivity|];
     split; [done|]; split; [done|]);
    simpl; intros wk' [= <-] Hd; try done;
    apply elem_of_app; right; by apply list_elem_of_singleton.
Qed.

(** C2, amended.  When the idle timer expires, its callback never raises.
    With an active count of zero it destroys the shared worker (calling the
    worker's [destroy] when it is a function) and clears the handle and the
    timer.  With a positive active count the worker survives and nothing is
    destroyed; the callback calls [touchWorkerIdleTimer], which clears the
    timer and arms no new one while the count is positive.  The worker is
    destroyed only when the count is zero.  The timer is armed again by a
    later [touchWorkerIdleTimer] that finds the worker alive and the count
    at zero, as the one at the end of [renderPdfCoverThumbnail] does. *)
Theorem idle_timer_expiry (w : World) (id : nat) (cs : list Limiter.call) :
  renderLimiter w = Limiter.run MAX_PARALLEL_PDF_RENDERS cs ->
  id ∈ (timeouts w).*1 ->
  (fireTimeout id w).1 = Ok tt
  /\ (Limiter.getActiveCount (renderLimiter w) = 0 ->
       sharedWorker (fireTimeout id w).2 = None
       /\ workerIdleTimerId (fireTimeout id w).2 = None
       /\ forall wk, sharedWorker w = Some wk -> worker_destroy wk <> Absent ->
                     EvWorkerDestroy (worker_id wk) ∈ trace (fireTimeout id w).2)
  /\ (0 < Limiter.getActiveCount (renderLimiter w) ->
       sharedWorker (fireTimeout id w).2 = sharedWorker w
       /\ trace (fireTimeout id w).2 = trace w
       /\ workerIdleTimerId (fireTimeout id w).2 = None
       /\ nextTimeout (fireTimeout id w).2 = nextTimeout w
       /\ timeouts (fireTimeout id w).2
          = match workerIdleTimerId w with
            | Some t => clearTimeout t (clearTimeout id (timeouts w))
            | None => clearTimeout id (timeouts w)
            end)
  /\ (sharedWorker w <> None -> sharedWorker (fireTimeout id w).2 = None ->
       Limiter.getActiveCount (renderLimiter w) = 0)
  /\ (forall w0 wk,
        sharedWorker w0 = Some wk -> Limiter.getActiveCount (renderLimiter w0) = 0 ->
        workerIdleTimerId (touchWorkerIdleTimer w0).2 = Some (nextTimeout w0)
        /\ (nextTimeout w0, DEFAULT_WORKER_IDLE_TIMEOUT_MS)
           ∈ timeouts (touchWorkerIdleTimer w0).2
        /\ sharedWorker (touchWorkerIdleTimer w0).2 = Some wk).
Proof.
  intros Hreach Hpending.
  assert (Hnonneg : 0 <= Limiter.getActiveCount (renderLimiter w)).
  { rewrite Hreach.
    apply (active_count_nonneg MAX_PARALLEL_PDF_RENDERS cs).
    apply MAX_PARALLEL_PDF_RENDERS_positive. }
  set (w1 := {| sharedWorker := sharedWorker w; workerIdleTimerId := workerIdleTimerId w;
                timeouts := clearTimeout id (timeouts w); nextTimeout := nextTimeout w;
                renderLimiter := renderLimiter w; trace := trace w |}).
  assert (Hfire : fireTimeout id w = idleTimerCallback w1).
  { unfold fireTimeout. rewrite (bind_ok _ _ w w w) by reflexivity.
    rewrite bool_decide_eq_true_2 by done. by rewrite (bind_ok _ _ w tt w1). }
  assert (Hbusy : 0 < Limiter.getActiveCount (renderLimiter w) ->
                  idleTimerCallback w1 = (Ok tt, (clearWorkerIdleTimer w1).2)).
  { intros Hb. unfold idleTimerCallback.
    rewrite (bind_ok _ _ w1 (Limiter.getActiveCount (renderLimiter w1)) w1) by reflexivity.
    change (renderLimiter w1) with (renderLimiter w).
    rewrite (proj2 (Z.ltb_lt _ _) Hb). by apply touchWorkerIdleTimer_busy. }
  assert (Hidle : Limiter.getActiveCount (renderLimiter w) = 0 ->
                  idleTimerCallback w1 = destroySharedWorker w1).
  { intros Hz. unfold idleTimerCallback.
    rewrite (bind_ok _ _ w1 (Limiter.getActiveCount (renderLimiter w1)) w1) by reflexivity.
    change (renderLimiter w1) with (renderLimiter w). by rewrite Hz. }
  rewrite Hfire.
  destruct (destroySharedWorker_destroys w1) as (w' & Hd & Hnone & Htimer & Hcalled).
  split; [|split; [|split; [|split]]].
  - destruct (Z.eq_dec (Limiter.getActiveCount (renderLimiter w)) 0) as [Hz|Hnz].
    + by rewrite (Hidle Hz), Hd.
    + by rewrite Hbusy by lia.
  - intros Hz. rewrite (Hidle Hz), Hd. simpl. done.
  - intros Hb. rewrite (Hbusy Hb). simpl.
    by destruct (workerIdleTimerId w).
  - intros Halive Hgone.
    destruct (Z.eq_dec (Limiter.getActiveCount (renderLimiter w)) 0) as [Hz|Hnz]; [done|].
    rewrite Hbusy in Hgone by lia. simpl in Hgone.
    destruct (workerIdleTimerId w); simpl in Hgone; congruence.
  - intros w0 wk Hwk Hz.
    rewrite (touchWorkerIdleTimer_idle w0 wk Hwk) by lia. simpl.
    split; [by destruct (workerIdleTimerId w0)|].
    split; [|by destruct (workerIdleTimerId w0)].
    apply elem_of_app. right. apply list_elem_of_singleton.
    by destruct (workerIdleTimerId w0).
Qed.

Lemma idle_timer_expiry_witness :
  sharedWorker (fireTimeout 0 idle_world).2 = None
  /\ EvWorkerDestroy 7 ∈ trace (fireTimeout 0 idle_world).2
  /\ sharedWorker (fireTimeout 0 busy_world).2 = Some a_worker.
Proof.
  assert (Hin : 0%nat ∈ (timeouts idle_world).*1) by (by apply list_elem_of_singleton).
  destruct (idle_timer_expiry idle_world 0 [] eq_refl Hin) as (_ & Hidle & _).
  destruct (idle_timer_expiry busy_world 0 [Limiter.Acquire 1] eq_refl Hin)
    as (_ & _ & Hbusy & _).
  destruct (Hidle eq_refl) as (Hgone & _ & Hcalled).
  destruct (Hbusy eq_refl) as (Hkept & _).
  split; [exact Hgone|]. split; [|exact Hkept].
  apply (Hcalled a_worker eq_refl). discriminate.
Defined.

(** A render that is granted its permit at once, with a renderer that
    works: the blob is returned, the permit is released and the idle timer
    is armed at the end. *)
Example render_small_pdf :
  let r := renderPdfCoverThumbnail (platform working_pdfjs) small_pdf thumbnail_options
             initial_world in
  r.1 = Ok (Some {| blob_type := js "image/webp"; blob_size := 2048 |})
  /\ map is_release (trace r.2)
     = [false; false; false; false; false; false; false; false; false; true]
  /\ workerIdleTimerId r.2 = Some 0%nat
  /\ timeouts r.2 = [(0%nat, 60000)]
  /\ Limiter.getActiveCount (renderLimiter r.2) = 0.
Proof. vm_compute. repeat split; reflexivity. Qed.

(** The same with a worker that cannot be constructed: the page is
    rendered without a worker. *)
Example render_without_worker :
  let r := renderPdfCoverThumbnail (platform pdfjs_without_worker) small_pdf
             thumbnail_options initial_world in
  r.1 = Ok (Some {| blob_type := js "image/webp"; blob_size := 2048 |})
  /\ sharedWorker r.2 = None.
Proof. vm_compute. split; reflexivity. Qed.

(** A document that cannot be opened: the error is logged, the result is
    [null] and the permit is released. *)
Example render_unopenable_pdf :
  let r := renderPdfCoverThumbnail (platform pdfjs_without_documents) small_pdf
             thumbnail_options initial_world in
  r.1 = Ok None
  /\ List.filter (fun e => is_release e || is_acquire e || is_log e) (trace r.2)
     = [EvAcquire 0; EvLogOnce (js "pdf-cover:books/a.pdf"); EvRelease 0]
  /\ Limiter.getActiveCount (renderLimiter r.2) = 0.
Proof. vm_compute. repeat split; reflexivity. Qed.

Lemma release_exactly_once_witness :
  exists evs,
    trace (renderPdfCoverThumbnail (platform working_pdfjs) small_pdf thumbnail_options
             initial_world).2 = evs
    /\ EvAcquire 0 ∈ evs
    /\ length (List.filter is_release evs) = 1%nat
    /\ Limiter.getActiveCount
         (renderLimiter (renderPdfCoverThumbnail (platform working_pdfjs) small_pdf
                           thumbnail_options initial_world).2) = 0.
Proof.
  destruct (proj1 (release_exactly_once (platform working_pdfjs) small_pdf
                     thumbnail_options) initial_world [] eq_refl) as (evs & Ht & Hone).
  change (trace initial_world ++ evs) with evs in Ht.
  exists evs. split; [exact Ht|].
  assert (Hacq : EvAcquire 0 ∈ evs).
  { rewrite <- Ht. vm_compute. apply list_elem_of_here. }
  split; [exact Hacq|].
  destruct (Hone 0%nat Hacq) as (_ & _ & Hlen & Hcount).
  split; [exact Hlen|exact Hcount].
Defined.

Lemma pdfjs_without_worker_unavailable : worker_unavailable pdfjs_without_worker.
Proof. intros wk. split; discriminate. Qed.

Lemma pdfjs_without_documents_unopenable : document_unopenable pdfjs_without_documents.
Proof. intros params. by eexists. Qed.

End PdfFacts.

(* ===================================================================== *)
(** * What a piece of code leaves behind, however it ends *)
(* ===================================================================== *)

Section KeepsFacts.
Import JS PdfSpec.
Context {S : Type} (R : S -> S -> Prop) `{!PreOrder R}.

Lemma keeps_ret {A} (a : A) : keeps R (ret a).
Proof. intros s. simpl. reflexivity. Qed.

Lemma keeps_get : keeps R get.
Proof. intros s. simpl. reflexivity. Qed.

Lemma keeps_call {A} (r : completion A) : keeps R (call r).
Proof. intros s. destruct r; simpl; reflexivity. Qed.

Lemma keeps_modify (f : S -> S) : (forall s, R s (f s)) -> keeps R (modify f).
Proof. intros Hf s. apply Hf. Qed.

Lemma keeps_bind {A B} (m : M S A) (k : A -> M S B) :
  keeps R m -> (forall a, keeps R (k a)) -> keeps R (bind m k).
Proof.
  intros Hm Hk s. unfold bind. specialize (Hm s).
  destruct (m s) as [[a|e|] s1]; simpl in *; [|done..].
  etrans; [exact Hm|apply Hk].
Qed.

(** The code that follows a call runs only when the call returned. *)
Lemma keeps_bind_call {A B} (r : completion A) (k : A -> M S B) :
  (forall a, r = Returns a -> keeps R (k a)) -> keeps R (bind (call r) k).
Proof.
  intros Hk s. unfold bind. destruct r as [a|e]; simpl; [|reflexivity].
  by apply Hk.
Qed.

Lemma keeps_bind_assoc {A B C} (m : M S A) (f : A -> M S B) (k : B -> M S C) :
  keeps R (bind m (fun a => bind (f a) k)) -> keeps R (bind (bind m f) k).
Proof.
  intros H s. specialize (H s). unfold bind in *.
  destruct (m s) as [[a|e|] s1]; simpl in *; done.
Qed.

Lemma keeps_try_catch {A} (m : M S A) (h : JSString -> M S A) :
  keeps R m -> (forall e, keeps R (h e)) -> keeps R (try_catch m h).
Proof.
  intros Hm Hh s. unfold try_catch. specialize (Hm s).
  destruct (m s) as [[a|e|] s1]; simpl in *; [done| |done].
  etrans; [exact Hm|apply Hh].
Qed.

Lemma keeps_try_finally {A} (m : M S A) (f : M S unit) :
  keeps R m -> keeps R f -> keeps R (try_finally m f).
Proof.
  intros Hm Hf s. unfold try_finally. specialize (Hm s).
  destruct (m s) as [[a|e|] s1]; simpl in *; [| |done];
    specialize (Hf s1); destruct (f s1) as [[[]|e'|] s2]; simpl in *; by etrans.
Qed.

Lemma keeps_optional_call (m : optional_method) : keeps R (optional_call m).
Proof. destruct m as [|[]]; simpl; first [apply keeps_ret | apply keeps_call]. Qed.

End KeepsFacts.

#[global] Instance adds_preorder P : PreOrder (PdfSpec.adds P).
Proof.
  split.
  - intros w. exists []. rewrite app_nil_r. split; [done|constructor].
  - intros w1 w2 w3 (e1 & Ht1 & Hf1) (e2 & Ht2 & Hf2).
    exists (e1 ++ e2). rewrite Ht2, Ht1, app_assoc. split; [done|].
    by apply Forall_app.
Qed.

#[global] Instance adds_frame_preorder P : PreOrder (PdfSpec.adds_frame P).
Proof.
  split.
  - intros f. unfold PdfSpec.adds_frame. reflexivity.
  - intros f1 f2 f3. unfold PdfSpec.adds_frame. apply transitivity.
Qed.

Section TraceFacts.
Import JS Obsidian Pdf PdfSpec.
Context (P : Event -> Prop).

Lemma adds_same_trace (w w' : World) : trace w' = trace w -> adds P w w'.
Proof. intros Ht. exists []. rewrite app_nil_r. split; [done|constructor]. Qed.

Lemma keeps_emit e : P e -> keeps (adds P) (emit e).
Proof.
  intros He. apply keeps_modify. intros w. exists [e]. split; [done|].
  by repeat constructor.
Qed.

Lemma keeps_clearWorkerIdleTimer : keeps (adds P) clearWorkerIdleTimer.
Proof.
  apply keeps_modify. intros w. apply adds_same_trace. by destruct (workerIdleTimerId w).
Qed.

Lemma keeps_armWorkerIdleTimer d : keeps (adds P) (armWorkerIdleTimer d).
Proof. apply keeps_modify. intros w. by apply adds_same_trace. Qed.

Lemma keeps_set_sharedWorker v : keeps (adds P) (set_sharedWorker v).
Proof. apply keeps_modify. intros w. by apply adds_same_trace. Qed.

Lemma keeps_inWorld {A} (m : M World A) :
  keeps (adds P) m -> keeps (adds_frame P) (inWorld m).
Proof.
  intros Hm f. unfold inWorld. specialize (Hm (world f)).
  by destruct (m (world f)) as [r w'].
Qed.

Lemma keeps_withLocals {A} (m : M Frame A) :
  keeps (adds_frame P) m -> keeps (adds P) (withLocals m).
Proof.
  intros Hm w. unfold withLocals.
  specialize (Hm {| world := w; doc := None; page := None |}).
  by destruct (m _) as [r f].
Qed.

Lemma keeps_set_doc d : keeps (adds_frame P) (set_doc d).
Proof. apply keeps_modify. intros f. unfold adds_frame. simpl. reflexivity. Qed.

Lemma keeps_set_page p : keeps (adds_frame P) (set_page p).
Proof. apply keeps_modify. intros f. unfold adds_frame. simpl. reflexivity. Qed.

Lemma keeps_acquireRender : (forall i, P (EvAcquire i)) -> keeps (adds P) acquireRender.
Proof.
  intros HP w. unfold acquireRender.
  destruct (Limiter.acquireOne (renderLimiter w)) as [[i l]|]; simpl; [|reflexivity].
  destruct (bool_decide _); simpl.
  - exists [EvAcquire i]. split; [done|]. by repeat constructor.
  - by apply adds_same_trace.
Qed.

Lemma keeps_releaseRender i : P (EvRelease i) -> keeps (adds P) (releaseRender i).
Proof.
  intros HP w. unfold releaseRender.
  destruct (Limiter.release i (renderLimiter w)) as [l|]; simpl; [|reflexivity].
  exists [EvRelease i]. split; [done|]. by repeat constructor.
Qed.

End TraceFacts.

(** Walks through code and leaves the calls that are added to the trace. *)
Ltac trace_effects_using known :=
  repeat first
    [ known
    | apply keeps_clearWorkerIdleTimer | apply keeps_armWorkerIdleTimer
    | apply keeps_set_sharedWorker | apply keeps_set_doc | apply keeps_set_page
    | apply keeps_inWorld | apply keeps_withLocals
    | match goal with
      | |- PdfSpec.keeps ?R (JS.ret _) => apply (keeps_ret R)
      | |- PdfSpec.keeps ?R JS.get => apply (keeps_get R)
      | |- PdfSpec.keeps ?R (JS.call _) => apply (keeps_call R)
      | |- PdfSpec.keeps ?R (JS.optional_call _) => apply (keeps_optional_call R)
      | |- PdfSpec.keeps ?R (JS.bind _ _) => apply (keeps_bind R); [|intros ?]
      | |- PdfSpec.keeps ?R (JS.try_catch _ _) => apply (keeps_try_catch R); [|intros ?]
      | |- PdfSpec.keeps ?R (JS.try_finally _ _) => apply (keeps_try_finally R)
      | |- PdfSpec.keeps _ (match ?x with _ => _ end) => destruct x
      | |- PdfSpec.keeps _ (if ?x then _ else _) => destruct x
      end ].

Section PdfTraceFacts.
Import JS Obsidian Pdf PdfSpec.

Lemma keeps_getActiveCount P : keeps (adds P) getActiveCount.
Proof. unfold getActiveCount. trace_effects_using fail. Qed.

Lemma keeps_touchWorkerIdleTimer P : keeps (adds P) touchWorkerIdleTimer.
Proof.
  unfold touchWorkerIdleTimer. trace_effects_using ltac:(apply keeps_getActiveCount).
Qed.

Lemma keeps_tryCreateWorker P :
  P EvCreateWorker -> forall pdfjs, keeps (adds P) (tryCreateWorker pdfjs).
Proof.
  intros HP pdfjs. unfold tryCreateWorker.
  trace_effects_using ltac:(by apply keeps_emit).
Qed.

Lemma keeps_getSharedWorkerInstance P :
  P EvCreateWorker -> forall pdfjs, keeps (adds P) (getSharedWorkerInstance pdfjs).
Proof.
  intros HP pdfjs. unfold getSharedWorkerInstance.
  trace_effects_using
    ltac:(first [apply keeps_touchWorkerIdleTimer | by apply keeps_tryCreateWorker]).
Qed.

(** Every document that [renderPdfCoverThumbnail] opens is opened with
    [disableAutoFetch] and [disableStream] set, from the URL and from the
    bytes alike, and the only page it asks for is page 1; a call that
    resumes with its permit does the same. *)
Theorem opens_first_page_only (env : Env) (pdfFile : TFile)
    (options : PdfCoverThumbnailOptions) (w : World) :
  adds first_page_only w (renderPdfCoverThumbnail env pdfFile options w).2
  /\ forall i, adds first_page_only w (renderWithPermit env pdfFile options i w).2.
Proof.
  assert (Hpermit : forall i, keeps (adds first_page_only)
                                (renderWithPermit env pdfFile options i)).
  { intros i. unfold renderWithPermit, renderPage, renderFailed, renderDone,
      openDocument, canvasToBlob, logOnce. cbv zeta.
    trace_effects_using
      ltac:(first [ apply keeps_emit; simpl; done
                  | apply keeps_releaseRender; simpl; done
                  | apply keeps_touchWorkerIdleTimer
                  | apply keeps_getSharedWorkerInstance; simpl; done ]). }
  split; [|intros i; apply Hpermit].
  revert w. change (keeps (adds first_page_only) (renderPdfCoverThumbnail env pdfFile options)).
  unfold renderPdfCoverThumbnail, logOnce. cbv zeta.
  trace_effects_using
    ltac:(first [ apply keeps_emit; simpl; done
                | apply keeps_acquireRender; simpl; done
                | apply Hpermit ]).
Qed.

Lemma adds_elem P (w w' : World) e : adds P w w' -> e ∈ trace w -> e ∈ trace w'.
Proof. intros (evs & -> & _) He. apply elem_of_app. by left. Qed.

Lemma bind_assoc {S A B C} (m : M S A) (f : A -> M S B) (k : B -> M S C) s :
  bind (bind m f) k s = bind m (fun a => bind (f a) k) s.
Proof. unfold bind. by destruct (m s) as [[a|e|] s1]. Qed.

(** Code that runs after [openDocument] returned, when it always does. *)
Lemma keeps_after_open {A} (R : Frame -> Frame -> Prop) `{!PreOrder R}
    pdfjs params h (k : PdfDocument -> M Frame A) :
  (exists d, getDocument pdfjs params = Returns d) ->
  keeps R (openDocument pdfjs params) -> (forall d, keeps R (k d)) ->
  keeps R (bind (try_catch (openDocument pdfjs params) h) k).
Proof.
  intros [d Hd] Hopen Hk f. specialize (Hopen f).
  rewrite (bind_ok _ _ f d _ (try_catch_ok _ _ _ _ _ (openDocument_returns _ _ _ f Hd))).
  rewrite (openDocument_returns _ _ _ f Hd) in Hopen. simpl in Hopen.
  etrans; [exact Hopen|apply Hk].
Qed.

Lemma keeps_renderPage_url_opens env pdfFile options :
  url_opens env ->
  keeps (adds_frame (fun e => is_read_binary e = false)) (renderPage env pdfFile options).
Proof.
  intros Hurl. unfold renderPage. cbv zeta.
  apply (keeps_bind_assoc _).
  apply (keeps_bind _); [apply keeps_inWorld, keeps_emit; done|intros _].
  apply (keeps_bind_call _). intros pdfjs Hload.
  apply (keeps_bind _); [by apply keeps_inWorld, keeps_getSharedWorkerInstance|intros worker].
  apply (keeps_bind_call _). intros url _.
  apply (keeps_after_open _).
  - by apply (Hurl pdfjs _ url Hload).
  - unfold openDocument.
    trace_effects_using ltac:(apply keeps_emit; simpl; done).
  - intros d. unfold canvasToBlob.
    trace_effects_using ltac:(apply keeps_emit; simpl; done).
Qed.

(** When pdf.js can open the document from its URL, the file's bytes are
    never read into memory: [readBinary] is called neither by a call of
    [renderPdfCoverThumbnail] nor by one that resumes with its permit. *)
Theorem no_bytes_read_when_url_opens (env : Env) (pdfFile : TFile)
    (options : PdfCoverThumbnailOptions) (w : World) :
  url_opens env ->
  adds (fun e => is_read_binary e = false) w
       (renderPdfCoverThumbnail env pdfFile options w).2
  /\ forall i, adds (fun e => is_read_binary e = false) w
                    (renderWithPermit env pdfFile options i w).2.
Proof.
  intros Hurl.
  assert (Hpermit : forall i, keeps (adds (fun e => is_read_binary e = false))
                                (renderWithPermit env pdfFile options i)).
  { intros i. unfold renderWithPermit, renderFailed, renderDone, logOnce.
    trace_effects_using
      ltac:(first [ by apply keeps_renderPage_url_opens
                  | apply keeps_emit; simpl; done
                  | apply keeps_releaseRender; simpl; done
                  | apply keeps_touchWorkerIdleTimer ]). }
  split; [|intros i; apply Hpermit].
  revert w.
  change (keeps (adds (fun e => is_read_binary e = false))
                (renderPdfCoverThumbnail env pdfFile options)).
  unfold renderPdfCoverThumbnail, logOnce. cbv zeta.
  trace_effects_using
    ltac:(first [ apply keeps_emit; simpl; done
                | apply keeps_acquireRender; simpl; done
                | apply Hpermit ]).
Qed.

Lemma platform_url_opens : url_opens (platform working_pdfjs).
Proof. intros pdfjs params url [= <-] _. by eexists. Qed.

Lemma no_bytes_read_when_url_opens_witness :
  adds (fun e => is_read_binary e = false) initial_world
       (renderPdfCoverThumbnail (platform working_pdfjs) small_pdf thumbnail_options
          initial_world).2.
Proof.
  exact (proj1 (no_bytes_read_when_url_opens (platform working_pdfjs) small_pdf
                  thumbnail_options initial_world platform_url_opens)).
Defined.

Lemma keeps_any_renderPage env pdfFile options :
  keeps (adds_frame any_call) (renderPage env pdfFile options).
Proof.
  unfold renderPage, openDocument, canvasToBlob. cbv zeta.
  trace_effects_using
    ltac:(first [ apply keeps_emit; done
                | apply keeps_getSharedWorkerInstance; done ]).
Qed.

Lemma keeps_any_renderFailed pdfFile e :
  keeps (adds_frame any_call) (renderFailed pdfFile e).
Proof. unfold renderFailed, logOnce. trace_effects_using ltac:(apply keeps_emit; done). Qed.

Lemma keeps_any_renderDone i : keeps (adds_frame any_call) (renderDone i).
Proof.
  unfold renderDone.
  trace_effects_using
    ltac:(first [ apply keeps_emit; done | apply keeps_releaseRender; done
                | apply keeps_touchWorkerIdleTimer ]).
Qed.

(** A call that is in the trace when the [try] block ends is in the trace
    when [renderWithPermit] ends. *)
Lemma renderWithPermit_keeps_call env pdfFile options i w e :
  e ∈ trace (world (renderPage env pdfFile options
                      {| world := w; doc := None; page := None |}).2) ->
  e ∈ trace (renderWithPermit env pdfFile options i w).2.
Proof.
  intros He. unfold renderWithPermit, withLocals.
  set (f0 := {| world := w; doc := None; page := None |}) in *.
  set (body := try_catch _ _).
  assert (Hbody : e ∈ trace (world (body f0).2)).
  { subst body. unfold try_catch.
    destruct (renderPage env pdfFile options f0) as [[a|err|] f1]; cbn [snd] in *;
      try done.
    eapply adds_elem; [apply (keeps_any_renderFailed pdfFile err f1)|done]. }
  unfold try_finally.
  destruct (body f0) as [[a|err|] f1]; cbn [snd] in *; try done.
  - pose proof (keeps_any_renderDone i f1) as Hd.
    destruct (renderDone i f1) as [[[]|err'|] f2]; cbn [snd] in *;
      (eapply adds_elem; [exact Hd|done]).
  - pose proof (keeps_any_renderDone i f1) as Hd.
    destruct (renderDone i f1) as [[[]|err'|] f2]; cbn [snd] in *;
      (eapply adds_elem; [exact Hd|done]).
Qed.

(** When pdf.js cannot open the document from its URL, the file's bytes are
    read: [readBinary] is called with the path of the file. *)
Theorem bytes_read_when_url_fails (env : Env) (pdfFile : TFile)
    (options : PdfCoverThumbnailOptions) (i : nat) (w : World)
    (pdfjs : PdfJs) (url : JSString) :
  loadPdfJs env = Returns pdfjs ->
  getResourcePath env pdfFile = Returns url ->
  (forall params, source params = FromUrl url ->
                  exists e, getDocument pdfjs params = Raises e) ->
  EvReadBinary (path pdfFile) ∈ trace (renderWithPermit env pdfFile options i w).2.
Proof.
  intros Hload Hurl Hraise. apply renderWithPermit_keeps_call.
  set (f0 := {| world := w; doc := None; page := None |}).
  destruct (renderPage_start env pdfFile options pdfjs f0 Hload) as (worker & f1 & ->).
  rewrite (bind_ok _ _ f1 url f1) by (by apply call_returns). cbv zeta.
  set (params := {| source := FromUrl url; disableAutoFetch := true;
                    disableStream := true; worker := worker |}).
  destruct (Hraise params eq_refl) as [e1 He1].
  set (handler := fun _ : JSString => _).
  set (rest := fun d : PdfDocument => _).
  set (f2 := {| world := (emit (EvGetDocument params) (world f1)).2;
                doc := doc f1; page := page f1 |}).
  rewrite (bind_cong (try_catch (openDocument pdfjs params) handler) (handler e1) rest f1 f2)
    by (apply try_catch_throw; by apply openDocument_raises).
  subst handler. cbv beta. rewrite !bind_assoc.
  set (f3 := {| world := (emit (EvReadBinary (path pdfFile)) (world f2)).2;
                doc := doc f2; page := page f2 |}).
  rewrite (bind_ok _ _ f2 tt f3) by reflexivity.
  eapply adds_elem.
  - match goal with |- adds _ _ (world (?m f3).2) =>
      assert (Hk : keeps (adds_frame any_call) m); [|exact (Hk f3)] end.
    subst rest. unfold openDocument, canvasToBlob.
    trace_effects_using ltac:(apply keeps_emit; done).
  - subst f3. simpl. apply elem_of_app. right. by apply list_elem_of_singleton.
Qed.

Lemma pdfjs_without_documents_raises url params :
  source params = FromUrl url ->
  exists e, getDocument pdfjs_without_documents params = Raises e.
Proof. intros _. by eexists. Qed.

Lemma bytes_read_when_url_fails_witness :
  EvReadBinary (path small_pdf)
  ∈ trace (renderWithPermit (platform pdfjs_without_documents) small_pdf
             thumbnail_options 0 initial_world).2.
Proof.
  apply (bytes_read_when_url_fails (platform pdfjs_without_documents) small_pdf
           thumbnail_options 0 initial_world pdfjs_without_documents
           (js "app://local/" ++ path small_pdf) eq_refl eq_refl).
  intros params. apply pdfjs_without_documents_raises.
Defined.

(** A file whose extension is not [pdf] (in any letter case) is ignored:
    the result is [null] and nothing at all happens, not even a log entry. *)
Theorem non_pdf_ignored (env : Env) (pdfFile : TFile)
    (options : PdfCoverThumbnailOptions) (w : World) :
  toLowerCase env (extension pdfFile) <> js "pdf" ->
  renderPdfCoverThumbnail env pdfFile options w = (Ok None, w).
Proof.
  intros Hext. unfold renderPdfCoverThumbnail, str_eqb.
  by rewrite bool_decide_eq_false_2.
Qed.

Lemma non_pdf_ignored_witness :
  renderPdfCoverThumbnail (platform working_pdfjs) Preview.note_md thumbnail_options
    initial_world = (Ok None, initial_world).
Proof.
  apply (non_pdf_ignored (platform working_pdfjs) Preview.note_md thumbnail_options
           initial_world).
  vm_compute. discriminate.
Defined.

(** [touchWorkerIdleTimer] returns and touches neither the shared worker,
    nor the limiter, nor the trace. *)
Lemma touchWorkerIdleTimer_fields w :
  exists w',
    touchWorkerIdleTimer w = (Ok tt, w')
    /\ sharedWorker w' = sharedWorker w /\ trace w' = trace w
    /\ renderLimiter w' = renderLimiter w.
Proof.
  destruct (returns_touchWorkerIdleTimer w) as ([] & w' & E & [Hl (evs & Ht & _)]).
  exists w'. split; [done|].
  assert (Htr : trace w' = trace w).
  { pose proof (keeps_touchWorkerIdleTimer (fun _ => False) w) as (evs' & Ht' & Hf).
    rewrite E in Ht'. simpl in Ht'. destruct evs' as [|e evs'].
    - by rewrite app_nil_r in Ht'.
    - by apply Forall_cons in Hf as [[] _]. }
  split; [|done]. clear Ht Htr Hl evs.
  unfold touchWorkerIdleTimer in E.
  set (w0 := (clearWorkerIdleTimer w).2) in *.
  rewrite (bind_ok _ _ w tt w0) in E by reflexivity.
  rewrite (bind_ok _ _ w0 w0 w0) in E by reflexivity.
  assert (Hs : sharedWorker w0 = sharedWorker w)
    by (subst w0; unfold clearWorkerIdleTimer, modify; simpl;
        by destruct (workerIdleTimerId w)).
  destruct (sharedWorker w0) as [wk|] eqn:Hsw;
    [|unfold ret in E; injection E as <-; congruence].
  rewrite (bind_ok _ _ w0 (Limiter.getActiveCount (renderLimiter w0)) w0) in E
    by reflexivity.
  destruct (0 <? _); unfold ret, armWorkerIdleTimer, modify in E;
    injection E as <-; simpl; congruence.
Qed.

(** The shared worker is created once and then reused.  With a worker in
    place [getSharedWorkerInstance] returns it and constructs nothing,
    whatever pdf.js module it is given; a worker that it creates is stored, so
    the next call returns the same worker without constructing another; and
    when no worker could be created none is stored, so the next call tries
    again. *)
Theorem shared_worker_reused (pdfjs pdfjs' : PdfJs) (w : World) :
  (forall wk, sharedWorker w = Some wk ->
     (getSharedWorkerInstance pdfjs w).1 = Ok (Some wk)
     /\ sharedWorker (getSharedWorkerInstance pdfjs w).2 = Some wk
     /\ trace (getSharedWorkerInstance pdfjs w).2 = trace w)
  /\ (forall wk, sharedWorker w = None ->
        (getSharedWorkerInstance pdfjs w).1 = Ok (Some wk) ->
        sharedWorker (getSharedWorkerInstance pdfjs w).2 = Some wk
        /\ (getSharedWorkerInstance pdfjs' (getSharedWorkerInstance pdfjs w).2).1
           = Ok (Some wk)
        /\ trace (getSharedWorkerInstance pdfjs' (getSharedWorkerInstance pdfjs w).2).2
           = trace (getSharedWorkerInstance pdfjs w).2)
  /\ (sharedWorker w = None ->
      (getSharedWorkerInstance pdfjs w).1 = Ok None ->
      sharedWorker (getSharedWorkerInstance pdfjs w).2 = None).
Proof.
  assert (Hreuse : forall q w0 wk, sharedWorker w0 = Some wk ->
     (getSharedWorkerInstance q w0).1 = Ok (Some wk)
     /\ sharedWorker (getSharedWorkerInstance q w0).2 = Some wk
     /\ trace (getSharedWorkerInstance q w0).2 = trace w0).
  { intros q w0 wk Hwk. unfold getSharedWorkerInstance.
    rewrite (bind_ok _ _ w0 w0 w0) by reflexivity. rewrite Hwk.
    destruct (touchWorkerIdleTimer_fields w0) as (w1 & E & Hs & Ht & _).
    rewrite (bind_ok _ _ w0 tt w1) by done. simpl. by rewrite Hs. }
  assert (Hstore : sharedWorker w = None ->
     forall r, (getSharedWorkerInstance pdfjs w).1 = Ok r ->
               sharedWorker (getSharedWorkerInstance pdfjs w).2 = r).
  { intros Hnone r. unfold getSharedWorkerInstance.
    rewrite (bind_ok _ _ w w w) by reflexivity. rewrite Hnone.
    destruct (returns_tryCreateWorker pdfjs w) as (c & w1 & E & _).
    assert (Hs1 : sharedWorker w1 = None).
    { cbv [tryCreateWorker try_catch bind emit call ret modify] in E.
      destruct (negb _); [by injection E as _ <-|].
      destruct (if factory_isRecord _ then _ else _) as [[]|];
        [by injection E as _ <-..|].
      destruct (factory_new _) as [[]|]; by injection E as _ <-. }
    rewrite (bind_ok _ _ w c w1) by done.
    destruct c as [wk|]; [|simpl; by intros [= <-]].
    set (w2 := (set_sharedWorker (Some wk) w1).2).
    rewrite (bind_ok _ _ w1 tt w2) by reflexivity.
    destruct (touchWorkerIdleTimer_fields w2) as (w3 & E3 & Hs3 & _).
    rewrite (bind_ok _ _ w2 tt w3) by done. simpl. intros [= <-]. by rewrite Hs3. }
  split; [by apply Hreuse|]. split.
  - intros wk Hnone Hr. pose proof (Hstore Hnone _ Hr) as Hs.
    split; [done|]. destruct (Hreuse pdfjs' _ wk Hs) as (H1 & _ & H3). by split.
  - intros Hnone Hr. by apply Hstore.
Qed.

Lemma shared_worker_reused_witness :
  (getSharedWorkerInstance pdfjs_without_worker idle_world).1 = Ok (Some a_worker)
  /\ trace (getSharedWorkerInstance pdfjs_without_worker idle_world).2 = [].
Proof.
  destruct (proj1 (shared_worker_reused pdfjs_without_worker pdfjs_without_worker
                     idle_world) a_worker eq_refl) as (Hr & _ & Ht).
  split; [exact Hr|exact Ht].
Defined.

(** [destroySharedWorker] is best effort and idempotent: it never raises,
    also when the worker's [destroy] throws; afterwards the module holds no
    worker and no timer, a second call changes nothing, and the next
    [getSharedWorkerInstance] creates a worker as if none had existed. *)
Theorem destroySharedWorker_idempotent (w : World) :
  (destroySharedWorker w).1 = Ok tt
  /\ sharedWorker (destroySharedWorker w).2 = None
  /\ workerIdleTimerId (destroySharedWorker w).2 = None
  /\ destroySharedWorker (destroySharedWorker w).2 = (Ok tt, (destroySharedWorker w).2)
  /\ (exists evs, trace (destroySharedWorker w).2 = trace w ++ evs
                  /\ (length evs <= 1)%nat)
  /\ (forall pdfjs wk, creates_worker pdfjs wk ->
        (getSharedWorkerInstance pdfjs (destroySharedWorker w).2).1 = Ok (Some wk)).
Proof.
  destruct (destroySharedWorker_destroys w) as (w' & E & Hnone & Htimer & _).
  rewrite E. simpl. split; [done|]. split; [done|]. split; [done|]. split; [|split].
  - destruct w' as [sw tid ts nt lim tr]. simpl in *. by subst.
  - clear Hnone Htimer.
    destruct w as [[[wid [|throws]]|] [t|] ts nt lim tr]; try destruct throws;
      cbv -[clearTimeout app length] in E; injection E as <-; simpl;
      first [ exists []; split; [by rewrite app_nil_r | simpl; lia]
            | eexists [_]; split; [done | simpl; lia] ].
  - intros pdfjs wk (Hrec & Hfrec & Hcreate). unfold getSharedWorkerInstance.
    rewrite (bind_ok _ _ w' w' w') by reflexivity. rewrite Hnone.
    set (w1 := (emit EvCreateWorker w').2).
    rewrite (bind_ok _ _ w' (Some wk) w1).
    2:{ unfold tryCreateWorker. rewrite Hrec. simpl. rewrite Hfrec, Hcreate.
        apply try_catch_ok. by rewrite (bind_ok _ _ w' tt w1). }
    set (w2 := (set_sharedWorker (Some wk) w1).2).
    rewrite (bind_ok _ _ w1 tt w2) by reflexivity.
    destruct (touchWorkerIdleTimer_fields w2) as (w3 & E3 & _).
    by rewrite (bind_ok _ _ w2 tt w3).
Qed.

Lemma destroySharedWorker_idempotent_witness :
  (getSharedWorkerInstance working_pdfjs (destroySharedWorker idle_world).2).1
  = Ok (Some a_worker).
Proof.
  destruct (destroySharedWorker_idempotent idle_world) as (_ & _ & _ & _ & _ & Hnew).
  apply (Hnew working_pdfjs a_worker). repeat split.
Defined.

End PdfTraceFacts.

#[global] Instance preserves_preorder {S} (I : S -> Prop) : PreOrder (PdfSpec.preserves I).
Proof.
  split.
  - intros s Hs. exact Hs.
  - intros s1 s2 s3 H1 H2 Hs. apply H2, H1, Hs.
Qed.

Section TimerFacts.
Import JS Obsidian Pdf PdfSpec.

Lemma clearTimeout_single t d : clearTimeout t [(t, d)] = [].
Proof.
  unfold clearTimeout. rewrite filter_cons. simpl.
  by destruct (decide (t <> t)).
Qed.

Lemma clearTimeout_nil_clearTimeout t id ts :
  clearTimeout t ts = [] -> clearTimeout t (clearTimeout id ts) = [].
Proof.
  unfold clearTimeout. induction ts as [|a ts IH]; [done|].
  rewrite !filter_cons. destruct (decide (a.1 <> t)); [done|]. intros Hts.
  destruct (decide (a.1 <> id)); [|by apply IH].
  rewrite filter_cons. destruct (decide (a.1 <> t)); [done|by apply IH].
Qed.

Lemma timer_consistent_shape w : timer_consistent w -> timer_shape w.
Proof.
  unfold timer_consistent, timer_shape.
  destruct (workerIdleTimerId w); [|done].
  intros [-> _]. apply clearTimeout_single.
Qed.

Lemma clearWorkerIdleTimer_shape w :
  timer_shape w ->
  workerIdleTimerId (clearWorkerIdleTimer w).2 = None
  /\ timeouts (clearWorkerIdleTimer w).2 = []
  /\ sharedWorker (clearWorkerIdleTimer w).2 = sharedWorker w
  /\ renderLimiter (clearWorkerIdleTimer w).2 = renderLimiter w.
Proof.
  unfold timer_shape, clearWorkerIdleTimer, modify. simpl.
  by destruct (workerIdleTimerId w) as [t|] eqn:Ht; simpl; intros Hts.
Qed.

(** [touchWorkerIdleTimer] makes the timer consistent. *)
Lemma touchWorkerIdleTimer_consistent w :
  timer_shape w -> timer_consistent (touchWorkerIdleTimer w).2.
Proof.
  intros Hshape.
  destruct (clearWorkerIdleTimer_shape w Hshape) as (Hid & Hts & Hsw & Hlim).
  unfold touchWorkerIdleTimer.
  set (w0 := (clearWorkerIdleTimer w).2) in *.
  rewrite (bind_ok _ _ w tt w0) by reflexivity.
  rewrite (bind_ok _ _ w0 w0 w0) by reflexivity.
  destruct (sharedWorker w0) as [wk|] eqn:Hwk.
  - rewrite (bind_ok _ _ w0 (Limiter.getActiveCount (renderLimiter w0)) w0)
      by reflexivity.
    destruct (0 <? _) eqn:Hcount; unfold timer_consistent; simpl.
    + by rewrite Hid.
    + rewrite Hts, Hwk. apply Z.ltb_ge in Hcount. done.
  - unfold timer_consistent. simpl. by rewrite Hid.
Qed.

Lemma keeps_timer_emit e : keeps (preserves timer_consistent) (emit e).
Proof. apply keeps_modify. by intros w H. Qed.

Lemma keeps_timer_clearWorkerIdleTimer :
  keeps (preserves timer_consistent) clearWorkerIdleTimer.
Proof.
  intros w H.
  destruct (clearWorkerIdleTimer_shape w (timer_consistent_shape w H)) as (Hid & Hts & _).
  unfold timer_consistent. by rewrite Hid.
Qed.

Lemma keeps_timer_touchWorkerIdleTimer :
  keeps (preserves timer_consistent) touchWorkerIdleTimer.
Proof. intros w H. by apply touchWorkerIdleTimer_consistent, timer_consistent_shape. Qed.

Lemma keeps_timer_set_sharedWorker wk :
  keeps (preserves timer_consistent) (set_sharedWorker (Some wk)).
Proof.
  apply keeps_modify. intros w. unfold preserves, timer_consistent. simpl.
  destruct (workerIdleTimerId w); [|done]. by intros (? & _ & ?).
Qed.

Lemma keeps_preserves_inWorld {A} (I : World -> Prop) (m : M World A) :
  keeps (preserves I) m -> keeps (preserves (in_frame I)) (inWorld m).
Proof.
  intros Hm f. unfold inWorld. specialize (Hm (world f)).
  by destruct (m (world f)) as [r w'].
Qed.

Lemma keeps_preserves_withLocals {A} (I : World -> Prop) (m : M Frame A) :
  keeps (preserves (in_frame I)) m -> keeps (preserves I) (withLocals m).
Proof.
  intros Hm w. unfold withLocals.
  specialize (Hm {| world := w; doc := None; page := None |}).
  by destruct (m _) as [r f].
Qed.

Lemma keeps_preserves_set_doc (I : World -> Prop) d :
  keeps (preserves (in_frame I)) (set_doc d).
Proof. apply keeps_modify. by intros f H. Qed.

Lemma keeps_preserves_set_page (I : World -> Prop) p :
  keeps (preserves (in_frame I)) (set_page p).
Proof. apply keeps_modify. by intros f H. Qed.

End TimerFacts.

(** Walks through code that keeps the idle timer consistent. *)
Ltac timer_effects_using known :=
  trace_effects_using
    ltac:(first
      [ known
      | apply keeps_timer_emit | apply keeps_timer_clearWorkerIdleTimer
      | apply keeps_timer_touchWorkerIdleTimer | apply keeps_timer_set_sharedWorker
      | apply keeps_preserves_inWorld | apply keeps_preserves_withLocals
      | apply keeps_preserves_set_doc | apply keeps_preserves_set_page ]).

Section TimerInvariant.
Import JS Obsidian Pdf PdfSpec.

Lemma keeps_timer_tryCreateWorker pdfjs :
  keeps (preserves timer_consistent) (tryCreateWorker pdfjs).
Proof. unfold tryCreateWorker. timer_effects_using fail. Qed.

Lemma keeps_timer_getSharedWorkerInstance pdfjs :
  keeps (preserves timer_consistent) (getSharedWorkerInstance pdfjs).
Proof.
  unfold getSharedWorkerInstance.
  timer_effects_using ltac:(apply keeps_timer_tryCreateWorker).
Qed.

Lemma keeps_timer_renderPage env pdfFile options :
  keeps (preserves (in_frame timer_consistent)) (renderPage env pdfFile options).
Proof.
  unfold renderPage, openDocument, canvasToBlob.
  timer_effects_using ltac:(apply keeps_timer_getSharedWorkerInstance).
Qed.

Lemma keeps_timer_renderFailed pdfFile e :
  keeps (preserves (in_frame timer_consistent)) (renderFailed pdfFile e).
Proof. unfold renderFailed, logOnce. timer_effects_using fail. Qed.

(** [release()] may change the active count; the [touchWorkerIdleTimer]
    that follows it makes the timer consistent again. *)
Lemma keeps_timer_release_touch i :
  keeps (preserves (in_frame timer_consistent))
        (inWorld (releaseRender i) ;;; inWorld touchWorkerIdleTimer).
Proof.
  intros f H. unfold bind, inWorld at 1, releaseRender.
  destruct (Limiter.release i (renderLimiter (world f))) as [l|]; simpl; [|done].
  unfold inWorld.
  destruct (touchWorkerIdleTimer _) as [r w'] eqn:E. simpl. unfold in_frame. simpl.
  change w' with (r, w').2. rewrite <- E.
  apply touchWorkerIdleTimer_consistent. apply timer_consistent_shape in H.
  revert H. unfold timer_shape. simpl. done.
Qed.

Lemma keeps_timer_renderDone i :
  keeps (preserves (in_frame timer_consistent)) (renderDone i).
Proof.
  unfold renderDone.
  timer_effects_using ltac:(apply keeps_timer_release_touch).
Qed.

Lemma keeps_timer_renderWithPermit env pdfFile options i :
  keeps (preserves timer_consistent) (renderWithPermit env pdfFile options i).
Proof.
  unfold renderWithPermit.
  timer_effects_using ltac:(first [ apply keeps_timer_renderPage
                                  | apply keeps_timer_renderFailed
                                  | apply keeps_timer_renderDone ]).
Qed.

Lemma destroySharedWorker_consistent w :
  timer_shape w -> timer_consistent (destroySharedWorker w).2.
Proof.
  intros H.
  destruct (clearWorkerIdleTimer_shape w H) as (Hid & Hts & _).
  assert (Hrest : keeps (fun w0 w1 => workerIdleTimerId w1 = workerIdleTimerId w0
                                      /\ timeouts w1 = timeouts w0)
                    (let* w := get in
                     set_sharedWorker None ;;;
                     match sharedWorker w with
                     | None => ret tt
                     | Some wk =>
                         match worker_destroy wk with
                         | Absent => ret tt
                         | Method throws =>
                             try_catch (emit (EvWorkerDestroy (worker_id wk)) ;;;
                                        optional_call (Method throws))
                                       (fun _ => ret tt)
                         end
                     end)).
  { assert (PreOrder (fun w0 w1 : World =>
              workerIdleTimerId w1 = workerIdleTimerId w0 /\ timeouts w1 = timeouts w0)).
    { split; [done|]. intros ??? [-> ->] [-> ->]. done. }
    repeat first
      [ apply keeps_modify; by intros ?
      | match goal with
        | |- keeps ?R (ret _) => apply (keeps_ret R)
        | |- keeps ?R get => apply (keeps_get R)
        | |- keeps ?R (call _) => apply (keeps_call R)
        | |- keeps ?R (optional_call _) => apply (keeps_optional_call R)
        | |- keeps ?R (bind _ _) => apply (keeps_bind R); [|intros ?]
        | |- keeps ?R (try_catch _ _) => apply (keeps_try_catch R); [|intros ?]
        | |- keeps _ (match ?x with _ => _ end) => destruct x
        end ]. }
  unfold destroySharedWorker.
  set (w0 := (clearWorkerIdleTimer w).2) in *.
  rewrite (bind_ok _ _ w tt w0) by reflexivity.
  destruct (Hrest w0) as [Hid' Hts'].
  unfold timer_consistent. rewrite Hid', Hid, Hts'. done.
Qed.

Lemma acquireRender_timer w :
  workerIdleTimerId (acquireRender w).2 = workerIdleTimerId w
  /\ timeouts (acquireRender w).2 = timeouts w.
Proof.
  unfold acquireRender.
  destruct (Limiter.acquireOne (renderLimiter w)) as [[i l]|]; [|done].
  by destruct (bool_decide _).
Qed.

(** The idle timer stays consistent.  In a state where the timer the module
    holds is the only pending timeout, and is held only while a shared worker
    exists and no render is active, every operation of the module leaves such
    a state again: a thumbnail request (whether it completes, is refused or
    is left waiting for a permit), the resumption of a request whose permit
    was granted, the expiry of any timeout, and the helper functions. *)
Theorem idle_timer_invariant (env : Env) (pdfFile : TFile)
    (options : PdfCoverThumbnailOptions) (i id : nat) (pdfjs : PdfJs) (w : World) :
  timer_consistent w ->
  timer_consistent (renderPdfCoverThumbnail env pdfFile options w).2
  /\ timer_consistent (renderWithPermit env pdfFile options i w).2
  /\ timer_consistent (fireTimeout id w).2
  /\ timer_consistent (destroySharedWorker w).2
  /\ timer_consistent (touchWorkerIdleTimer w).2
  /\ timer_consistent (getSharedWorkerInstance pdfjs w).2.
Proof.
  intros H. pose proof (timer_consistent_shape w H) as Hshape.
  split; [|split; [|split; [|split; [|split]]]].
  - unfold renderPdfCoverThumbnail.
    destruct (negb _); [exact H|].
    destruct (_ <? _).
    + revert H. apply (keeps_bind (preserves timer_consistent)).
      * apply keeps_timer_emit.
      * intros ?. apply (keeps_ret (preserves timer_consistent)).
    + destruct (clearWorkerIdleTimer_shape w Hshape) as (Hid & Hts & _).
      set (w0 := (clearWorkerIdleTimer w).2) in *.
      rewrite (bind_ok _ _ w tt w0) by reflexivity.
      destruct (acquireRender_timer w0) as [Hid1 Hts1].
      assert (H1 : timer_consistent (acquireRender w0).2)
        by (unfold timer_consistent; by rewrite Hid1, Hid, Hts1).
      unfold bind. destruct (acquireRender w0) as [[j|e|] w1]; simpl in *; [|done..].
      by apply keeps_timer_renderWithPermit.
  - by apply keeps_timer_renderWithPermit.
  - unfold fireTimeout. rewrite (bind_ok _ _ w w w) by reflexivity.
    destruct (bool_decide _); [|exact H].
    match goal with
    | |- context [bind (modify ?f) _] => set (w1 := f w)
    end.
    rewrite (bind_ok _ _ w tt w1) by reflexivity.
    assert (Hshape1 : timer_shape w1).
    { revert Hshape. unfold timer_shape, w1. simpl.
      destruct (workerIdleTimerId w) as [t|]; intros Hts.
      - by apply clearTimeout_nil_clearTimeout.
      - by rewrite Hts. }
    unfold idleTimerCallback.
    rewrite (bind_ok _ _ w1 (Limiter.getActiveCount (renderLimiter w1)) w1)
      by reflexivity.
    destruct (0 <? _).
    + by apply touchWorkerIdleTimer_consistent.
    + by apply destroySharedWorker_consistent.
  - by apply destroySharedWorker_consistent.
  - by apply touchWorkerIdleTimer_consistent.
  - by apply keeps_timer_getSharedWorkerInstance.
Qed.

Lemma idle_timer_invariant_witness :
  timer_consistent idle_world
  /\ timer_consistent (fireTimeout 0 idle_world).2
  /\ timer_consistent
       (renderPdfCoverThumbnail (platform working_pdfjs) small_pdf thumbnail_options
          idle_world).2.
Proof.
  assert (H : timer_consistent idle_world).
  { unfold timer_consistent. simpl. split; [done|]. split; [done|]. by vm_compute. }
  split; [exact H|].
  destruct (idle_timer_invariant (platform working_pdfjs) small_pdf thumbnail_options
              0 0 working_pdfjs idle_world H) as (Hrender & _ & Hfire & _).
  split; [exact Hfire|exact Hrender].
Defined.

(** In a consistent state an expiring idle timer always destroys the
    worker: no render is active when it fires, so the callback does not
    take its other branch.  Afterwards the module holds neither worker nor
    timer and no timeout is pending. *)
Theorem idle_timer_fires_idle (id : nat) (w : World) :
  timer_consistent w ->
  id ∈ (timeouts w).*1 ->
  (fireTimeout id w).1 = Ok tt
  /\ sharedWorker (fireTimeout id w).2 = None
  /\ workerIdleTimerId (fireTimeout id w).2 = None
  /\ timeouts (fireTimeout id w).2 = [].
Proof.
  intros H Hin.
  assert (Hcount : Limiter.getActiveCount (renderLimiter w) <= 0).
  { unfold timer_consistent in H. destruct (workerIdleTimerId w); [by destruct H as (_ & _ & ?)|].
    rewrite H in Hin. by apply elem_of_nil in Hin. }
  assert (Hafter : timer_consistent (fireTimeout id w).2).
  { pose proof (timer_consistent_shape w H) as Hshape.
    unfold fireTimeout. rewrite (bind_ok _ _ w w w) by reflexivity.
    rewrite bool_decide_eq_true_2 by done.
    match goal with
    | |- context [bind (modify ?f) _] => set (w1 := f w)
    end.
    rewrite (bind_ok _ _ w tt w1) by reflexivity.
    unfold idleTimerCallback.
    rewrite (bind_ok _ _ w1 (Limiter.getActiveCount (renderLimiter w1)) w1)
      by reflexivity.
    change (renderLimiter w1) with (renderLimiter w).
    rewrite (proj2 (Z.ltb_ge _ _) Hcount).
    apply destroySharedWorker_consistent.
    revert Hshape. unfold timer_shape, w1. simpl.
    destruct (workerIdleTimerId w) as [t|]; intros Hts.
    - by apply clearTimeout_nil_clearTimeout.
    - by rewrite Hts. }
  revert Hafter. unfold fireTimeout. rewrite (bind_ok _ _ w w w) by reflexivity.
  rewrite bool_decide_eq_true_2 by done.
  match goal with
  | |- context [bind (modify ?f) _] => set (w1 := f w)
  end.
  rewrite (bind_ok _ _ w tt w1) by reflexivity.
  unfold idleTimerCallback.
  rewrite (bind_ok _ _ w1 (Limiter.getActiveCount (renderLimiter w1)) w1)
    by reflexivity.
  change (renderLimiter w1) with (renderLimiter w).
  rewrite (proj2 (Z.ltb_ge _ _) Hcount).
  destruct (destroySharedWorker_destroys w1) as (w2 & -> & Hs & Ht & _).
  simpl. unfold timer_consistent. rewrite Ht. done.
Qed.

Lemma idle_timer_fires_idle_witness :
  sharedWorker (fireTimeout 0 idle_world).2 = None
  /\ timeouts (fireTimeout 0 idle_world).2 = [].
Proof.
  assert (H : timer_consistent idle_world).
  { unfold timer_consistent. simpl. split; [done|]. split; [done|]. by vm_compute. }
  assert (Hin : 0%nat ∈ (timeouts idle_world).*1) by (by apply list_elem_of_singleton).
  destruct (idle_timer_fires_idle 0 idle_world H Hin) as (_ & Hs & _ & Ht).
  split; [exact Hs|exact Ht].
Defined.

End TimerInvariant.

#[global] Instance same_locals_preorder : PreOrder PdfSpec.same_locals.
Proof.
  split; [done|]. intros f1 f2 f3 [Hd1 Hp1] [Hd2 Hp2].
  split; [by rewrite Hd2|by rewrite Hp2].
Qed.

Section FinallyFacts.
Import JS Obsidian Pdf PdfSpec.

Lemma adds_by (P Q : Event -> Prop) (w w' : World) :
  (forall e, P e -> Q e) -> adds P w w' -> adds Q w w'.
Proof.
  intros HPQ (evs & Ht & Hf). exists evs. split; [done|].
  eapply Forall_impl; [exact Hf|done].
Qed.

Lemma keeps_locals_inWorld {A} (m : M World A) : keeps same_locals (inWorld m).
Proof. intros f. unfold inWorld. by destruct (m (world f)). Qed.

Lemma not_finalizer_emit e : is_finalizer e = false -> keeps (adds not_finalizer) (emit e).
Proof. intros He. by apply keeps_emit. Qed.

(** Opening the document, from the URL or from the bytes. *)
Lemma open_document_step env pdfFile pdfjs url d wk f :
  opens_document env pdfjs pdfFile url d ->
  exists f2,
    try_catch
      (openDocument pdfjs (document_params (FromUrl url) wk))
      (fun _ =>
         let* buffer := (inWorld (emit (EvReadBinary (path pdfFile))) ;;;
                         call (readBinary env (path pdfFile))) in
         openDocument pdfjs (document_params (FromData buffer) wk)) f
    = (Ok d, f2)
    /\ doc f2 = doc f /\ page f2 = page f
    /\ renderLimiter (world f2) = renderLimiter (world f)
    /\ sharedWorker (world f2) = sharedWorker (world f)
    /\ adds (fun e => is_finalizer e = false /\ uses_worker wk e) (world f) (world f2).
Proof.
  intros Hopen. destruct (Hopen wk) as [Hd|(e & buffer & He & Hread & Hd)].
  - eexists. split; [by apply try_catch_ok, openDocument_returns|].
    repeat (split; [done|]). eexists [_]. split; [reflexivity|].
    by repeat constructor.
  - eexists. split.
    { rewrite (try_catch_throw _ _ _ _ _ (openDocument_raises _ _ _ f He)).
      erewrite bind_ok;
        [|erewrite bind_ok; [|reflexivity]; by apply call_returns].
      by apply openDocument_returns. }
    repeat (split; [done|]). eexists [_; _; _]. split; [by simpl; rewrite <- !app_assoc|].
    by repeat constructor.
Qed.

(** The [try] block up to [page = firstPage]. *)
Lemma renderPage_to_page env pdfFile options pdfjs url d p f :
  loadPdfJs env = Returns pdfjs ->
  getResourcePath env pdfFile = Returns url ->
  opens_document env pdfjs pdfFile url d ->
  getPage d 1 = Returns (Page p) ->
  exists f5,
    renderPage env pdfFile options f = page_to_blob env options p f5
    /\ doc f5 = Some d /\ page f5 = Some p
    /\ renderLimiter (world f5) = renderLimiter (world f)
    /\ adds not_finalizer (world f) (world f5).
Proof.
  intros Hload Hurl Hopen Hpage. unfold renderPage.
  set (f0 := {| world := (emit EvLoadPdfJs (world f)).2; doc := doc f; page := page f |}).
  destruct (returns_inWorld _ (returns_getSharedWorkerInstance pdfjs) f0)
    as (worker & f1 & Hget & [Hl1 _]).
  pose proof (keeps_inWorld not_finalizer _
                (keeps_getSharedWorkerInstance not_finalizer eq_refl pdfjs) f0) as Ha1.
  pose proof (keeps_locals_inWorld (getSharedWorkerInstance pdfjs) f0) as [Hd1 Hp1].
  rewrite Hget in Ha1, Hd1, Hp1. cbn [snd] in Ha1, Hd1, Hp1.
  rewrite (bind_ok _ _ f pdfjs f0); [|unfold bind, inWorld; simpl; by rewrite Hload].
  rewrite (bind_ok _ _ _ worker f1) by exact Hget.
  rewrite (bind_ok _ _ f1 url f1) by (by apply call_returns).
  cbv zeta.
  destruct (open_document_step env pdfFile pdfjs url d worker f1 Hopen)
    as (f2 & Hstep & Hd2 & Hp2 & Hl2 & _ & Ha2).
  rewrite (bind_ok _ _ f1 d f2) by exact Hstep.
  set (f3 := {| world := world f2; doc := Some d; page := page f2 |}).
  rewrite (bind_ok _ _ f2 tt f3) by reflexivity.
  set (f4 := {| world := (emit (EvGetPage 1) (world f3)).2; doc := doc f3; page := page f3 |}).
  rewrite (bind_ok _ _ f3 (Page p) f4)
    by (rewrite (bind_ok _ _ f3 tt f4) by reflexivity; by apply call_returns).
  cbv iota beta.
  set (f5 := {| world := world f4; doc := doc f4; page := Some p |}).
  rewrite (bind_ok _ _ f4 tt f5) by reflexivity.
  exists f5. split; [reflexivity|]. split; [done|]. split; [done|].
  split; [simpl; by rewrite Hl2, Hl1|].
  etrans; [by apply (keeps_emit not_finalizer EvLoadPdfJs eq_refl (world f))|].
  etrans; [exact Ha1|].
  etrans; [eapply adds_by; [|exact Ha2]; by intros e [He _]|].
  by apply (keeps_emit not_finalizer (EvGetPage 1) eq_refl (world f3)).
Qed.

Lemma keeps_page_to_blob env options p :
  keeps (adds_frame not_finalizer) (page_to_blob env options p).
Proof.
  unfold page_to_blob, canvasToBlob. cbv zeta.
  trace_effects_using ltac:(by apply keeps_emit).
Qed.

Lemma keeps_locals_page_to_blob env options p :
  keeps same_locals (page_to_blob env options p).
Proof.
  unfold page_to_blob. cbv zeta.
  trace_effects_using ltac:(apply keeps_locals_inWorld).
Qed.

(** The guarded [try] block, when the first page is obtained: it returns
    what the rest of the block returns, or [null] when that raises, with
    [doc] and [page] set. *)
Lemma guarded_with_page env pdfFile options pdfjs url d p f :
  loadPdfJs env = Returns pdfjs ->
  getResourcePath env pdfFile = Returns url ->
  opens_document env pdfjs pdfFile url d ->
  getPage d 1 = Returns (Page p) ->
  exists f5 b f7,
    try_catch (renderPage env pdfFile options) (renderFailed pdfFile) f = (Ok b, f7)
    /\ ((page_to_blob env options p f5).1 = Ok b
        \/ exists e, (page_to_blob env options p f5).1 = Throw e /\ b = None)
    /\ doc f7 = Some d /\ page f7 = Some p
    /\ renderLimiter (world f7) = renderLimiter (world f)
    /\ adds not_finalizer (world f) (world f7).
Proof.
  intros Hload Hurl Hopen Hpage.
  destruct (renderPage_to_page env pdfFile options pdfjs url d p f Hload Hurl Hopen Hpage)
    as (f5 & Erun & Hd5 & Hp5 & Hl5 & Ha5).
  destruct (ends_page_to_blob env options p f5) as (r & f6 & E6 & Hr & [Hl6 _]).
  pose proof (keeps_page_to_blob env options p f5) as Ha6.
  pose proof (keeps_locals_page_to_blob env options p f5) as [Hd6 Hp6].
  rewrite E6 in Ha6, Hd6, Hp6. cbn [snd] in Ha6, Hd6, Hp6.
  assert (Ha : adds not_finalizer (world f) (world f6)) by (by etrans).
  exists f5. unfold try_catch. rewrite Erun, E6. cbn [fst].
  destruct r as [b|e|]; [| |done].
  - exists b, f6. split; [done|]. split; [by left|].
    split; [congruence|]. split; [congruence|]. split; [congruence|done].
  - exists None, {| world := (emit (EvLogOnce (js "pdf-cover:" ++ path pdfFile)) (world f6)).2;
                    doc := doc f6; page := page f6 |}.
    split; [reflexivity|]. split; [right; by exists e|].
    split; [simpl; congruence|]. split; [simpl; congruence|].
    split; [simpl; congruence|].
    etrans; [exact Ha|]. by apply not_finalizer_emit.
Qed.

Lemma page_cleanup_runs f :
  try_catch
    (let* f := get in
     match page f with
     | None => ret tt
     | Some p =>
         match cleanup p with
         | Absent => ret tt
         | m => inWorld (emit EvPageCleanup) ;;; optional_call m
         end
     end)
    (fun _ => ret tt) f
  = (Ok tt, {| world := {| sharedWorker := sharedWorker (world f);
                           workerIdleTimerId := workerIdleTimerId (world f);
                           timeouts := timeouts (world f);
                           nextTimeout := nextTimeout (world f);
                           renderLimiter := renderLimiter (world f);
                           trace := trace (world f) ++ cleanup_calls (page f) |};
               doc := doc f; page := page f |}).
Proof.
  destruct f as [[sw tid ts nt lim tr] dd [p|]];
    unfold cleanup_calls, try_catch, bind, get, ret, inWorld, emit, modify, optional_call, call;
    simpl; [|by rewrite app_nil_r].
  destruct (cleanup p) as [|[]]; simpl; by rewrite ?app_nil_r.
Qed.

Lemma document_destroy_runs f :
  try_catch
    (let* f := get in
     match doc f with
     | None => ret tt
     | Some d =>
         match destroy d with
         | Absent => ret tt
         | m => inWorld (emit EvDocumentDestroy) ;;; optional_call m
         end
     end)
    (fun _ => ret tt) f
  = (Ok tt, {| world := {| sharedWorker := sharedWorker (world f);
                           workerIdleTimerId := workerIdleTimerId (world f);
                           timeouts := timeouts (world f);
                           nextTimeout := nextTimeout (world f);
                           renderLimiter := renderLimiter (world f);
                           trace := trace (world f) ++ destroy_calls (doc f) |};
               doc := doc f; page := page f |}).
Proof.
  destruct f as [[sw tid ts nt lim tr] [d|] pp];
    unfold destroy_calls, try_catch, bind, get, ret, inWorld, emit, modify, optional_call, call;
    simpl; [|by rewrite app_nil_r].
  destruct (destroy d) as [|[]]; simpl; by rewrite ?app_nil_r.
Qed.


(** The [finally] block with a permit that is held: what it calls, in
    order. *)
Lemma renderDone_runs i f :
  is_Some (Limiter.permits (renderLimiter (world f)) !! i) ->
  exists f',
    renderDone i f = (Ok tt, f')
    /\ trace (world f')
       = trace (world f) ++ cleanup_calls (page f) ++ destroy_calls (doc f) ++ [EvRelease i].
Proof.
  intros [wt Hwt]. unfold renderDone.
  rewrite (bind_ok _ _ f tt _ (page_cleanup_runs f)).
  match goal with |- context [bind _ _ ?f1] => set (g1 := f1) end.
  rewrite (bind_ok _ _ g1 tt _ (document_destroy_runs g1)).
  match goal with |- context [bind _ _ ?f2] => set (g2 := f2) end.
  assert (Hrel : exists l2, Limiter.release i (renderLimiter (world g2)) = Some l2).
  { unfold Limiter.release. simpl. rewrite Hwt. by eexists. }
  destruct Hrel as [l2 Hrel].
  set (w3 := (emit (EvRelease i) (set_renderLimiter l2 (world g2))).2).
  destruct (touchWorkerIdleTimer_fields w3) as (w4 & E4 & _ & Ht4 & _).
  exists {| world := w4; doc := doc g2; page := page g2 |}.
  rewrite (bind_ok _ _ g2 tt {| world := w3; doc := doc g2; page := page g2 |}).
  2:{ unfold inWorld, releaseRender. by rewrite Hrel. }
  split.
  - unfold inWorld. simpl. by rewrite E4.
  - simpl. rewrite Ht4. simpl. by rewrite <- !app_assoc.
Qed.




Lemma busy_world_permit : is_Some (Limiter.permits (renderLimiter busy_world) !! 0%nat).
Proof. eexists. vm_compute. reflexivity. Qed.


Lemma pdfjs_bytes_only_opens :
  opens_document (platform pdfjs_bytes_only) pdfjs_bytes_only small_pdf
    (js "app://local/" ++ path small_pdf) one_page_document.
Proof. intros wk. right. eexists _, _. repeat split. Qed.


(** The rest of the [try] block when the page renders: it returns the
    encoded canvas, or raises when the encoder gives nothing. *)
Lemma page_to_blob_result env options p base v f :
  getViewport p num_one = Returns base ->
  getViewport p (thumbnail_scale options base) = Returns v ->
  getContext2d env (thumbnail_canvas v) = true ->
  render p (thumbnail_canvas v) v = Returns tt ->
  (page_to_blob env options p f).1 = Ok (encoded env options (thumbnail_canvas v))
  \/ exists e, (page_to_blob env options p f).1 = Throw e
               /\ encoded env options (thumbnail_canvas v) = None.
Proof.
  unfold thumbnail_scale, thumbnail_canvas, encoded.
  intros Hbase Hview Hctx Hrender. unfold page_to_blob.
  rewrite (bind_ok _ _ f base f) by (by apply call_returns).
  cbv zeta. rewrite (bind_ok _ _ f v f) by (by apply call_returns).
  rewrite Hctx. cbv [negb].
  set (f1 := {| world := (emit EvRender (world f)).2; doc := doc f; page := page f |}).
  rewrite (bind_ok _ _ f tt f1)
    by (rewrite (bind_ok _ _ f tt f1) by reflexivity; by apply call_returns).
  unfold canvasToBlob, bind, inWorld, emit, modify, call. simpl.
  destruct (toBlob env _ (mimeType options) (quality options)) as [[b|]|e]; simpl.
  - by left.
  - destruct (toBlob env _ (js "image/png") None) as [b2|e2]; simpl;
      [by left|right; by exists e2].
  - right. by exists e.
Qed.

(** The thumbnail that is returned.  When pdf.js opens the document (from
    its URL, or from the bytes of the file when pdf.js raised on the URL),
    the first page gives its viewports, a 2d context is available and
    rendering succeeds, the call returns the canvas encoded in the requested
    format and quality; when the canvas gives no blob in that format it is
    encoded again as PNG with no quality, and when the encoder gives nothing
    or raises the result is [null].  The page is drawn at the scale that
    [calculateScale] gives for its size at scale 1, on the canvas whose
    width and height were set to [Math.max(1, Math.ceil(size))] of the
    viewport. *)
Theorem thumbnail_encoded (env : Env) (pdfFile : TFile)
    (options : PdfCoverThumbnailOptions) (i : nat) (w : World)
    (pdfjs : PdfJs) (url : JSString) (d : PdfDocument) (p : PdfPage)
    (base v : PdfViewport) :
  loadPdfJs env = Returns pdfjs ->
  getResourcePath env pdfFile = Returns url ->
  opens_document env pdfjs pdfFile url d ->
  getPage d 1 = Returns (Page p) ->
  getViewport p num_one = Returns base ->
  getViewport p (thumbnail_scale options base) = Returns v ->
  getContext2d env (thumbnail_canvas v) = true ->
  render p (thumbnail_canvas v) v = Returns tt ->
  is_Some (Limiter.permits (renderLimiter w) !! i) ->
  (renderWithPermit env pdfFile options i w).1
  = Ok (encoded env options (thumbnail_canvas v)).
Proof.
  intros Hload Hurl Hopen Hpage Hbase Hview Hctx Hrender Hheld.
  unfold renderWithPermit, withLocals, try_finally.
  set (f0 := {| world := w; doc := None; page := None |}).
  destruct (guarded_with_page env pdfFile options pdfjs url d p f0 Hload Hurl Hopen Hpage)
    as (f5 & b & f7 & -> & Hb & _ & _ & Hl7 & _).
  assert (Hheld7 : is_Some (Limiter.permits (renderLimiter (world f7)) !! i))
    by (by rewrite Hl7).
  destruct (renderDone_runs i f7 Hheld7) as (f8 & -> & _).
  simpl. f_equal.
  destruct (page_to_blob_result env options p base v f5 Hbase Hview Hctx Hrender)
    as [Hr|(e & Hr & Hnone)]; destruct Hb as [Hb|(e' & Hb & ->)]; congruence.
Qed.

Lemma thumbnail_encoded_witness :
  (renderWithPermit (platform pdfjs_bytes_only) small_pdf thumbnail_options 0 busy_world).1
  = Ok (Some {| blob_type := mimeType thumbnail_options; blob_size := 2048 |}).
Proof.
  pose proof (thumbnail_encoded (platform pdfjs_bytes_only) small_pdf thumbnail_options
                0 busy_world pdfjs_bytes_only (js "app://local/" ++ path small_pdf)
                one_page_document letter_page _ _ eq_refl eq_refl pdfjs_bytes_only_opens
                eq_refl eq_refl eq_refl) as H.
  specialize (H eq_refl). specialize (H eq_refl).
  exact (H busy_world_permit).
Defined.

End FinallyFacts.

Section CanvasFacts.
Import JS Pdf PdfSpec.

Lemma digits2_pos_bounds (m : positive) :
  2 ^ (Z.pos (digits2_pos m) - 1) <= Z.pos m < 2 ^ Z.pos (digits2_pos m).
Proof.
  induction m as [m IH|m IH|]; simpl digits2_pos.
  - rewrite Pos2Z.inj_succ, Z.pow_succ_r by lia.
    replace (Z.succ (Z.pos (digits2_pos m)) - 1)
      with (Z.succ (Z.pos (digits2_pos m) - 1)) by lia.
    rewrite Z.pow_succ_r by lia. lia.
  - rewrite Pos2Z.inj_succ, Z.pow_succ_r by lia.
    replace (Z.succ (Z.pos (digits2_pos m)) - 1)
      with (Z.succ (Z.pos (digits2_pos m) - 1)) by lia.
    rewrite Z.pow_succ_r by lia. lia.
  - simpl. lia.
Qed.

(** A binary64 number with an exponent between -52 and 0 has a mantissa of
    53 bits; one with an exponent below -52 has at most 53. *)
Lemma valid_mantissa (s : bool) (m : positive) (e : Z) :
  valid_binary prec emax (S754_finite s m e) = true ->
  (-1074 < e -> 2 ^ 52 <= Z.pos m) /\ Z.pos m < 2 ^ 53.
Proof.
  simpl. unfold bounded, canonical_mantissa, fexp, SpecFloat.emin, prec, emax.
  intros [Hc _]%andb_true_iff. apply Z.eqb_eq in Hc.
  pose proof (digits2_pos_bounds m) as [Hlo Hhi].
  split.
  - intros He. assert (Z.pos (digits2_pos m) = 53) as Hd by lia.
    rewrite Hd in Hlo. exact Hlo.
  - assert (Z.pos (digits2_pos m) <= 53) by lia.
    eapply Z.lt_le_trans; [exact Hhi|]. apply Z.pow_le_mono_r; lia.
Qed.

(** [Math.max(1, x)] for a positive number [x], by the exponent and the
    mantissa of [x]. *)
Lemma Math_max_one_finite (m : positive) (e : Z) :
  Math_max num_one (S754_finite false m e)
  = match (-52 ?= e) with
    | Lt => S754_finite false m e
    | Gt => num_one
    | Eq =>
        match (4503599627370496 ?= m)%positive with
        | Lt => S754_finite false m e
        | _ => num_one
        end
    end.
Proof.
  unfold Math_max, num_lt, SFltb, num_one. rewrite !SFcompare_finite.
  cbn [is_nan orb is_pos_zero].
  rewrite (Z.compare_antisym (-52) e), (Pos.compare_antisym 4503599627370496 m).
  destruct (-52 ?= e); cbn [CompOpp]; [|reflexivity|reflexivity].
  destruct (4503599627370496 ?= m)%positive; reflexivity.
Qed.

Lemma set_canvas_side_one (default : Z) : set_canvas_side default num_one = 1.
Proof. vm_compute. reflexivity. Qed.

Lemma set_canvas_side_small (default : Z) (s : bool) (m : positive) (e : Z) :
  0 <= IntegerPart (S754_finite s m e) < 2 ^ 31 ->
  set_canvas_side default (S754_finite s m e) = IntegerPart (S754_finite s m e).
Proof.
  intros Hn. unfold set_canvas_side, to_unsigned_long.
  cbv zeta. rewrite Z.mod_small by lia.
  destruct (Z.leb_spec (IntegerPart (S754_finite s m e)) 2147483647); lia.
Qed.

Lemma IntegerPart_finite (m : positive) (e : Z) :
  IntegerPart (S754_finite false m e)
  = if 0 <=? e then Z.pos m * 2 ^ e else Z.pos m / 2 ^ (- e).
Proof. reflexivity. Qed.

(** The side that a canvas gets from [Math.max(1, size)], for a rounded
    viewport size that is a binary64 number below 2^31: the integer part of
    the size, and 1 when that is less. *)
Lemma canvas_side_of_number (default : Z) (c : number) :
  valid_binary prec emax c = true ->
  is_nan c = false -> c <> S754_infinity false -> IntegerPart c < 2 ^ 31 ->
  set_canvas_side default (Math_max num_one c) = Z.max 1 (IntegerPart c).
Proof.
  intros Hvalid Hnan Hinf Hsmall.
  destruct c as [s|s| |s m e].
  { destruct s; vm_compute; reflexivity. }
  { destruct s; [vm_compute; reflexivity|done]. }
  { discriminate. }
  destruct s.
  { (* a negative size *)
    assert (Hmax : Math_max num_one (S754_finite true m e) = num_one) by reflexivity.
    rewrite Hmax, set_canvas_side_one.
    assert (IntegerPart (S754_finite true m e) <= 0); [|lia].
    unfold IntegerPart.
    destruct (0 <=? e) eqn:He; [apply Z.leb_le in He; nia|].
    apply Z.leb_gt in He.
    assert (0 <= Z.pos m / 2 ^ (- e)); [|lia].
    apply Z.div_pos; [lia|]. apply Z.pow_pos_nonneg; lia. }
  destruct (valid_mantissa false m e Hvalid) as [Hlo Hhi].
  rewrite Math_max_one_finite. rewrite IntegerPart_finite in Hsmall |- *.
  destruct (Z.compare_spec (-52) e) as [He|He|He].
  - (* the exponent of 1 *)
    subst e. change (0 <=? -52) with false in *. cbv iota in *.
    change (- -52) with 52 in *.
    rewrite Pos2Z.inj_compare.
    destruct (Z.compare_spec (Z.pos 4503599627370496) (Z.pos m)) as [Hm|Hm|Hm].
    + rewrite set_canvas_side_one, <- Hm. vm_compute. reflexivity.
    + assert (1 <= Z.pos m / 2 ^ 52) by (apply Z.div_le_lower_bound; lia).
      rewrite set_canvas_side_small; rewrite IntegerPart_finite;
        change (0 <=? -52) with false; cbv iota; change (- -52) with 52; lia.
    + exfalso. assert (Hlo' : 2 ^ 52 <= Z.pos m) by (by apply Hlo).
      clear -Hlo' Hm. lia.
  - (* above 1 *)
    assert (1 <= (if 0 <=? e then Z.pos m * 2 ^ e else Z.pos m / 2 ^ (- e))).
    { destruct (0 <=? e) eqn:He0.
      - apply Z.leb_le in He0. assert (0 < 2 ^ e) by (apply Z.pow_pos_nonneg; lia). nia.
      - apply Z.leb_gt in He0. apply Z.div_le_lower_bound.
        + apply Z.pow_pos_nonneg; lia.
        + assert (2 ^ (- e) <= 2 ^ 52) by (apply Z.pow_le_mono_r; lia).
          specialize (Hlo ltac:(lia)). lia. }
    rewrite set_canvas_side_small; rewrite IntegerPart_finite; lia.
  - (* below 1 *)
    rewrite set_canvas_side_one.
    rewrite (proj2 (Z.leb_gt 0 e)) by lia.
    assert (Z.pos m / 2 ^ (- e) = 0); [|lia].
    apply Z.div_small. split; [lia|].
    eapply Z.lt_le_trans; [exact Hhi|]. apply Z.pow_le_mono_r; lia.
Qed.

(** The canvas is at least one pixel wide when the rounded viewport width
    is a binary64 number whose integer part is below 2^31: its width is
    then that integer part, or 1 when the width is smaller (zero, negative,
    minus infinity); the same holds for the height.  When a rounded size
    is NaN or plus infinity the side is 0: [Math.max(1, size)] is then NaN
    or infinite and the canvas attribute converts it to 0. *)
Theorem canvas_at_least_one_pixel (v : PdfViewport) :
  (valid_binary prec emax (Math_ceil (width v)) = true ->
   is_nan (Math_ceil (width v)) = false ->
   Math_ceil (width v) <> S754_infinity false ->
   IntegerPart (Math_ceil (width v)) < 2 ^ 31 ->
   canvas_width (thumbnail_canvas v) = Z.max 1 (IntegerPart (Math_ceil (width v)))
   /\ 1 <= canvas_width (thumbnail_canvas v) < 2 ^ 31)
  /\ (valid_binary prec emax (Math_ceil (height v)) = true ->
      is_nan (Math_ceil (height v)) = false ->
      Math_ceil (height v) <> S754_infinity false ->
      IntegerPart (Math_ceil (height v)) < 2 ^ 31 ->
      canvas_height (thumbnail_canvas v) = Z.max 1 (IntegerPart (Math_ceil (height v)))
      /\ 1 <= canvas_height (thumbnail_canvas v) < 2 ^ 31)
  /\ (is_nan (Math_ceil (width v)) = true \/ Math_ceil (width v) = S754_infinity false ->
      canvas_width (thumbnail_canvas v) = 0)
  /\ (is_nan (Math_ceil (height v)) = true \/ Math_ceil (height v) = S754_infinity false ->
      canvas_height (thumbnail_canvas v) = 0).
Proof.
  assert (Hzero : forall default c,
            is_nan c = true \/ c = S754_infinity false ->
            set_canvas_side default (Math_max num_one c) = 0).
  { intros default c [Hc| ->]; [|reflexivity]. by destruct c. }
  unfold thumbnail_canvas. cbn [canvas_width canvas_height].
  split; [|split; [|split]].
  - intros Hv Hn Hi Hs.
    rewrite (canvas_side_of_number _ _ Hv Hn Hi Hs). split; [done|lia].
  - intros Hv Hn Hi Hs.
    rewrite (canvas_side_of_number _ _ Hv Hn Hi Hs). split; [done|lia].
  - apply Hzero.
  - apply Hzero.
Qed.

Lemma canvas_at_least_one_pixel_witness :
  canvas_width (thumbnail_canvas {| width := Scale.num_256; height := num_zero |}) = 256
  /\ canvas_height (thumbnail_canvas {| width := Scale.num_256; height := num_zero |}) = 1.
Proof.
  destruct (canvas_at_least_one_pixel {| width := Scale.num_256; height := num_zero |})
    as (Hw & Hh & _).
  split.
  - apply Hw; [reflexivity|reflexivity|discriminate|].
    vm_compute. reflexivity.
  - apply Hh; [reflexivity|reflexivity|discriminate|].
    vm_compute. reflexivity.
Defined.

End CanvasFacts.

(* ===================================================================== *)
(** * Further properties of the preview provider *)
(* ===================================================================== *)

Section PreviewMore.
Import JS Obsidian Preview.

(** An Excalidraw note gets the empty preview, unconditionally: whatever
    the stored record is (also when it already holds the empty preview) and
    whatever reading the note would give, [processFile] returns the update
    with the empty string and writes nothing to the console. *)
Theorem processFile_excalidraw (env : Env) (job : Job) (fileData : option FileData)
    (settings : NotebookNavigatorSettings) (console : list JSString) :
  showFilePreview settings = true ->
  extension (file job) = js "md" ->
  isExcalidrawFile env (name (file job)) (frontmatter_of (getFileCache env (file job))) = true ->
  processFile env job fileData settings console
  = (Ok (Some {| update_path := path (file job); update_preview := js "" |}), console).
Proof.
  intros Hs He Hx. rewrite processFile_enabled by done.
  unfold try_catch, generatePreview. by rewrite Hx.
Qed.

Lemma processFile_excalidraw_witness :
  processFile excalidraw_vault note_job
    (Some {| mtime := 0; preview := Some (js "") |}) preview_on []
  = (Ok (Some {| update_path := path note_md; update_preview := js "" |}), []).
Proof.
  apply (processFile_excalidraw excalidraw_vault note_job
           (Some {| mtime := 0; preview := Some (js "") |}) preview_on []);
    reflexivity.
Defined.

(** With the preview disabled, or for a file that is not a Markdown file,
    [processFile] returns [null] at once: nothing is looked up, nothing is
    read, nothing is written to the console, and [needsProcessing] rejects
    the same files. *)
Theorem processFile_skips (env : Env) (job : Job) (fileData : option FileData)
    (settings : NotebookNavigatorSettings) (console : list JSString) :
  showFilePreview settings = false \/ extension (file job) <> js "md" ->
  processFile env job fileData settings console = (Ok None, console)
  /\ needsProcessing env fileData (file job) settings = false.
Proof.
  intros H. unfold processFile, needsProcessing.
  assert (Hg : negb (showFilePreview settings)
               || negb (str_eqb (extension (file job)) (js "md")) = true).
  { destruct H as [->|H]; [done|].
    apply str_eqb_false in H. rewrite H. by rewrite orb_true_r. }
  by rewrite Hg.
Qed.

Lemma processFile_skips_witness :
  processFile unreadable_vault note_job None preview_off [] = (Ok None, [])
  /\ processFile unreadable_vault {| file := Pdf.small_pdf; job_path := [] |} None
       preview_on [] = (Ok None, []).
Proof.
  split.
  - apply (processFile_skips unreadable_vault note_job None preview_off []).
    left. reflexivity.
  - apply (processFile_skips unreadable_vault {| file := Pdf.small_pdf; job_path := [] |}
             None preview_on []).
    right. vm_compute. discriminate.
Defined.

(** The [try] block leaves the console alone, and its update, if any, is
    for the job's file. *)
Lemma generatePreview_shape (env : Env) (job : Job) (fileData : option FileData)
    (settings : NotebookNavigatorSettings) (console : list JSString) :
  exists o,
    generatePreview env job fileData settings console = (o, console)
    /\ o <> Pending
    /\ forall u, o = Ok (Some u) -> update_path u = path (file job).
Proof.
  unfold generatePreview. cbv zeta.
  destruct (isExcalidrawFile env _ _).
  { eexists. split; [reflexivity|]. split; [done|]. by intros u [= <-]. }
  destruct (readFileContent env (file job)) as [content|e] eqn:Hread.
  2:{ eexists. split; [by apply bind_throw, call_raises|]. split; [done|]. by intros u [=]. }
  rewrite (bind_ok _ _ console content console) by (by apply call_returns).
  destruct (extractPreviewText env content settings _) as [text|e] eqn:Hext.
  2:{ eexists. split; [by apply bind_throw, call_raises|]. split; [done|]. by intros u [=]. }
  rewrite (bind_ok _ _ console text console) by (by apply call_returns).
  destruct (preview_is fileData text); eexists; (split; [reflexivity|]);
    (split; [done|]); by intros u [= <-].
Qed.

(** [processFile] does not raise: whether reading the note and extracting
    its preview return or raise, it completes with a value.  Every update
    it returns is for the path of the job's file.  It calls
    [console.error] at most once, and only when generating the preview
    raised: with the message that names that path and ends in a colon, and
    with the error that was raised. *)
Theorem processFile_never_raises (env : Env) (job : Job) (fileData : option FileData)
    (settings : NotebookNavigatorSettings) (console : list JSString) :
  exists r,
    (processFile env job fileData settings console).1 = Ok r
    /\ (forall u, r = Some u -> update_path u = path (file job))
    /\ ((processFile env job fileData settings console).2 = console
        \/ exists e,
             (generatePreview env job fileData settings console).1 = Throw e
             /\ (processFile env job fileData settings console).2
                = console ++ [failure_message job; e]).
Proof.
  unfold processFile.
  destruct (negb (showFilePreview settings) || _).
  { exists None. simpl. split; [done|]. split; [done|by left]. }
  destruct (generatePreview_shape env job fileData settings console)
    as (o & Hgen & Hpend & Hpath).
  unfold try_catch. rewrite Hgen. destruct o as [r|e|]; [| |done].
  - exists r. simpl. split; [done|]. split; [|by left].
    intros u ->. by apply Hpath.
  - destruct (has_preview fileData); eexists; simpl;
      (split; [reflexivity|]); (split; [by intros u [= <-]|]);
      right; exists e; (split; [done|reflexivity]).
Qed.

(** A note that cannot be read: the error is reported once, with the
    message and the error, and the file is marked as processed. *)
Example processFile_reports_error :
  processFile unreadable_vault note_job None preview_on []
  = (Ok (Some {| update_path := path note_md; update_preview := js "" |}),
     [js "Error generating preview for notes/a.md:"; js "ENOENT"]).
Proof. vm_compute. reflexivity. Qed.

Lemma str_eqb_sym (a b : JSString) : str_eqb a b = str_eqb b a.
Proof.
  unfold str_eqb. destruct (decide (a = b)) as [->|Hne]; [done|].
  rewrite !bool_decide_eq_false_2; done.
Qed.

Lemma bool_ne_sym a b : bool_ne a b = bool_ne b a.
Proof. by destruct a, b. Qed.

(** [shouldRegenerate] does not depend on the direction of the change: it
    gives the same answer for a change and for its reversal, and [false]
    when nothing changed. *)
Theorem shouldRegenerate_symmetric (a b : NotebookNavigatorSettings) :
  shouldRegenerate a b = shouldRegenerate b a
  /\ shouldRegenerate a a = false.
Proof.
  unfold shouldRegenerate. split.
  - rewrite (bool_ne_sym (showFilePreview a)), (bool_ne_sym (skipHeadingsInPreview a)),
      (bool_ne_sym (skipCodeBlocksInPreview a)), (bool_ne_sym (stripHtmlInPreview a)),
      (str_eqb_sym (JSON.stringify (previewProperties a))).
    destruct (showFilePreview a), (showFilePreview b); simpl; done.
  - assert (Hs : forall x : JSString, str_eqb x x = true)
      by (intros x; by apply str_eqb_true).
    rewrite Hs. by destruct (showFilePreview a), (skipHeadingsInPreview a),
      (skipCodeBlocksInPreview a), (stripHtmlInPreview a).
Qed.

End PreviewMore.

(* ===================================================================== *)
(** * Properties of the navigation index *)
(* ===================================================================== *)

Section NavigationFacts.
Import JS Navigation.
Context {ItemType : Type} `{EqDecision ItemType}.
Context (TAG : ItemType) (itemTypeText : ItemType -> JSString).
Context (normalizeTagPath : JSString -> option JSString).
Context (toLowerCase : JSString -> JSString).

Local Abbreviation normalize := (normalizeNavigationPath TAG normalizeTagPath toLowerCase).
Local Abbreviation key := (createNavigationIndexKey TAG itemTypeText normalizeTagPath toLowerCase).
Local Abbreviation get_index := (getNavigationIndex TAG itemTypeText normalizeTagPath toLowerCase).
Local Abbreviation set_index := (setNavigationIndex TAG itemTypeText normalizeTagPath toLowerCase).

Lemma app_separator_inj (c : N) (l1 l2 r1 r2 : list N) :
  c ∉ l1 -> c ∉ l2 -> l1 ++ c :: r1 = l2 ++ c :: r2 -> l1 = l2 /\ r1 = r2.
Proof.
  revert l2. induction l1 as [|a l1 IH]; intros [|b l2] H1 H2; simpl; intros Heq.
  - by injection Heq.
  - injection Heq as -> _. exfalso. apply H2. by left.
  - injection Heq as -> _. exfalso. apply H1. by left.
  - injection Heq as -> Heq.
    destruct (IH l2) as [-> ->]; [|  |done|done].
    + intros Hin. apply H1. by right.
    + intros Hin. apply H2. by right.
Qed.

(** Two keys of one item type are equal exactly when the normalized paths
    are. *)
Lemma key_same_type t p q : key t p = key t q <-> normalize t p = normalize t q.
Proof.
  unfold createNavigationIndexKey. cbv zeta. split.
  - intros Heq. by apply app_inv_head, app_inv_head in Heq.
  - by intros ->.
Qed.

(** Keys of different item types differ. *)
Lemma key_other_type t t' p q :
  texts_distinct itemTypeText -> t <> t' -> key t p <> key t' q.
Proof.
  intros [Hinj Hcolon] Hne Heq. unfold createNavigationIndexKey in Heq.
  cbv zeta in Heq. change (js ":") with [58%N] in Heq. simpl in Heq.
  apply app_separator_inj in Heq as [Heq _]; [|apply Hcolon..].
  by apply Hne, Hinj.
Qed.

(** An index that is stored is found again, under the path it was stored
    with and under every path of that item type with the same normalized
    form; the other paths of that item type keep what they had. *)
Theorem navigation_index_set_get (indexMap : gmap NavigationIndexKey number)
    (t : ItemType) (p q : JSString) (i : number) :
  get_index (set_index indexMap t p i) t q
  = if decide (normalize t p = normalize t q) then Some i
    else get_index indexMap t q.
Proof.
  unfold getNavigationIndex, setNavigationIndex.
  destruct (decide (normalize t p = normalize t q)) as [Heq|Hne].
  - apply key_same_type in Heq. rewrite Heq. apply lookup_insert_eq.
  - apply lookup_insert_ne. by intros Heq%key_same_type.
Qed.

(** Item types do not share entries: when no two item types have the same
    text and no text contains a colon, storing an index for a path of one
    item type changes no lookup for another item type, whatever the
    paths. *)
Theorem navigation_index_types_separate (indexMap : gmap NavigationIndexKey number)
    (t t' : ItemType) (p q : JSString) (i : number) :
  texts_distinct itemTypeText -> t <> t' ->
  get_index (set_index indexMap t p i) t' q = get_index indexMap t' q.
Proof.
  intros Htexts Hne. unfold getNavigationIndex, setNavigationIndex.
  apply lookup_insert_ne. by apply key_other_type.
Qed.

End NavigationFacts.

Section NavigationSample.
Import JS Navigation.

Lemma sample_texts_distinct : texts_distinct sample_text.
Proof.
  split.
  - intros [] []; vm_compute; first [done | discriminate].
  - intros [] Hin; vm_compute in Hin;
      repeat (apply elem_of_cons in Hin as [Hin|Hin]; [discriminate|]);
      by apply elem_of_nil in Hin.
Qed.

Lemma navigation_index_types_separate_witness :
  getNavigationIndex TAG sample_text sample_normalizeTagPath (fun s => s)
    (setNavigationIndex TAG sample_text sample_normalizeTagPath (fun s => s)
       ∅ FOLDER (js "work") num_one)
    TAG (js "work")
  = None.
Proof.
  rewrite (navigation_index_types_separate TAG sample_text sample_normalizeTagPath
             (fun s => s) ∅ FOLDER TAG (js "work") (js "work") num_one
             sample_texts_distinct); [|discriminate].
  reflexivity.
Defined.

End NavigationSample.

(* ===================================================================== *)
(** * Properties of the modal's [handleSubmit] *)
(* ===================================================================== *)

Section ModalFacts.
Import JS Modal.

Lemma trimStart_split (s : JSString) :
  exists pre, s = pre ++ trimStart s /\ blank pre = true.
Proof.
  induction s as [|c s (pre & Hs & Hpre)]; [by exists []|]. simpl.
  destruct (is_white_space c) eqn:Hc.
  - exists (c :: pre). simpl. rewrite Hc, Hpre. by rewrite <- Hs.
  - by exists [].
Qed.

Lemma trimStart_head (s : JSString) c rest :
  trimStart s = c :: rest -> is_white_space c = false.
Proof.
  induction s as [|a s IH]; [done|]. simpl.
  destruct (is_white_space a) eqn:Ha; [done|]. by intros [= <- _].
Qed.

Lemma trimStart_blank (s : JSString) : blank s = true -> trimStart s = [].
Proof.
  induction s as [|a s IH]; [done|]. simpl. intros [Ha Hs]%andb_true_iff.
  rewrite Ha. by apply IH.
Qed.

Lemma blank_app (a b : JSString) : blank (a ++ b) = blank a && blank b.
Proof. apply forallb_app. Qed.

Lemma blank_rev (a : JSString) : blank (rev a) = blank a.
Proof.
  induction a as [|c a IH]; [done|]. simpl. rewrite blank_app, IH. simpl.
  rewrite andb_true_r. apply andb_comm.
Qed.

Lemma trimEnd_split (s : JSString) :
  exists post, s = trimEnd s ++ post /\ blank post = true.
Proof.
  destruct (trimStart_split (rev s)) as (pre & Hs & Hpre).
  exists (rev pre). split; [|by rewrite blank_rev].
  unfold trimEnd. rewrite <- rev_app_distr, <- Hs. by rewrite rev_involutive.
Qed.

Lemma trimEnd_last (s : JSString) front c :
  trimEnd s = front ++ [c] -> is_white_space c = false.
Proof.
  unfold trimEnd. intros H. apply (f_equal (@rev N)) in H.
  rewrite rev_involutive, rev_app_distr in H. simpl in H.
  by apply trimStart_head in H.
Qed.

(** What [trim] gives: the name between a blank prefix and a blank suffix,
    with no white space at either end. *)
Lemma trim_spec (s : JSString) :
  exists pre post,
    s = pre ++ trim s ++ post
    /\ blank pre = true /\ blank post = true
    /\ (forall c rest, trim s = c :: rest -> is_white_space c = false)
    /\ (forall front c, trim s = front ++ [c] -> is_white_space c = false).
Proof.
  destruct (trimStart_split s) as (pre & Hs & Hpre).
  destruct (trimEnd_split (trimStart s)) as (post & Ht & Hpost).
  exists pre, post. unfold trim. split; [by rewrite <- Ht|].
  split; [done|]. split; [done|]. split.
  - intros c rest Hc. rewrite Hc in Ht. simpl in Ht.
    by apply trimStart_head in Ht.
  - intros front c. apply trimEnd_last.
Qed.

Lemma trim_blank (s : JSString) : trim s = [] <-> blank s = true.
Proof.
  split.
  - intros Hnil. destruct (trim_spec s) as (pre & post & Hs & Hpre & Hpost & _).
    rewrite Hs, Hnil, !blank_app, Hpre, Hpost. done.
  - intros Hs. unfold trim. by rewrite (trimStart_blank s Hs).
Qed.

(** A name that is empty or consists of white space is not submitted: the
    handler is not called, a warning is shown, and the modal stays open
    with the name as it is. *)
Theorem handleSubmit_blank (onSubmitHandler : JSString -> completion bool) (s : State) :
  blank (name s) = true ->
  handleSubmit onSubmitHandler s
  = (Ok tt, {| name := name s; trace := trace s ++ [EvNotice (js "warning")] |}).
Proof.
  intros Hblank. unfold handleSubmit.
  rewrite (bind_ok _ _ s s s) by reflexivity.
  by rewrite (proj2 (trim_blank (name s)) Hblank).
Qed.

Lemma handleSubmit_blank_witness :
  handleSubmit (fun _ => Returns true) blank_modal
  = (Ok tt, {| name := name blank_modal; trace := [EvNotice (js "warning")] |}).
Proof.
  apply (handleSubmit_blank (fun _ => Returns true) blank_modal). reflexivity.
Defined.

(** Any other name is submitted once, trimmed: the handler receives the
    name without the white space around it, which is not empty and neither
    starts nor ends with white space.  The modal closes, after the handler
    has returned, unless the handler returned [false]; when the handler
    raises, the error is passed on and the modal stays open. *)
Theorem handleSubmit_submits (onSubmitHandler : JSString -> completion bool) (s : State) :
  blank (name s) = false ->
  exists pre n post,
    name s = pre ++ n ++ post
    /\ blank pre = true /\ blank post = true
    /\ (exists c rest, n = c :: rest /\ is_white_space c = false)
    /\ (exists front c, n = front ++ [c] /\ is_white_space c = false)
    /\ handleSubmit onSubmitHandler s
       = (submit_outcome (onSubmitHandler n),
          {| name := name s;
             trace := trace s ++ EvSubmit n :: after_submit (onSubmitHandler n) |}).
Proof.
  intros Hblank.
  destruct (trim_spec (name s)) as (pre & post & Hs & Hpre & Hpost & Hhead & Hlast).
  exists pre, (trim (name s)), post.
  split; [done|]. split; [done|]. split; [done|].
  assert (Hne : trim (name s) <> []).
  { intros Hnil%trim_blank. congruence. }
  split.
  { destruct (trim (name s)) as [|c rest] eqn:Ht; [done|].
    exists c, rest. split; [done|]. by apply (Hhead c rest). }
  split.
  { destruct (exists_last Hne) as (front & c & Ht).
    exists front, c. split; [done|]. by apply (Hlast front c). }
  unfold handleSubmit. rewrite (bind_ok _ _ s s s) by reflexivity. cbv zeta.
  destruct (trim (name s)) as [|c rest] eqn:Ht; [done|]. simpl length. cbv iota.
  change (S (length rest) =? 0)%nat with false. cbv iota.
  unfold bind, emit, modify, call. simpl.
  destruct (onSubmitHandler (c :: rest)) as [[]|e]; simpl;
    rewrite <- ?app_assoc; reflexivity.
Qed.

Lemma handleSubmit_submits_witness :
  exists n,
    handleSubmit (fun _ => Returns true) padded_modal
    = (Ok tt, {| name := name padded_modal; trace := [EvSubmit n; EvClose] |}).
Proof.
  destruct (handleSubmit_submits (fun _ => Returns true) padded_modal eq_refl)
    as (pre & n & post & _ & _ & _ & _ & _ & Hrun).
  exists n. exact Hrun.
Defined.

Example handleSubmit_padded :
  handleSubmit (fun _ => Returns false) padded_modal
  = (Ok tt, {| name := name padded_modal; trace := [EvSubmit (js "my search")] |}).
Proof. vm_compute. reflexivity. Qed.

End ModalFacts.

(* ===================================================================== *)
(** * The worker that documents are opened with *)
(* ===================================================================== *)

#[global] Instance with_worker_preorder wk : PreOrder (PdfSpec.with_worker wk).
Proof.
  split.
  - intros w. split; [done|reflexivity].
  - intros w1 w2 w3 [Hs1 Ha1] [Hs2 Ha2]. split; [congruence|by etrans].
Qed.

#[global] Instance with_worker_frame_preorder wk : PreOrder (PdfSpec.with_worker_frame wk).
Proof.
  split.
  - intros f. unfold PdfSpec.with_worker_frame. reflexivity.
  - intros f1 f2 f3. unfold PdfSpec.with_worker_frame. apply transitivity.
Qed.

Section WorkerFacts.
Import JS Obsidian Pdf PdfSpec.
Context (wk : option PdfWorker).

Lemma keeps_worker_emit e : uses_worker wk e -> keeps (with_worker wk) (emit e).
Proof.
  intros He w. split; [done|]. by apply (keeps_emit (uses_worker wk) e He w).
Qed.

Lemma keeps_worker_touchWorkerIdleTimer : keeps (with_worker wk) touchWorkerIdleTimer.
Proof.
  intros w. destruct (touchWorkerIdleTimer_fields w) as (w' & -> & Hs & Ht & _).
  split; [done|]. by apply adds_same_trace.
Qed.

Lemma keeps_worker_releaseRender i : keeps (with_worker wk) (releaseRender i).
Proof.
  intros w. split.
  - unfold releaseRender. by destruct (Limiter.release i (renderLimiter w)).
  - by apply (keeps_releaseRender (uses_worker wk) i).
Qed.

Lemma keeps_worker_inWorld {A} (m : M World A) :
  keeps (with_worker wk) m -> keeps (with_worker_frame wk) (inWorld m).
Proof.
  intros Hm f. unfold inWorld. specialize (Hm (world f)).
  by destruct (m (world f)) as [r w'].
Qed.

Lemma keeps_worker_set_doc d : keeps (with_worker_frame wk) (set_doc d).
Proof. apply keeps_modify. intros f. unfold with_worker_frame. simpl. reflexivity. Qed.

Lemma keeps_worker_set_page p : keeps (with_worker_frame wk) (set_page p).
Proof. apply keeps_modify. intros f. unfold with_worker_frame. simpl. reflexivity. Qed.

End WorkerFacts.

(** Walks through code that leaves the shared worker alone. *)
Ltac worker_effects_using known :=
  trace_effects_using
    ltac:(first
      [ known
      | apply keeps_worker_touchWorkerIdleTimer | apply keeps_worker_releaseRender
      | apply keeps_worker_inWorld | apply keeps_worker_set_doc
      | apply keeps_worker_set_page
      | apply keeps_worker_emit; simpl; done ]).

Section SharedWorkerUse.
Import JS Obsidian Pdf PdfSpec.

(** What [getSharedWorkerInstance] returns is what the module holds
    afterwards, and it opens no document. *)
Lemma getSharedWorkerInstance_result pdfjs w :
  exists r w',
    getSharedWorkerInstance pdfjs w = (Ok r, w')
    /\ sharedWorker w' = r
    /\ adds (fun e => is_get_document e = false) w w'.
Proof.
  destruct (returns_getSharedWorkerInstance pdfjs w) as (r & w' & E & _).
  pose proof (keeps_getSharedWorkerInstance (fun e => is_get_document e = false)
                eq_refl pdfjs w) as Ha.
  rewrite E in Ha. exists r, w'. split; [done|]. split; [|done].
  clear Ha. unfold getSharedWorkerInstance in E.
  rewrite (bind_ok _ _ w w w) in E by reflexivity.
  destruct (sharedWorker w) as [wk|] eqn:Hw.
  - destruct (touchWorkerIdleTimer_fields w) as (w1 & E1 & Hs & _).
    rewrite (bind_ok _ _ w tt w1) in E by done.
    injection E as <- <-. congruence.
  - destruct (returns_tryCreateWorker pdfjs w) as (c & w1 & E1 & _).
    assert (Hs1 : sharedWorker w1 = None).
    { cbv [tryCreateWorker try_catch bind emit call ret modify] in E1.
      destruct (negb _); [injection E1 as _ <-; done|].
      destruct (if factory_isRecord _ then _ else _) as [[]|];
        [injection E1 as _ <-; done..|].
      destruct (factory_new _) as [[]|]; injection E1 as _ <-; done. }
    rewrite (bind_ok _ _ w c w1) in E by done.
    destruct c as [wk|]; [|injection E as <- <-; done].
    set (w2 := (set_sharedWorker (Some wk) w1).2) in *.
    rewrite (bind_ok _ _ w1 tt w2) in E by reflexivity.
    destruct (touchWorkerIdleTimer_fields w2) as (w3 & E3 & Hs3 & _).
    rewrite (bind_ok _ _ w2 tt w3) in E by done.
    injection E as <- <-. by rewrite Hs3.
Qed.

Lemma adds_weaken (P Q : Event -> Prop) (w w' : World) :
  (forall e, P e -> Q e) -> adds P w w' -> adds Q w w'.
Proof.
  intros HPQ (evs & Ht & Hf). exists evs. split; [done|].
  eapply Forall_impl; [exact Hf|done].
Qed.

Lemma not_get_document_uses_worker wk e : is_get_document e = false -> uses_worker wk e.
Proof. by destruct e. Qed.

(** The [try] block opens documents with the worker that
    [getSharedWorkerInstance] returned to it. *)
Lemma renderPage_uses_worker env pdfFile options f pdfjs :
  loadPdfJs env = Returns pdfjs ->
  exists wk,
    (getSharedWorkerInstance pdfjs (emit EvLoadPdfJs (world f)).2).1 = Ok wk
    /\ sharedWorker (getSharedWorkerInstance pdfjs (emit EvLoadPdfJs (world f)).2).2 = wk
    /\ adds (uses_worker wk) (world f) (world (renderPage env pdfFile options f).2).
Proof.
  intros Hload. unfold renderPage.
  set (f0 := {| world := (emit EvLoadPdfJs (world f)).2; doc := doc f; page := page f |}).
  assert (H0 : forall wk, adds (uses_worker wk) (world f) (world f0))
    by (intros wk; by apply (keeps_emit (uses_worker wk) EvLoadPdfJs I (world f))).
  rewrite (bind_ok _ _ f pdfjs f0); [|unfold bind, inWorld; simpl; by rewrite Hload].
  destruct (getSharedWorkerInstance_result pdfjs (world f0)) as (wk & w1 & E1 & Hs1 & Ha1).
  pose proof E1 as E1'.
  change (world f0) with (emit EvLoadPdfJs (world f)).2 in E1.
  exists wk. rewrite E1. split; [done|]. split; [done|].
  set (f1 := {| world := w1; doc := doc f0; page := page f0 |}).
  rewrite (bind_ok _ _ f0 wk f1) by (unfold inWorld; by rewrite E1').
  match goal with
  | |- context [bind ?m ?k f1] =>
      assert (HK : keeps (with_worker_frame wk) (bind m k))
  end.
  { unfold openDocument, canvasToBlob. cbv zeta. worker_effects_using fail. }
  destruct (HK f1) as [Hs Ha]. change (world f1) with w1 in *.
  etrans; [apply H0|]. etrans; [|exact Ha].
  eapply adds_weaken; [|exact Ha1]. apply not_get_document_uses_worker.
Qed.

(** When pdf.js cannot be loaded the [try] block opens no document. *)
Lemma renderPage_without_pdfjs env pdfFile options f e :
  loadPdfJs env = Raises e ->
  adds (fun e => is_get_document e = false) (world f)
       (world (renderPage env pdfFile options f).2).
Proof.
  intros Hload. unfold renderPage.
  set (f0 := {| world := (emit EvLoadPdfJs (world f)).2; doc := doc f; page := page f |}).
  rewrite (bind_throw _ _ f e f0); [|unfold bind, inWorld; simpl; by rewrite Hload].
  by apply (keeps_emit (fun e => is_get_document e = false) EvLoadPdfJs eq_refl (world f)).
Qed.

(** What the [catch] and [finally] blocks add to the calls of the [try]
    block. *)
Lemma renderWithPermit_adds (P : Event -> Prop) env pdfFile options i w :
  (forall key, P (EvLogOnce key)) -> P EvPageCleanup -> P EvDocumentDestroy ->
  P (EvRelease i) ->
  adds P w (world (renderPage env pdfFile options
                     {| world := w; doc := None; page := None |}).2) ->
  adds P w (renderWithPermit env pdfFile options i w).2.
Proof.
  intros Hlog Hclean Hdestroy Hrelease Hpage.
  assert (Hfailed : forall e, keeps (adds_frame P) (renderFailed pdfFile e)).
  { intros e. unfold renderFailed, logOnce.
    trace_effects_using ltac:(by apply keeps_emit). }
  assert (Hdone : keeps (adds_frame P) (renderDone i)).
  { unfold renderDone.
    trace_effects_using
      ltac:(first [ by apply keeps_emit | by apply keeps_releaseRender
                  | apply keeps_touchWorkerIdleTimer ]). }
  unfold renderWithPermit, withLocals.
  set (f0 := {| world := w; doc := None; page := None |}) in *.
  assert (Hg : adds P w (world (try_catch (renderPage env pdfFile options)
                                          (renderFailed pdfFile) f0).2)).
  { unfold try_catch.
    destruct (renderPage env pdfFile options f0) as [[b|e|] f1]; cbn [snd] in *;
      [done| |done].
    etrans; [exact Hpage|]. apply (Hfailed e f1). }
  unfold try_finally.
  destruct (try_catch _ _ f0) as [[b|e|] f1]; cbn [snd] in *; [| |done].
  - pose proof (Hdone f1) as Hd.
    destruct (renderDone i f1) as [[[]|e'|] f2]; cbn [snd] in *; by etrans.
  - pose proof (Hdone f1) as Hd.
    destruct (renderDone i f1) as [[[]|e'|] f2]; cbn [snd] in *; by etrans.
Qed.

(** Documents are opened with the shared worker.  Every [getDocument] of a
    render is given what [getSharedWorkerInstance] returned to that render,
    and that is the worker the module holds as its shared worker at the
    moment [getSharedWorkerInstance] returns, or no worker when it holds
    none: a render never uses a worker of its own.  When pdf.js cannot be
    loaded, no document is opened. *)
Theorem documents_use_shared_worker (env : Env) (pdfFile : TFile)
    (options : PdfCoverThumbnailOptions) (i : nat) (w : World) :
  match loadPdfJs env with
  | Returns pdfjs =>
      exists wk,
        (getSharedWorkerInstance pdfjs (emit EvLoadPdfJs w).2).1 = Ok wk
        /\ sharedWorker (getSharedWorkerInstance pdfjs (emit EvLoadPdfJs w).2).2 = wk
        /\ adds (uses_worker wk) w (renderWithPermit env pdfFile options i w).2
  | Raises _ =>
      adds (fun e => is_get_document e = false) w
           (renderWithPermit env pdfFile options i w).2
  end.
Proof.
  destruct (loadPdfJs env) as [pdfjs|e] eqn:Hload.
  - destruct (renderPage_uses_worker env pdfFile options
                {| world := w; doc := None; page := None |} pdfjs Hload)
      as (wk & Hr & Hs & Ha).
    exists wk. split; [exact Hr|]. split; [exact Hs|].
    by apply renderWithPermit_adds.
  - apply renderWithPermit_adds; try done.
    by apply (renderPage_without_pdfjs env pdfFile options
                {| world := w; doc := None; page := None |} e).
Qed.

End SharedWorkerUse.

(* ===================================================================== *)
(** * Failures of the renderer stay inside [renderPdfCoverThumbnail] *)
(* ===================================================================== *)

Section FailureFacts.
Import JS Obsidian Pdf PdfSpec.

(** A file that passes the guards waits for its permit or runs with it. *)
Lemma render_granted env pdfFile options w :
  renderable env pdfFile ->
  (renderPdfCoverThumbnail env pdfFile options w).1 = Pending
  \/ exists i w1,
       is_Some (Limiter.permits (renderLimiter w1) !! i)
       /\ renderPdfCoverThumbnail env pdfFile options w
          = renderWithPermit env pdfFile options i w1
       /\ sharedWorker w1 = sharedWorker w
       /\ trace w1 = trace w ++ [EvAcquire i].
Proof.
  intros [Hext Hsize].
  destruct (renderPdfCoverThumbnail env pdfFile options w) as [r w'] eqn:Hrun.
  cbn [fst]. unfold renderPdfCoverThumbnail in Hrun.
  rewrite Hext in Hrun.
  rewrite (proj2 (str_eqb_true (js "pdf") (js "pdf")) eq_refl) in Hrun.
  cbn [negb] in Hrun. cbv zeta in Hrun.
  rewrite (proj2 (Z.ltb_ge _ _) Hsize) in Hrun.
  set (w0 := (clearWorkerIdleTimer w).2) in *.
  assert (Hs0 : sharedWorker w0 = sharedWorker w /\ trace w0 = trace w).
  { subst w0. unfold clearWorkerIdleTimer, modify. simpl.
    by destruct (workerIdleTimerId w). }
  unfold bind at 1 in Hrun. change (clearWorkerIdleTimer w) with (Ok tt, w0) in Hrun.
  unfold bind at 1 in Hrun. unfold acquireRender at 1 in Hrun.
  unfold Limiter.acquireOne, Limiter.acquire in Hrun.
  change (1 <=? 0) with false in Hrun. cbv iota in Hrun.
  set (i := Limiter.nextId (renderLimiter w0)) in *.
  set (l1 := Limiter.admitWaiters _) in *.
  destruct (bool_decide (is_Some (Limiter.permits l1 !! i))) eqn:Hadm;
    [|injection Hrun as <- <-; by left].
  right. apply bool_decide_eq_true in Hadm.
  exists i, (emit (EvAcquire i) (set_renderLimiter l1 w0)).2.
  split; [done|]. split; [done|]. destruct Hs0 as [Hs Ht].
  split; [done|]. simpl. by rewrite Ht.
Qed.

(** When the [try] block raises, the [catch] block logs the failure and
    the [finally] block releases the permit: the call returns [null]. *)
Lemma failure_contained env pdfFile options i w1 e f' :
  is_Some (Limiter.permits (renderLimiter w1) !! i) ->
  renderPage env pdfFile options {| world := w1; doc := None; page := None |}
  = (Throw e, f') ->
  (renderWithPermit env pdfFile options i w1).1 = Ok None
  /\ exists evs,
       trace (renderWithPermit env pdfFile options i w1).2 = trace w1 ++ evs
       /\ failure_log pdfFile ∈ evs /\ EvRelease i ∈ evs.
Proof.
  intros Hheld Hthrow. unfold renderWithPermit, withLocals, try_finally.
  set (f0 := {| world := w1; doc := None; page := None |}) in *.
  destruct (ends_renderPage env pdfFile options f0) as (r & f1 & E1 & _ & [Hl1 _]).
  pose proof (keeps_any_renderPage env pdfFile options f0) as (body & Ht1 & _).
  rewrite Hthrow in E1, Ht1. injection E1 as <- <-. cbn [snd] in Ht1.
  set (f2 := {| world := (emit (failure_log pdfFile) (world f')).2;
                doc := doc f'; page := page f' |}).
  assert (Hg : try_catch (renderPage env pdfFile options) (renderFailed pdfFile) f0
               = (Ok None, f2)).
  { unfold try_catch. by rewrite Hthrow. }
  rewrite Hg.
  assert (Hheld2 : is_Some (Limiter.permits (renderLimiter (world f2)) !! i))
    by (simpl; by rewrite Hl1).
  destruct (renderDone_runs i f2 Hheld2) as (f3 & -> & Ht3).
  split; [done|]. simpl in Ht3 |- *.
  exists (body ++ [failure_log pdfFile] ++ cleanup_calls (page f')
            ++ destroy_calls (doc f') ++ [EvRelease i]).
  split; [rewrite Ht3, Ht1; by rewrite <- !app_assoc|]. split.
  - apply elem_of_app. right. apply elem_of_app. left. by apply list_elem_of_singleton.
  - do 4 (apply elem_of_app; right). by apply list_elem_of_singleton.
Qed.

Lemma unopenable_page_render_raises env pdfjs :
  document_unopenable pdfjs -> page_render_raises env pdfjs.
Proof. intros Hun params d Hd. destruct (Hun params) as [e He]. congruence. Qed.

Lemma render_raises_page_render_raises env pdfjs :
  render_raises env pdfjs -> page_render_raises env pdfjs.
Proof.
  intros [Hctx Hdoc] params d Hd. split; [done|].
  destruct (Hdoc params) as (d' & p & Hd' & Hp & Hview & Hrender).
  assert (d' = d) as -> by congruence. by exists p.
Qed.

(** The [try] block raises when the page of the document that is opened,
    from the URL or from the bytes, cannot be rendered, and when no
    document is opened. *)
Lemma renderPage_page_raises env pdfFile options pdfjs f :
  loadPdfJs env = Returns pdfjs -> page_render_raises env pdfjs ->
  exists e f', renderPage env pdfFile options f = (Throw e, f').
Proof.
  intros Hload Hpr.
  destruct (renderPage_start env pdfFile options pdfjs f Hload) as (worker & f1 & ->).
  destruct (getResourcePath env pdfFile) as [url|e] eqn:Hurl.
  2:{ eexists _, _. apply bind_throw. by apply call_raises. }
  erewrite bind_ok; [|by apply call_returns]. cbv zeta.
  match goal with
  | |- context [bind (try_catch ?m ?h) _ f1] =>
      assert (Hopen : (exists e f', try_catch m h f1 = (Throw e, f'))
                      \/ exists d f2 params,
                           try_catch m h f1 = (Ok d, f2)
                           /\ getDocument pdfjs params = Returns d)
  end.
  { destruct (getDocument pdfjs {| source := FromUrl url; disableAutoFetch := true;
                                   disableStream := true; worker := worker |})
      as [d|e1] eqn:H1.
    - right. eexists _, _, _. split; [|exact H1].
      by apply try_catch_ok, openDocument_returns.
    - rewrite (try_catch_throw _ _ _ _ _ (openDocument_raises _ _ _ f1 H1)).
      destruct (readBinary env (path pdfFile)) as [buffer|e2] eqn:Hread.
      + erewrite bind_ok; [|erewrite bind_ok; [|reflexivity]; by apply call_returns].
        destruct (getDocument pdfjs {| source := FromData buffer; disableAutoFetch := true;
                                       disableStream := true; worker := worker |})
          as [d|e3] eqn:H2.
        * right. eexists _, _, _. split; [|exact H2]. by apply openDocument_returns.
        * left. eexists _, _. by apply openDocument_raises.
      + left. eexists _, _. apply bind_throw.
        erewrite bind_ok; [|reflexivity]. by apply call_raises. }
  destruct Hopen as [(e & f' & Ho)|(d & f2 & params & Ho & Hd)].
  { eexists _, _. by apply bind_throw. }
  destruct (Hpr params d Hd) as (Hctx & p & Hp & Hview & Hrender).
  destruct (Hview num_one) as [v1 Hv1].
  destruct (Hview (thumbnail_scale options v1)) as [v2 Hv2].
  destruct (Hrender (thumbnail_canvas v2) v2) as [e Hr].
  unfold thumbnail_scale in Hv2. unfold thumbnail_canvas in Hr.
  eexists _, _.
  erewrite bind_ok; [|exact Ho].
  erewrite bind_ok; [|reflexivity].
  erewrite bind_ok; [|erewrite bind_ok; [|reflexivity]; by apply call_returns].
  cbv iota.
  erewrite bind_ok; [|reflexivity].
  erewrite bind_ok; [|by apply call_returns].
  erewrite bind_ok; [|by apply call_returns].
  rewrite Hctx. cbn [negb].
  apply bind_throw.
  erewrite bind_ok; [|reflexivity]. by apply call_raises.
Qed.

(** C8. A failure of the renderer does not reach the caller of
    [renderPdfCoverThumbnail].  The call never raises, and neither does
    [tryCreateWorker].  When no worker can be constructed,
    [tryCreateWorker] and [getSharedWorkerInstance] give [null] and the
    rendering proceeds without a worker: every document is opened with no
    worker, and when the document opens and its page renders the call
    returns the encoded thumbnail, as it would with a worker.  When the [try]
    block raises, for whatever reason, the call returns [null], having
    logged the failure and released its permit; this is the case when no
    document can be opened (from the URL and from the bytes) and when
    rendering the page raises, whether the document was opened from the URL
    or from the bytes.  A call that does not hold a permit yet may instead
    still wait for it. *)
Theorem renderer_failures_contained (env : Env) (pdfFile : TFile)
    (options : PdfCoverThumbnailOptions) (w : World) :
  ((renderPdfCoverThumbnail env pdfFile options w).1 = Pending
   \/ exists b, (renderPdfCoverThumbnail env pdfFile options w).1 = Ok b)
  /\ (forall pdfjs w0, exists r, (tryCreateWorker pdfjs w0).1 = Ok r)
  /\ (forall pdfjs w0, worker_unavailable pdfjs ->
        (tryCreateWorker pdfjs w0).1 = Ok None
        /\ (sharedWorker w0 = None -> (getSharedWorkerInstance pdfjs w0).1 = Ok None))
  /\ (forall pdfjs url f,
        loadPdfJs env = Returns pdfjs -> getResourcePath env pdfFile = Returns url ->
        sharedWorker (world f) = None -> worker_unavailable pdfjs ->
        EvGetDocument {| source := FromUrl url; disableAutoFetch := true;
                         disableStream := true; worker := None |}
        ∈ trace (world (renderPage env pdfFile options f).2))
  /\ (forall pdfjs,
        loadPdfJs env = Returns pdfjs ->
        document_unopenable pdfjs \/ render_raises env pdfjs ->
        (renderPdfCoverThumbnail env pdfFile options w).1 = Pending
        \/ (renderPdfCoverThumbnail env pdfFile options w).1 = Ok None)
  /\ (forall pdfjs url d p base v,
        renderable env pdfFile -> sharedWorker w = None ->
        loadPdfJs env = Returns pdfjs -> worker_unavailable pdfjs ->
        getResourcePath env pdfFile = Returns url ->
        opens_document env pdfjs pdfFile url d ->
        getPage d 1 = Returns (Page p) ->
        getViewport p num_one = Returns base ->
        getViewport p (thumbnail_scale options base) = Returns v ->
        getContext2d env (thumbnail_canvas v) = true ->
        render p (thumbnail_canvas v) v = Returns tt ->
        (renderPdfCoverThumbnail env pdfFile options w).1 = Pending
        \/ ((renderPdfCoverThumbnail env pdfFile options w).1
            = Ok (encoded env options (thumbnail_canvas v))
            /\ adds (uses_worker None) w (renderPdfCoverThumbnail env pdfFile options w).2
            /\ EvGetDocument (document_params (FromUrl url) None)
               ∈ trace (renderPdfCoverThumbnail env pdfFile options w).2))
  /\ (forall i w1 e f',
        is_Some (Limiter.permits (renderLimiter w1) !! i) ->
        renderPage env pdfFile options {| world := w1; doc := None; page := None |}
        = (Throw e, f') ->
        (renderWithPermit env pdfFile options i w1).1 = Ok None
        /\ exists evs,
             trace (renderWithPermit env pdfFile options i w1).2 = trace w1 ++ evs
             /\ failure_log pdfFile ∈ evs /\ EvRelease i ∈ evs)
  /\ (forall pdfjs,
        renderable env pdfFile ->
        loadPdfJs env = Returns pdfjs ->
        document_unopenable pdfjs \/ page_render_raises env pdfjs ->
        (renderPdfCoverThumbnail env pdfFile options w).1 = Pending
        \/ ((renderPdfCoverThumbnail env pdfFile options w).1 = Ok None
            /\ exists i evs,
                 trace (renderPdfCoverThumbnail env pdfFile options w).2 = trace w ++ evs
                 /\ EvAcquire i ∈ evs /\ failure_log pdfFile ∈ evs
                 /\ EvRelease i ∈ evs)).
Proof.
  split; [|split; [|split; [|split; [|split; [|split; [|split]]]]]].
  - destruct (render_shape env pdfFile options w) as [H|[H|(i & w1 & Hheld & ->)]].
    + right. by exists None.
    + by left.
    + right. destruct (render_with_permit env pdfFile options i w1 Hheld)
        as (b & w2 & _ & _ & _ & -> & _). by exists b.
  - intros pdfjs w0.
    destruct (returns_tryCreateWorker pdfjs w0) as (r & w0' & -> & _). by exists r.
  - intros pdfjs w0 Hun. split; [by apply tryCreateWorker_unavailable|].
    intros Hnone.
    by destruct (getSharedWorkerInstance_unavailable pdfjs w0 Hnone Hun) as [w0' ->].
  - intros pdfjs url f. apply renderPage_without_worker.
  - intros pdfjs Hload Hfail.
    destruct (render_shape env pdfFile options w) as [H|[H|(i & w1 & Hheld & ->)]];
      [by right|by left|]. right.
    assert (Hpr : page_render_raises env pdfjs).
    { destruct Hfail; [by apply unopenable_page_render_raises
                      |by apply render_raises_page_render_raises]. }
    destruct (renderPage_page_raises env pdfFile options pdfjs
                {| world := w1; doc := None; page := None |} Hload Hpr)
      as (e & f' & Hthrow).
    by destruct (failure_contained env pdfFile options i w1 e f' Hheld Hthrow).
  - intros pdfjs url d p base v Hfile Hnone Hload Hun Hurl Hopen Hpage Hbase Hview
      Hctx Hrender.
    destruct (render_granted env pdfFile options w Hfile)
      as [H|(i & w1 & Hheld & -> & Hs1 & Ht1)]; [by left|]. right.
    rewrite Hnone in Hs1.
    set (f0 := {| world := w1; doc := None; page := None |}).
    assert (Hresult : (renderWithPermit env pdfFile options i w1).1
                      = Ok (encoded env options (thumbnail_canvas v))).
    { unfold renderWithPermit, withLocals, try_finally. fold f0.
      destruct (guarded_with_page env pdfFile options pdfjs url d p f0 Hload Hurl Hopen
                  Hpage) as (f5 & b & f7 & -> & Hb & _ & _ & Hl7 & _).
      assert (Hheld7 : is_Some (Limiter.permits (renderLimiter (world f7)) !! i))
        by (by rewrite Hl7).
      destruct (renderDone_runs i f7 Hheld7) as (f8 & -> & _).
      simpl. f_equal.
      destruct (page_to_blob_result env options p base v f5 Hbase Hview Hctx Hrender)
        as [Hr|(e & Hr & Hnull)]; destruct Hb as [Hb|(e' & Hb & ->)]; congruence. }
    destruct (renderPage_uses_worker env pdfFile options f0 pdfjs Hload)
      as (wk & Hr & Hs & Ha).
    assert (wk = None) as ->.
    { destruct (getSharedWorkerInstance_unavailable pdfjs (emit EvLoadPdfJs (world f0)).2
                  Hs1 Hun) as [w0' Hget].
      rewrite Hget in Hr. by injection Hr as <-. }
    assert (Hadds : adds (uses_worker None) w1 (renderWithPermit env pdfFile options i w1).2)
      by (by apply renderWithPermit_adds).
    split; [exact Hresult|]. split.
    + etrans; [|exact Hadds]. exists [EvAcquire i]. split; [done|]. by repeat constructor.
    + apply renderWithPermit_keeps_call.
      by apply (renderPage_without_worker env pdfFile options pdfjs url f0).
  - intros i w1 e f'. apply failure_contained.
  - intros pdfjs Hfile Hload Hfail.
    destruct (render_granted env pdfFile options w Hfile)
      as [H|(i & w1 & Hheld & -> & Hs1 & Ht1)]; [by left|]. right.
    assert (Hpr : page_render_raises env pdfjs).
    { destruct Hfail; [by apply unopenable_page_render_raises|done]. }
    destruct (renderPage_page_raises env pdfFile options pdfjs
                {| world := w1; doc := None; page := None |} Hload Hpr)
      as (e & f' & Hthrow).
    destruct (failure_contained env pdfFile options i w1 e f' Hheld Hthrow)
      as (Hnull & evs & Ht & Hlog & Hrel).
    split; [exact Hnull|]. exists i, (EvAcquire i :: evs).
    split; [rewrite Ht, Ht1; by rewrite <- app_assoc|].
    split; [by left|]. split; by right.
Qed.

Lemma small_pdf_renderable (pdfjs : PdfJs) : renderable (platform pdfjs) small_pdf.
Proof. split; [reflexivity|]. vm_compute. discriminate. Qed.

Lemma pdfjs_without_worker_opens :
  opens_document (platform pdfjs_without_worker) pdfjs_without_worker small_pdf
    (js "app://local/" ++ path small_pdf) one_page_document.
Proof. intros wk. by left. Qed.

Lemma renderer_failures_contained_witness :
  (renderPdfCoverThumbnail (platform pdfjs_without_documents) small_pdf
     thumbnail_options initial_world).1 = Ok None
  /\ (renderPdfCoverThumbnail (platform pdfjs_without_worker) small_pdf
        thumbnail_options initial_world).1
     = Ok (Some {| blob_type := mimeType thumbnail_options; blob_size := 2048 |}).
Proof.
  split.
  - destruct (renderer_failures_contained (platform pdfjs_without_documents) small_pdf
                thumbnail_options initial_world) as (_ & _ & _ & _ & _ & _ & _ & Hfail).
    destruct (Hfail pdfjs_without_documents (small_pdf_renderable _) eq_refl
                (or_introl pdfjs_without_documents_unopenable)) as [Hp|[Hn _]].
    + vm_compute in Hp. discriminate.
    + exact Hn.
  - destruct (renderer_failures_contained (platform pdfjs_without_worker) small_pdf
                thumbnail_options initial_world) as (_ & _ & _ & _ & _ & Hproceed & _).
    pose proof (Hproceed pdfjs_without_worker (js "app://local/" ++ path small_pdf)
                  one_page_document letter_page _ _ (small_pdf_renderable _) eq_refl
                  eq_refl pdfjs_without_worker_unavailable eq_refl
                  pdfjs_without_worker_opens eq_refl eq_refl eq_refl) as H.
    specialize (H eq_refl). specialize (H eq_refl).
    destruct H as [Hp|[Hr _]].
    + vm_compute in Hp. discriminate.
    + exact Hr.
Defined.

End FailureFacts.
